(** * DuckStation core: software rasterizer dispatch, dither table,
      translation string cache and D3D11 format mapping.

    A shallow embedding of
      - src/core/gpu_sw_rasterizer.cpp
      - src/core/host.cpp (translation string cache)
      - src/core/gpu/d3d11_texture.cpp (DXGI format table)
    followed by the properties established about them. *)

From Stdlib Require Import ZArith Lia Ascii String.
From stdpp Require Import base numbers option list strings gmap.

Local Open Scope Z_scope.

(* ===================================================================== *)
(** * Part I. The embedding                                               *)
(* ===================================================================== *)

(** ** Fixed-width integers

    C++ [u8], [u32] and [s32] values are integers of [Z]; the conversions
    between them are written out as the wrap-around they perform. *)

Definition to_u8 (x : Z) : Z := x mod 2 ^ 8.
Definition to_u32 (x : Z) : Z := x mod 2 ^ 32.
Definition to_s32 (x : Z) : Z := (x + 2 ^ 31) mod 2 ^ 32 - 2 ^ 31.

(** [for (u32 i = 0; i < n; i++) body(i)] over a state [S]. *)
Definition for_u32 {S : Type} (n : nat) (body : nat → S → S) (s : S) : S :=
  foldl (λ acc i, body i acc) s (seq 0 n).

(* --------------------------------------------------------------------- *)
(** ** gpu_sw_rasterizer.cpp: the dither lookup table                     *)
(* --------------------------------------------------------------------- *)

(** [DitherLUT] is a three-dimensional [std::array] of [u8]. *)
Abbreviation DitherLUT := (list (list (list Z))).

(** [lut[i][j][value]] read. *)
Definition lut_load (lut : DitherLUT) (i j value : nat) : option Z :=
  row ← lut !! i; cell ← row !! j; cell !! value.

(** [lut[i][j][value] = x] write. *)
Definition lut_store (lut : DitherLUT) (i j value : nat) (x : Z) : DitherLUT :=
  alter (alter (<[value := x]>) j) i lut.

Section DitherTable.

(** The constants [DITHER_MATRIX_SIZE], [DITHER_LUT_SIZE] and the table
    [DITHER_MATRIX] are declared in the header gpu_sw_rasterizer.h, which is
    not embedded here: they are parameters of the construction. *)
Variable DITHER_MATRIX_SIZE : nat.
Variable DITHER_LUT_SIZE : nat.
Variable DITHER_MATRIX : list (list Z).

(** [DITHER_MATRIX[i][j]]. *)
Definition dither_matrix_at (i j : nat) : Z :=
  default 0 (row ← DITHER_MATRIX !! i; row !! j).

(** [DitherLUT lut = {};] *)
Definition dither_lut_zero : DitherLUT :=
  replicate DITHER_MATRIX_SIZE
    (replicate DITHER_MATRIX_SIZE (replicate DITHER_LUT_SIZE 0)).

(** [(static_cast<s32>(value) + DITHER_MATRIX[i][j]) >> 3] *)
Definition dithered_value (i j value : nat) : Z :=
  Z.shiftr (to_s32 (to_s32 (to_u32 (Z.of_nat value)) + dither_matrix_at i j)) 3.

(** [(d < 0) ? 0 : ((d > 31) ? 31 : d)], converted to [u8]. *)
Definition dither_clamp (d : Z) : Z :=
  to_u8 (if d <? 0 then 0 else if d >? 31 then 31 else d).

(** The body of the innermost loop. *)
Definition dither_lut_entry (i j value : nat) (lut : DitherLUT) : DitherLUT :=
  lut_store lut i j value (dither_clamp (dithered_value i j value)).

(** The [constexpr] lambda initialising [g_dither_lut]. *)
Definition g_dither_lut : DitherLUT :=
  for_u32 DITHER_MATRIX_SIZE (λ i,
    for_u32 DITHER_MATRIX_SIZE (λ j,
      for_u32 DITHER_LUT_SIZE (λ value, dither_lut_entry i j value)))
    dither_lut_zero.

(** The table's matrix entries are [s32] values and adding any index of the
    table to them stays inside [s32]: the initialiser is a constant
    expression, in which a signed overflow is not allowed. *)
Definition dither_sum_in_s32 : Prop :=
  Z.of_nat DITHER_LUT_SIZE ≤ 2 ^ 31 ∧
  ∀ i j, (i < DITHER_MATRIX_SIZE)%nat → (j < DITHER_MATRIX_SIZE)%nat →
    - 2 ^ 31 ≤ dither_matrix_at i j ∧
    dither_matrix_at i j + Z.of_nat DITHER_LUT_SIZE ≤ 2 ^ 31.

End DitherTable.

(** Saturation of an integer to the five-bit range [[0, 31]]. *)
Definition saturate_5bit (d : Z) : Z := Z.max 0 (Z.min 31 d).

(** The PlayStation GPU's ordered-dither pattern, used to instantiate the
    parameters above. *)
Definition psx_dither_matrix : list (list Z) :=
  [ [-4; 0; -3; 1]; [2; -2; 3; -1]; [-3; 1; -4; 0]; [3; -1; 2; -2] ].

(* --------------------------------------------------------------------- *)
(** ** gpu/d3d11_texture.cpp: the DXGI format table                       *)
(* --------------------------------------------------------------------- *)

(** [DXGI_FORMAT] is the enumeration of the platform header dxgiformat.h;
    a value is its underlying integer, and [==] compares those. *)
Definition DXGI_FORMAT_UNKNOWN : Z := 0.
Definition DXGI_FORMAT_R8G8B8A8_UNORM : Z := 28.
Definition DXGI_FORMAT_D16_UNORM : Z := 55.
Definition DXGI_FORMAT_R8_UNORM : Z := 61.
Definition DXGI_FORMAT_B5G6R5_UNORM : Z := 85.
Definition DXGI_FORMAT_B5G5R5A1_UNORM : Z := 86.
Definition DXGI_FORMAT_B8G8R8A8_UNORM : Z := 87.

(** The seven initialisers written in the source for [s_dxgi_mapping]. *)
Definition s_dxgi_mapping_init : list Z :=
  [ DXGI_FORMAT_UNKNOWN; DXGI_FORMAT_R8G8B8A8_UNORM;
    DXGI_FORMAT_B8G8R8A8_UNORM; DXGI_FORMAT_B5G6R5_UNORM;
    DXGI_FORMAT_B5G5R5A1_UNORM; DXGI_FORMAT_R8_UNORM; DXGI_FORMAT_D16_UNORM ].

Section D3D11Texture.

(** [GPUTexture::Format] is an enumeration over [u8] declared in
    the header gpu_texture.h, which is not embedded here. A format is its
    underlying value; the value of the enumerator [Count], which sizes the
    table, and that of [Unknown] are parameters. *)
Variable Format_Count : nat.
Variable Format_Unknown : nat.

(** [std::array<DXGI_FORMAT, Count>] with seven initialisers: the elements
    after them, if any, are value-initialised. *)
Definition s_dxgi_mapping : list Z :=
  s_dxgi_mapping_init ++
  replicate (Format_Count - length s_dxgi_mapping_init) 0.

(** [s_dxgi_mapping[static_cast<u8>(format)]]; [None] is an index outside
    the array. *)
Definition GetDXGIFormat (format : nat) : option Z :=
  s_dxgi_mapping !! format.

(** The loop of [LookupBaseFormat], from index [i] on over the remaining
    elements: the index of the first element equal to [dformat]. *)
Fixpoint LookupBaseFormat_from (rest : list Z) (i : nat) (dformat : Z)
    : option nat :=
  match rest with
  | [] => None
  | entry :: rest' =>
      if entry =? dformat then Some i
      else LookupBaseFormat_from rest' (S i) dformat
  end.

Definition LookupBaseFormat (dformat : Z) : nat :=
  match LookupBaseFormat_from s_dxgi_mapping 0 dformat with
  | Some i => i
  | None => Format_Unknown
  end.

End D3D11Texture.

(* --------------------------------------------------------------------- *)
(** ** gpu_sw_rasterizer.cpp: selection of the implementation             *)
(* --------------------------------------------------------------------- *)

(** The namespaces that each provide the three function tables: the default
    one ([GPU_SW_Rasterizer]) and the alternatives [AVX2] and [SSE4]. *)
Inductive Implementation : Type := Default | AVX2 | SSE4.

Global Instance Implementation_eq_dec : EqDecision Implementation.
Proof. solve_decision. Defined.

(** The text [#isa] of the macro argument. *)
Definition isa_name (isa : Implementation) : string :=
  match isa with
  | Default => "default"
  | AVX2 => "AVX2"
  | SSE4 => "SSE4"
  end.

Inductive LogLine : Type :=
  | Log_InfoPrint (msg : string)
  | Log_ErrorPrint (msg : string).

(** The globals of the translation unit. A table pointer is identified by
    the namespace whose table it addresses: [&isa::DrawRectangleFunctions]
    is [isa] in the field [SelectedDrawRectangleFunctions]. [selected] is
    the function-local [static bool]; [log] is what has been printed. *)
Record Rasterizer : Type := mkRasterizer {
  selected : bool;
  SelectedDrawRectangleFunctions : Implementation;
  SelectedDrawTriangleFunctions : Implementation;
  SelectedDrawLineFunctions : Implementation;
  log : list LogLine
}.

(** The state after static initialisation. *)
Definition initial_rasterizer : Rasterizer :=
  {| selected := false;
     SelectedDrawRectangleFunctions := Default;
     SelectedDrawTriangleFunctions := Default;
     SelectedDrawLineFunctions := Default;
     log := [] |}.

Definition set_selected (b : bool) (s : Rasterizer) : Rasterizer :=
  {| selected := b;
     SelectedDrawRectangleFunctions := SelectedDrawRectangleFunctions s;
     SelectedDrawTriangleFunctions := SelectedDrawTriangleFunctions s;
     SelectedDrawLineFunctions := SelectedDrawLineFunctions s;
     log := log s |}.

Definition set_rectangle (isa : Implementation) (s : Rasterizer) : Rasterizer :=
  {| selected := selected s;
     SelectedDrawRectangleFunctions := isa;
     SelectedDrawTriangleFunctions := SelectedDrawTriangleFunctions s;
     SelectedDrawLineFunctions := SelectedDrawLineFunctions s;
     log := log s |}.

Definition set_triangle (isa : Implementation) (s : Rasterizer) : Rasterizer :=
  {| selected := selected s;
     SelectedDrawRectangleFunctions := SelectedDrawRectangleFunctions s;
     SelectedDrawTriangleFunctions := isa;
     SelectedDrawLineFunctions := SelectedDrawLineFunctions s;
     log := log s |}.

Definition set_line (isa : Implementation) (s : Rasterizer) : Rasterizer :=
  {| selected := selected s;
     SelectedDrawRectangleFunctions := SelectedDrawRectangleFunctions s;
     SelectedDrawTriangleFunctions := SelectedDrawTriangleFunctions s;
     SelectedDrawLineFunctions := isa;
     log := log s |}.

Definition print (l : LogLine) (s : Rasterizer) : Rasterizer :=
  {| selected := selected s;
     SelectedDrawRectangleFunctions := SelectedDrawRectangleFunctions s;
     SelectedDrawTriangleFunctions := SelectedDrawTriangleFunctions s;
     SelectedDrawLineFunctions := SelectedDrawLineFunctions s;
     log := log s ++ [l] |}.

(** What the function reads from outside the translation unit: whether the
    build defines [CPU_ARCH_SSE], the value of [std::getenv("SW_USE_ISA")]
    ([None] is the null pointer) and the answers of cpuinfo. *)
Record Platform : Type := mkPlatform {
  CPU_ARCH_SSE : bool;
  getenv_SW_USE_ISA : option string;
  cpuinfo_initialize : bool;
  cpuinfo_has_x86_avx2 : bool;
  cpuinfo_has_x86_sse4_1 : bool
}.

Definition ascii_tolower (c : ascii) : ascii :=
  let n := nat_of_ascii c in
  if ((65 <=? n) && (n <=? 90))%nat then ascii_of_nat (n + 32) else c.

(** Modelled from the spec: [StringUtil::Strcasecmp] is declared in
    common/string_util.h and defined outside the three files embedded here.
    The spec
    asks for a "case-insensitive match" of the override against the names of
    the variants; the model is the C library's comparison of the two strings
    character by character after lowering ASCII letters, zero when they
    agree. *)
Fixpoint Strcasecmp (a b : string) : Z :=
  match a, b with
  | EmptyString, EmptyString => 0
  | EmptyString, String d _ => - Z.of_nat (nat_of_ascii (ascii_tolower d))
  | String c _, EmptyString => Z.of_nat (nat_of_ascii (ascii_tolower c))
  | String c a', String d b' =>
      if decide (ascii_tolower c = ascii_tolower d) then Strcasecmp a' b'
      else Z.of_nat (nat_of_ascii (ascii_tolower c)) -
           Z.of_nat (nat_of_ascii (ascii_tolower d))
  end.

(** [(!use_isa || StringUtil::Strcasecmp(use_isa, name) == 0)] *)
Definition isa_allowed (use_isa : option string) (name : string) : bool :=
  match use_isa with
  | None => true
  | Some s => Strcasecmp s name =? 0
  end.

(** The macro [SELECT_ALTERNATIVE_RASTERIZER(isa)]. *)
Definition SELECT_ALTERNATIVE_RASTERIZER (isa : Implementation)
    (s : Rasterizer) : Rasterizer :=
  let s := print (Log_InfoPrint
             ("* Using " ++ isa_name isa ++
              " software rasterizer implementation.")) s in
  let s := set_rectangle isa s in
  let s := set_triangle isa s in
  set_line isa s.

Definition log_default (s : Rasterizer) : Rasterizer :=
  print (Log_InfoPrint "* Using default software rasterizer implementation.") s.

(** [void GPU_SW_Rasterizer::SelectImplementation()] *)
Definition SelectImplementation (p : Platform) (s : Rasterizer) : Rasterizer :=
  if selected s then s
  else
    let s := set_selected true s in
    if CPU_ARCH_SSE p then
      let use_isa := getenv_SW_USE_ISA p in
      if negb (cpuinfo_initialize p) then
        print (Log_ErrorPrint
                 "cpuinfo_initialize() failed, using default implementation") s
      else if cpuinfo_has_x86_avx2 p && isa_allowed use_isa "AVX2" then
        SELECT_ALTERNATIVE_RASTERIZER AVX2 s
      else if cpuinfo_has_x86_sse4_1 p && isa_allowed use_isa "SSE4" then
        SELECT_ALTERNATIVE_RASTERIZER SSE4 s
      else log_default s
    else log_default s.

(** The variant the three pointers address, when it is one and the same. *)
Definition tables_of (isa : Implementation) (s : Rasterizer) : Prop :=
  SelectedDrawRectangleFunctions s = isa ∧
  SelectedDrawTriangleFunctions s = isa ∧
  SelectedDrawLineFunctions s = isa.

(** The highest tier among the variants the processor supports. *)
Definition best_available (p : Platform) : Implementation :=
  if cpuinfo_has_x86_avx2 p then AVX2
  else if cpuinfo_has_x86_sse4_1 p then SSE4
  else Default.

(** Whether the processor supports a variant. *)
Definition supported (p : Platform) (isa : Implementation) : bool :=
  match isa with
  | Default => true
  | AVX2 => cpuinfo_has_x86_avx2 p
  | SSE4 => cpuinfo_has_x86_sse4_1 p
  end.

(** Two strings that agree once ASCII letters are lowered. *)
Fixpoint string_tolower (s : string) : string :=
  match s with
  | EmptyString => EmptyString
  | String c s' => String (ascii_tolower c) (string_tolower s')
  end.

Definition same_ignoring_case (a b : string) : Prop :=
  string_tolower a = string_tolower b.

(** The alternative variant an override names, if any. *)
Definition names (use_isa : string) (isa : Implementation) : Prop :=
  isa ≠ Default ∧ same_ignoring_case use_isa (isa_name isa).

(** A string that can be a C string: no character of it is NUL. *)
Fixpoint c_string (s : string) : Prop :=
  match s with
  | EmptyString => True
  | String c s' => nat_of_ascii c ≠ 0%nat ∧ c_string s'
  end.

(** A platform on which AVX2 is missing, SSE4.1 is present and the override
    asks for AVX2. *)
Definition sse4_only_asked_avx2 : Platform :=
  {| CPU_ARCH_SSE := true;
     getenv_SW_USE_ISA := Some "AVX2";
     cpuinfo_initialize := true;
     cpuinfo_has_x86_avx2 := false;
     cpuinfo_has_x86_sse4_1 := true |}.

(** A platform with both extensions and an override in lower case. *)
Definition avx2_asked_sse4_lowercase : Platform :=
  {| CPU_ARCH_SSE := true;
     getenv_SW_USE_ISA := Some "sse4";
     cpuinfo_initialize := true;
     cpuinfo_has_x86_avx2 := true;
     cpuinfo_has_x86_sse4_1 := true |}.

(** A platform on which cpuinfo cannot be initialised. *)
Definition cpuinfo_unavailable : Platform :=
  {| CPU_ARCH_SSE := true;
     getenv_SW_USE_ISA := None;
     cpuinfo_initialize := false;
     cpuinfo_has_x86_avx2 := true;
     cpuinfo_has_x86_sse4_1 := true |}.

(* --------------------------------------------------------------------- *)
(** ** SelectImplementation, statement by statement                       *)
(* --------------------------------------------------------------------- *)

(** The point a call of [SelectImplementation] has reached. The accesses to
    the globals are one step each, in the order the source performs them:
    the test of [selected], the store to it, the probing, and, inside the
    macro, the print and the three pointer stores. *)
Inductive Point : Type :=
  | AtCheck
  | AtSetSelected
  | AtProbe
  | AtUsing (isa : Implementation)
  | AtRectangle (isa : Implementation)
  | AtTriangle (isa : Implementation)
  | AtLine (isa : Implementation)
  | AtDefault
  | Returned.

(** One statement of a call: the point it moves to and the globals after
    it; [None] once the call has returned. *)
Definition call_step (p : Platform) (pt : Point) (s : Rasterizer)
    : option (Point * Rasterizer) :=
  match pt with
  | AtCheck => Some (if selected s then Returned else AtSetSelected, s)
  | AtSetSelected => Some (AtProbe, set_selected true s)
  | AtProbe =>
      if CPU_ARCH_SSE p then
        let use_isa := getenv_SW_USE_ISA p in
        if negb (cpuinfo_initialize p) then
          Some (Returned,
                print (Log_ErrorPrint
                  "cpuinfo_initialize() failed, using default implementation")
                  s)
        else if cpuinfo_has_x86_avx2 p && isa_allowed use_isa "AVX2" then
          Some (AtUsing AVX2, s)
        else if cpuinfo_has_x86_sse4_1 p && isa_allowed use_isa "SSE4" then
          Some (AtUsing SSE4, s)
        else Some (AtDefault, s)
      else Some (AtDefault, s)
  | AtUsing isa =>
      Some (AtRectangle isa,
            print (Log_InfoPrint
                     ("* Using " ++ isa_name isa ++
                      " software rasterizer implementation.")) s)
  | AtRectangle isa => Some (AtTriangle isa, set_rectangle isa s)
  | AtTriangle isa => Some (AtLine isa, set_triangle isa s)
  | AtLine isa => Some (Returned, set_line isa s)
  | AtDefault => Some (Returned, log_default s)
  | Returned => None
  end.

(** A call run for [k] statements on its own. *)
Fixpoint run_call (p : Platform) (k : nat) (pt : Point) (s : Rasterizer)
    : Point * Rasterizer :=
  match k with
  | O => (pt, s)
  | S k' =>
      match call_step p pt s with
      | Some (pt', s') => run_call p k' pt' s'
      | None => (pt, s)
      end
  end.

(** Several calls in flight, one per thread, over the same globals. There is
    no lock and no atomic in the source: any thread that has not returned
    may perform its next statement. *)
Definition Threads : Type := list Point * Rasterizer.

Definition thread_step (p : Platform) (i : nat) (c : Threads) : Threads :=
  match c.1 !! i with
  | Some pt =>
      match call_step p pt c.2 with
      | Some (pt', s') => (<[i := pt']> c.1, s')
      | None => c
      end
  | None => c
  end.

(** The threads named by a schedule take one step each, in its order. *)
Definition run_schedule (p : Platform) (schedule : list nat) (c : Threads)
    : Threads :=
  foldl (λ c i, thread_step p i c) c schedule.

(** The longest path through the function has seven statements. *)
Definition call_length : nat := 7.

(** The schedule in which [n] calls follow one another without
    overlapping. *)
Definition one_after_another (n : nat) : list nat :=
  flat_map (λ i, replicate call_length i) (seq 0 n).

(** The calls that went past the test of [selected] and performed a
    selection: each of them prints exactly one line. *)
Definition selections_performed (s : Rasterizer) : nat := length (log s).

(** Two threads are on conflicting accesses to the plain [bool selected]
    when both are about to access it and one of them stores to it. *)
Definition accesses_selected (pt : Point) : bool :=
  match pt with AtCheck | AtSetSelected => true | _ => false end.

Definition stores_selected (pt : Point) : bool :=
  match pt with AtSetSelected => true | _ => false end.

Definition conflict_on_selected (c : Threads) : Prop :=
  ∃ i j pi pj, i ≠ j ∧ c.1 !! i = Some pi ∧ c.1 !! j = Some pj ∧
    stores_selected pi = true ∧ accesses_selected pj = true.

(** A platform with AVX2 and no override. *)
Definition avx2_no_override : Platform :=
  {| CPU_ARCH_SSE := true;
     getenv_SW_USE_ISA := None;
     cpuinfo_initialize := true;
     cpuinfo_has_x86_avx2 := true;
     cpuinfo_has_x86_sse4_1 := true |}.

(* --------------------------------------------------------------------- *)
(** ** host.cpp: the translation string cache                             *)
(* --------------------------------------------------------------------- *)

(** What stops a call instead of a return: an index outside a vector, or
    [Panic]. *)
Inductive Fault : Type := OutOfBounds | Panicked.

Definition Outcome (A : Type) : Type := Fault + A.

Definition ok {A : Type} (a : A) : Outcome A := inr a.
Definition fault {A : Type} (f : Fault) : Outcome A := inl f.

Definition bind_outcome {A B : Type} (k : A → Outcome B) (m : Outcome A)
    : Outcome B :=
  match m with
  | inl f => inl f
  | inr a => k a
  end.

Global Instance Outcome_bind : MBind Outcome := @bind_outcome.
Global Instance Outcome_ret : MRet Outcome := @ok.

Definition TRANSLATION_STRING_CACHE_SIZE : Z := 4 * 1024 * 1024.

Definition NUL : ascii := Ascii.zero.

(** The globals: [s_translation_string_map] (context, then message, to the
    position and the length of the translation in the cache),
    [s_translation_string_cache] and [s_translation_string_cache_pos]. *)
Record Translations : Type := mkTranslations {
  s_translation_string_map : gmap string (gmap string (Z * Z));
  s_translation_string_cache : list ascii;
  s_translation_string_cache_pos : Z
}.

(** The state after static initialisation: an empty map, an empty vector and
    a zero position. *)
Definition initial_translations : Translations :=
  {| s_translation_string_map := ∅;
     s_translation_string_cache := [];
     s_translation_string_cache_pos := 0 |}.

(** [&v[i]]: the address of element [i] of a vector is its index, and exists
    for the elements the vector has. *)
Definition element_address (v : list ascii) (i : Z) : Outcome Z :=
  if decide (0 ≤ i < Z.of_nat (length v)) then ok i else fault OutOfBounds.

(** [v[i] = c]. *)
Definition element_store (v : list ascii) (i : Z) (c : ascii)
    : Outcome (list ascii) :=
  if decide (0 ≤ i < Z.of_nat (length v)) then ok (<[Z.to_nat i := c]> v)
  else fault OutOfBounds.

Section TranslationCache.

(** [Host::Internal::GetTranslatedStringImpl(context, msg, tbuf, tbuf_space)]
    is implemented by the frontend: for a context, a message and the space
    left it answers the [s32] it returns and the characters it has put at
    [tbuf]. *)
Variable GetTranslatedStringImpl : string → string → Z → Z * list ascii.

(** The call of it on the cache at the current position. *)
Definition translate_into_cache (context msg : string) (t : Translations)
    : Outcome (Z * Translations) :=
  let pos := s_translation_string_cache_pos t in
  tbuf ← element_address (s_translation_string_cache t) pos;
  let '(len, chars) :=
    GetTranslatedStringImpl context msg
      (to_u32 (TRANSLATION_STRING_CACHE_SIZE - 1 - pos)) in
  ok (len,
      {| s_translation_string_map := s_translation_string_map t;
         s_translation_string_cache :=
           list_inserts (Z.to_nat tbuf) chars (s_translation_string_cache t);
         s_translation_string_cache_pos := pos |}).

(** The part of the function after the label [add_string]. *)
Definition add_string (context msg : string) (t : Translations)
    : Outcome ((Z * Z) * Translations) :=
  let t :=
    match s_translation_string_cache t with
    | [] =>
        {| s_translation_string_map := s_translation_string_map t;
           s_translation_string_cache :=
             <[0%nat := NUL]>
               (replicate (Z.to_nat TRANSLATION_STRING_CACHE_SIZE) NUL);
           s_translation_string_cache_pos := 0 |}
    | _ => t
    end in
  '(len, t) ← translate_into_cache context msg t;
  '(len, t) ←
    (if len <? 0 then
       let t := {| s_translation_string_map := s_translation_string_map t;
                   s_translation_string_cache := s_translation_string_cache t;
                   s_translation_string_cache_pos := 0 |} in
       '(len, t) ← translate_into_cache context msg t;
       if len <? 0 then fault Panicked else ok (len, t)
     else ok (len, t));
  let ctx_map := default ∅ (s_translation_string_map t !! context) in
  let insert_pos := s_translation_string_cache_pos t in
  cache ← element_store (s_translation_string_cache t)
                (to_u32 (insert_pos + to_u32 len)) NUL;
  let ctx_map :=
    match ctx_map !! msg with
    | Some _ => ctx_map
    | None => <[msg := (insert_pos, to_u32 len)]> ctx_map
    end in
  first ← element_address cache insert_pos;
  ok ((first, to_u32 len),
      {| s_translation_string_map :=
           <[context := ctx_map]> (s_translation_string_map t);
         s_translation_string_cache := cache;
         s_translation_string_cache_pos :=
           to_u32 (to_u32 (insert_pos + to_u32 len) + 1) |}).

(** [Host::LookupTranslationString]: the pair returned, its first component
    being the index of the cache the pointer addresses, and the globals
    after the call. *)
Definition LookupTranslationString (context msg : string) (t : Translations)
    : Outcome ((Z * Z) * Translations) :=
  if decide (msg = EmptyString) then
    first ← element_address (s_translation_string_cache t) 0;
    ok ((first, 0), t)
  else
    match s_translation_string_map t !! context with
    | None => add_string context msg t
    | Some ctx_map =>
        match ctx_map !! msg with
        | None => add_string context msg t
        | Some (first, second) =>
            first ← element_address (s_translation_string_cache t) first;
            ok ((first, second), t)
        end
    end.

End TranslationCache.

(** [Host::ClearTranslationCache] *)
Definition ClearTranslationCache (t : Translations) : Translations :=
  {| s_translation_string_map := ∅;
     s_translation_string_cache := s_translation_string_cache t;
     s_translation_string_cache_pos := 0 |}.

(* --------------------------------------------------------------------- *)
(** ** The primitive routines                                             *)
(* --------------------------------------------------------------------- *)

(** The routines themselves are in gpu_sw_rasterizer.inl, which
    gpu_sw_rasterizer.cpp includes once per variant; the .cpp file itself
    only defines [g_drawing_area]. What follows is written from the
    specification of the routines. *)

(** Modelled from the spec: the type of [g_drawing_area], whose declaration
    (common/rectangle.h) is missing; the DrawingArea, "an axis-aligned rectangle
    (min/max x, min/max y) in framebuffer coordinate space"; the source
    declares it as [Common::Rectangle<u32> g_drawing_area]. Both bounds
    belong to the area. *)
Record DrawingArea : Type := mkDrawingArea {
  min_x : Z; min_y : Z; max_x : Z; max_y : Z
}.

(** Modelled from the spec: a framebuffer pixel, a colour and the one-bit
    "mask" flag used "for selective overwrite protection". *)
Record Pixel : Type := mkPixel { colour : Z; mask_bit : bool }.

(** Modelled from the spec: the Backend/Framebuffer, "the destination pixel
    store the core writes into, owned and sized by the external GPU
    emulation core". *)
Record Framebuffer : Type := mkFramebuffer {
  fb_width : Z;
  fb_height : Z;
  fb_pixels : gmap (Z * Z) Pixel
}.

Definition in_area (da : DrawingArea) (x y : Z) : Prop :=
  min_x da ≤ x ≤ max_x da ∧ min_y da ≤ y ≤ max_y da.

Definition in_framebuffer (fb : Framebuffer) (x y : Z) : Prop :=
  0 ≤ x < fb_width fb ∧ 0 ≤ y < fb_height fb.

Global Instance in_area_dec da x y : Decision (in_area da x y).
Proof. unfold in_area. apply _. Defined.

Global Instance in_framebuffer_dec fb x y : Decision (in_framebuffer fb x y).
Proof. unfold in_framebuffer. apply _. Defined.

(** The content of the framebuffer at a coordinate. *)
Definition pixel_at (fb : Framebuffer) (x y : Z) : Pixel :=
  default (mkPixel 0 false) (fb_pixels fb !! (x, y)).

(** Reading and writing one pixel; an address outside the framebuffer is a
    fault. *)
Definition read_pixel (fb : Framebuffer) (x y : Z) : Outcome Pixel :=
  if decide (in_framebuffer fb x y) then ok (pixel_at fb x y)
  else fault OutOfBounds.

Definition write_pixel (fb : Framebuffer) (x y : Z) (px : Pixel)
    : Outcome Framebuffer :=
  if decide (in_framebuffer fb x y)
  then ok {| fb_width := fb_width fb; fb_height := fb_height fb;
             fb_pixels := <[(x, y) := px]> (fb_pixels fb) |}
  else fault OutOfBounds.

(** Modelled from the spec: the shading-mode flags of the external
    interface, "textured, raw-texture, semi-transparent, dithering-enabled,
    mask-bit-check/-set". *)
Record Flags : Type := mkFlags {
  textured : bool;
  raw_texture : bool;
  semi_transparent : bool;
  dithering : bool;
  mask_check : bool;
  mask_set : bool
}.

(** A draw in progress: the framebuffer and the coordinates written so far,
    latest first. *)
Record Canvas : Type := mkCanvas {
  framebuffer : Framebuffer;
  written : list (Z * Z)
}.

(** [for] loops whose body may fault. *)
Definition for_each {S : Type} (n : nat) (body : nat → S → Outcome S) (s : S)
    : Outcome S :=
  foldl (λ acc i, acc ≫= body i) (ok s) (seq 0 n).

(** Modelled from the spec: a Vertex, "screen-space integer position" and
    "RGB color". *)
Record Vertex : Type := mkVertex { vx : Z; vy : Z; vcolour : Z }.

(** Modelled from the spec: a primitive is "one of {Rectangle, Triangle,
    Line}". *)
Inductive Primitive : Type :=
  | Rectangle (origin_x origin_y : Z) (width height : nat) (c : Z)
  | Triangle (v0 v1 v2 : Vertex)
  | Line (v0 v1 : Vertex).

Section Primitives.

(** The texture sampling with its colour key, the blend equations and the
    dither are "hardware-specific constants that must be sourced from the
    target hardware": they are parameters. [sample] answers the colour of
    the source texel for a pixel, [None] when the colour key rejects it. *)
Variable sample : Flags → Z → Z → Z → option Z.
Variable blend : Z → Z → Z.
Variable dither : Z → Z → Z → Z.

(** Modelled from the spec: the per-pixel routine of gpu_sw_rasterizer.inl,
    which is missing; the pipeline of 4.2, "optionally
    samples a texture (with optional palette lookup and color-key/mask-bit
    test), optionally blends with the existing framebuffer pixel, optionally
    applies dithering from the Dither Table, then writes the pixel and a
    1-bit mask/flag unless masked by existing content". *)
Definition ShadePixel (f : Flags) (x y : Z) (c : Z) (cv : Canvas)
    : Outcome Canvas :=
  match (if textured f then sample f x y c else Some c) with
  | None => ok cv
  | Some src =>
      existing ← read_pixel (framebuffer cv) x y;
      if mask_check f && mask_bit existing then ok cv
      else
        let c1 := if semi_transparent f then blend (colour existing) src
                  else src in
        let c2 := if dithering f then dither x y c1 else c1 in
        fb ← write_pixel (framebuffer cv) x y (mkPixel c2 (mask_set f));
        ok {| framebuffer := fb; written := (x, y) :: written cv |}
  end.

(** Whether the pipeline lets the pixel through, on a given framebuffer:
    the colour key keeps the texel and the existing content does not mask
    the pixel. *)
Definition accepted (f : Flags) (fb : Framebuffer) (x y : Z) (c : Z) : bool :=
  match (if textured f then sample f x y c else Some c) with
  | None => false
  | Some _ => negb (mask_check f && mask_bit (pixel_at fb x y))
  end.

(** Modelled from the spec: the clip of gpu_sw_rasterizer.inl, which is
    missing; "no rasterization call writes outside DrawingArea ∩ framebuffer
    bounds" and "clipping is computed before any write": a pixel of a
    primitive is shaded when the DrawingArea and the framebuffer both hold
    it, and skipped otherwise. *)
Definition clip_and_shade (da : DrawingArea) (f : Flags) (x y : Z) (c : Z)
    (cv : Canvas) : Outcome Canvas :=
  if decide (in_area da x y ∧ in_framebuffer (framebuffer cv) x y)
  then ShadePixel f x y c cv
  else ok cv.

(** Modelled from the spec: the rectangle routine of gpu_sw_rasterizer.inl,
    which is missing; Rectangle, "fills an axis-aligned pixel
    rectangle clipped to DrawingArea", given as "origin, size, color". *)
Definition DrawRectangle (da : DrawingArea) (f : Flags)
    (origin_x origin_y : Z) (width height : nat) (c : Z) (cv : Canvas)
    : Outcome Canvas :=
  for_each height (λ offset_y,
    for_each width (λ offset_x,
      clip_and_shade da f (origin_x + Z.of_nat offset_x)
        (origin_y + Z.of_nat offset_y) c)) cv.

(** The pixels of a rectangle. *)
Definition in_rectangle (origin_x origin_y : Z) (width height : nat)
    (x y : Z) : Prop :=
  origin_x ≤ x < origin_x + Z.of_nat width ∧
  origin_y ≤ y < origin_y + Z.of_nat height.

(** Modelled from the spec: the edge function, "a signed-area test
    determining which side of a triangle edge a point lies on". *)
Definition edge_function (a b : Vertex) (x y : Z) : Z :=
  (vx b - vx a) * (y - vy a) - (vy b - vy a) * (x - vx a).

(** The rule for pixels exactly on an edge and the interpolation of the
    colour are left open by the spec: they are parameters, as is the
    maximum size of a primitive. *)
Variable on_edge : Vertex → Vertex → bool.
Variable interpolate : Z → Z → Z → Vertex → Vertex → Vertex → Z.
Variable MAX_PRIMITIVE_SIZE : Z.

(** A pixel is on the inner side of the edge from [a] to [b] of a triangle
    of signed area [area] when its edge function has the sign of the area;
    a pixel exactly on the edge follows the rule of that edge. *)
Definition inside_edge (area : Z) (a b : Vertex) (x y : Z) : bool :=
  let w := Z.sgn area * edge_function a b x y in
  (0 <? w) || ((w =? 0) && on_edge a b).

Definition side_too_long (a b : Vertex) : bool :=
  (MAX_PRIMITIVE_SIZE <? Z.abs (vx b - vx a)) ||
  (MAX_PRIMITIVE_SIZE <? Z.abs (vy b - vy a)).

(** Modelled from the spec: the triangle routine of gpu_sw_rasterizer.inl,
    which is missing; Triangle, "scan-converts using edge functions
    over the triangle's bounding box intersected with DrawingArea", rejects
    "pixels outside the triangle" and rejects "degenerate triangles (zero
    signed area, or any side exceeding a maximum primitive size) without
    drawing anything". *)
Definition DrawTriangle (da : DrawingArea) (f : Flags) (v0 v1 v2 : Vertex)
    (cv : Canvas) : Outcome Canvas :=
  let area := edge_function v0 v1 (vx v2) (vy v2) in
  if (area =? 0) ||
     side_too_long v0 v1 || side_too_long v1 v2 || side_too_long v2 v0
  then ok cv
  else
    let x_lo := Z.max (Z.min (vx v0) (Z.min (vx v1) (vx v2))) (min_x da) in
    let x_hi := Z.min (Z.max (vx v0) (Z.max (vx v1) (vx v2))) (max_x da) in
    let y_lo := Z.max (Z.min (vy v0) (Z.min (vy v1) (vy v2))) (min_y da) in
    let y_hi := Z.min (Z.max (vy v0) (Z.max (vy v1) (vy v2))) (max_y da) in
    for_each (Z.to_nat (y_hi - y_lo + 1)) (λ j,
      for_each (Z.to_nat (x_hi - x_lo + 1)) (λ i,
        let x := x_lo + Z.of_nat i in
        let y := y_lo + Z.of_nat j in
        let w0 := edge_function v1 v2 x y in
        let w1 := edge_function v2 v0 x y in
        let w2 := edge_function v0 v1 x y in
        if inside_edge area v1 v2 x y && inside_edge area v2 v0 x y &&
           inside_edge area v0 v1 x y
        then clip_and_shade da f x y (interpolate w0 w1 w2 v0 v1 v2)
        else ok)) cv.

(** Modelled from the spec: the line routine of gpu_sw_rasterizer.inl, which
    is missing; Line, "a Bresenham-style integer stepper between
    two endpoints with interpolated color; no texturing"; a zero-length line
    draws its single pixel. [steps] bounds the pixels still to visit. *)
Fixpoint line_steps (da : DrawingArea) (f : Flags) (v0 v1 : Vertex)
    (steps : nat) (x y err : Z) (cv : Canvas) : Outcome Canvas :=
  match steps with
  | O => ok cv
  | S steps' =>
      let adx := Z.abs (vx v1 - vx v0) in
      let ady := Z.abs (vy v1 - vy v0) in
      cv ← clip_and_shade da f x y
              (interpolate (x - vx v0) (y - vy v0) 0 v0 v1 v1) cv;
      if (x =? vx v1) && (y =? vy v1) then ok cv
      else
        let e2 := 2 * err in
        let step_x := - ady <=? e2 in
        let step_y := e2 <=? adx in
        line_steps da f v0 v1 steps'
          (if step_x then x + Z.sgn (vx v1 - vx v0) else x)
          (if step_y then y + Z.sgn (vy v1 - vy v0) else y)
          ((if step_x then err - ady else err) +
           (if step_y then adx else 0))
          cv
  end.

Definition untextured (f : Flags) : Flags :=
  {| textured := false; raw_texture := false;
     semi_transparent := semi_transparent f; dithering := dithering f;
     mask_check := mask_check f; mask_set := mask_set f |}.

Definition DrawLine (da : DrawingArea) (f : Flags) (v0 v1 : Vertex)
    (cv : Canvas) : Outcome Canvas :=
  let adx := Z.abs (vx v1 - vx v0) in
  let ady := Z.abs (vy v1 - vy v0) in
  line_steps da (untextured f) v0 v1 (Z.to_nat (adx + ady + 1))
    (vx v0) (vy v0) (adx - ady) cv.

(** The part of a rectangle visited when [rows] rows and [columns] pixels of
    the next row have been gone through. *)
Definition rectangle_visited (origin_x origin_y : Z) (width : nat)
    (rows columns : nat) (x y : Z) : Prop :=
  origin_x ≤ x < origin_x + Z.of_nat width ∧ origin_y ≤ y ∧
  (y < origin_y + Z.of_nat rows ∨
   (y = origin_y + Z.of_nat rows ∧ x < origin_x + Z.of_nat columns)).

(** What holds of a canvas during a draw started on [cv0] for colour [c],
    once the pixels of [visited] have been gone through: the framebuffer has
    kept its size, the pixels written since the start are the visited ones
    that lie in the DrawingArea and in the framebuffer and that the pipeline
    accepted on the content at the start, and the other pixels but the
    visited ones of the DrawingArea and the framebuffer have kept their
    content. *)
Definition drawn_exactly (da : DrawingArea) (f : Flags) (c : Z)
    (cv0 : Canvas) (visited : Z → Z → Prop) (cv : Canvas) : Prop :=
  fb_width (framebuffer cv) = fb_width (framebuffer cv0) ∧
  fb_height (framebuffer cv) = fb_height (framebuffer cv0) ∧
  (∀ x y, (x, y) ∈ written cv ↔
          (x, y) ∈ written cv0 ∨
          (visited x y ∧ in_area da x y ∧
           in_framebuffer (framebuffer cv0) x y ∧
           accepted f (framebuffer cv0) x y c = true)) ∧
  (∀ x y, ¬ (visited x y ∧ in_area da x y ∧
             in_framebuffer (framebuffer cv0) x y) →
          fb_pixels (framebuffer cv) !! (x, y) =
          fb_pixels (framebuffer cv0) !! (x, y)).

(** What holds of a canvas during any draw started on [cv0]: the
    framebuffer has kept its size, every pixel written since the start lies
    in the DrawingArea and in the framebuffer, and the content outside
    their intersection is the one at the start. *)
Definition drawn_inside (da : DrawingArea) (cv0 cv : Canvas) : Prop :=
  fb_width (framebuffer cv) = fb_width (framebuffer cv0) ∧
  fb_height (framebuffer cv) = fb_height (framebuffer cv0) ∧
  (∀ x y, (x, y) ∈ written cv →
          (x, y) ∈ written cv0 ∨
          (in_area da x y ∧ in_framebuffer (framebuffer cv0) x y)) ∧
  (∀ x y, ¬ (in_area da x y ∧ in_framebuffer (framebuffer cv0) x y) →
          fb_pixels (framebuffer cv) !! (x, y) =
          fb_pixels (framebuffer cv0) !! (x, y)).

(** A rasterization call. *)
Definition Draw (da : DrawingArea) (f : Flags) (prim : Primitive)
    (cv : Canvas) : Outcome Canvas :=
  match prim with
  | Rectangle origin_x origin_y width height c =>
      DrawRectangle da f origin_x origin_y width height c cv
  | Triangle v0 v1 v2 => DrawTriangle da f v0 v1 v2 cv
  | Line v0 v1 => DrawLine da f v0 v1 cv
  end.

End Primitives.

(** The pixels a call wrote, when it returned. *)
Definition written_by (o : Outcome Canvas) : option (list (Z * Z)) :=
  match o with
  | inr cv => Some (written cv)
  | inl _ => None
  end.

(** A pipeline without texture, with a blend that keeps the source and no
    dither, to run the routines on. *)
Definition plain_sample (f : Flags) (x y c : Z) : option Z := Some c.
Definition plain_blend (existing src : Z) : Z := src.
Definition plain_dither (x y c : Z) : Z := c.
Definition plain_on_edge (a b : Vertex) : bool := true.
Definition plain_interpolate (w0 w1 w2 : Z) (v0 v1 v2 : Vertex) : Z :=
  vcolour v0.

Definition flat_flags (check_mask : bool) : Flags :=
  {| textured := false; raw_texture := false; semi_transparent := false;
     dithering := false; mask_check := check_mask; mask_set := false |}.

(** A 16 by 16 framebuffer, empty but for a masked pixel at (0, 0). *)
Definition small_framebuffer : Framebuffer :=
  {| fb_width := 16; fb_height := 16;
     fb_pixels := {[ (0, 0) := mkPixel 7 true ]} |}.

(** The DrawingArea of the two columns 0 and 1 of row 0. *)
Definition two_pixel_area : DrawingArea :=
  {| min_x := 0; min_y := 0; max_x := 1; max_y := 0 |}.

(** A DrawingArea that goes beyond the framebuffer of 16 by 16: the columns
    14 to 20 of the rows 15 to 17. *)
Definition overhanging_area : DrawingArea :=
  {| min_x := 14; min_y := 15; max_x := 20; max_y := 17 |}.

(* --------------------------------------------------------------------- *)
(** ** SelectImplementation: what is common to all interleavings          *)
(* --------------------------------------------------------------------- *)

(** The three pointers. *)
Inductive Table : Type := RectangleTable | TriangleTable | LineTable.

Definition table_pointer (tb : Table) (s : Rasterizer) : Implementation :=
  match tb with
  | RectangleTable => SelectedDrawRectangleFunctions s
  | TriangleTable => SelectedDrawTriangleFunctions s
  | LineTable => SelectedDrawLineFunctions s
  end.

(** The variant the tests of the function lead to on a platform. *)
Definition chosen_variant (p : Platform) : Implementation :=
  if CPU_ARCH_SSE p && cpuinfo_initialize p then
    if cpuinfo_has_x86_avx2 p && isa_allowed (getenv_SW_USE_ISA p) "AVX2"
    then AVX2
    else if cpuinfo_has_x86_sse4_1 p &&
            isa_allowed (getenv_SW_USE_ISA p) "SSE4"
    then SSE4
    else Default
  else Default.

(** Whether a call at a point, the flag being [sel], has still to go through
    the store to a pointer if the platform chooses an alternative. *)
Definition store_ahead (tb : Table) (pt : Point) (sel : bool) : bool :=
  match pt with
  | AtCheck => negb sel
  | AtSetSelected | AtProbe | AtUsing _ | AtRectangle _ => true
  | AtTriangle _ =>
      match tb with RectangleTable => false | _ => true end
  | AtLine _ =>
      match tb with LineTable => true | _ => false end
  | AtDefault | Returned => false
  end.

(** A call inside the macro is there for the variant [v]. *)
Definition point_for (v : Implementation) (pt : Point) : Prop :=
  match pt with
  | AtUsing isa | AtRectangle isa | AtTriangle isa | AtLine isa =>
      isa = v ∧ v ≠ Default
  | AtDefault => v = Default
  | _ => True
  end.

(** What every interleaving keeps: the calls inside the macro are there for
    the chosen variant, and each pointer either addresses the chosen variant
    already or is still on the default tables with a call that has its
    store ahead. *)
Definition calls_agree (p : Platform) (c : Threads) : Prop :=
  (∀ i pt, c.1 !! i = Some pt → point_for (chosen_variant p) pt) ∧
  ∀ tb,
    table_pointer tb c.2 = chosen_variant p ∨
    (table_pointer tb c.2 = Default ∧
     ∃ i pt, c.1 !! i = Some pt ∧ store_ahead tb pt (selected c.2) = true).

(* --------------------------------------------------------------------- *)
(** ** gpu/d3d11_texture.cpp: the texture object                          *)
(* --------------------------------------------------------------------- *)

Definition to_u16 (x : Z) : Z := x mod 2 ^ 16.

(** Constants of the platform header d3d11.h. *)
Definition D3D11_REQ_TEXTURE2D_U_OR_V_DIMENSION : Z := 16384.
Definition D3D11_REQ_TEXTURE2D_ARRAY_AXIS_DIMENSION : Z := 2048.
Definition D3D11_BIND_SHADER_RESOURCE : Z := 8.
Definition D3D11_BIND_RENDER_TARGET : Z := 32.
Definition D3D11_BIND_DEPTH_STENCIL : Z := 64.
Definition D3D11_BIND_UNORDERED_ACCESS : Z := 128.
Definition D3D11_USAGE_DEFAULT : Z := 0.
Definition D3D11_USAGE_DYNAMIC : Z := 2.
Definition D3D11_CPU_ACCESS_WRITE : Z := 65536.
Definition D3D11_MAP_WRITE : Z := 2.
Definition D3D11_MAP_WRITE_DISCARD : Z := 4.

(** [D3D11CalcSubresource(MipSlice, ArraySlice, MipLevels)] of d3d11.h, in
    [UINT] arithmetic. *)
Definition D3D11CalcSubresource (mip_slice array_slice mip_levels : Z) : Z :=
  to_u32 (mip_slice + to_u32 (array_slice * mip_levels)).

(** The enumerators of [GPUTexture::Type] the switch of [Create] names;
    [OtherType] stands for any other value, which takes the [default]
    label. *)
Inductive TextureType : Type :=
  | RenderTarget | DepthStencil | Texture | RWTexture | OtherType.

Inductive ViewDimension : Type :=
  | DIMENSION_TEXTURE2D | DIMENSION_TEXTURE2DMS | DIMENSION_TEXTURE2DARRAY.

(** The fields of [D3D11_TEXTURE2D_DESC] the file sets and reads. *)
Record TEXTURE2D_DESC : Type := mkDesc {
  desc_Format : Z;
  desc_Width : Z;
  desc_Height : Z;
  desc_ArraySize : Z;
  desc_MipLevels : Z;
  desc_BindFlags : Z;
  desc_Usage : Z;
  desc_CPUAccessFlags : Z;
  desc_SampleCount : Z
}.

(** The view descriptions handed to the device: the dimension, the format,
    the number of mip levels (0 for the target views) and the array size. *)
Record VIEW_DESC : Type := mkViewDesc {
  view_dimension : ViewDimension;
  view_format : Z;
  view_mip_levels : Z;
  view_array_size : Z
}.

(** [ID3D11Device], which is outside the program: for each creation call it
    answers the object created, or [None] for a failed [HRESULT]. *)
Record ID3D11Device : Type := mkDevice {
  CreateTexture2D : TEXTURE2D_DESC → bool → option nat;
  CreateShaderResourceView : nat → VIEW_DESC → option nat;
  CreateRenderTargetView : nat → VIEW_DESC → option nat;
  CreateDepthStencilView : nat → VIEW_DESC → option nat
}.

(** The members [GPUTexture] holds for its subclasses. *)
Record GPUTextureBase : Type := mkBase {
  m_width : Z;
  m_height : Z;
  m_layers : Z;
  m_levels : Z;
  m_samples : Z;
  m_format : nat
}.

(** [D3D11Texture]: the three COM pointers ([None] is the null pointer), the
    base members and the members of the class itself. *)
Record D3D11Texture : Type := mkTexture {
  m_texture : option nat;
  m_srv : option nat;
  m_rtv_dsv : option nat;
  base : GPUTextureBase;
  m_dynamic : bool;
  m_mapped_subresource : Z
}.

(** An object that holds no texture, to run the functions on. *)
Definition no_texture : D3D11Texture :=
  {| m_texture := None; m_srv := None; m_rtv_dsv := None;
     base := mkBase 0 0 0 0 0 0;
     m_dynamic := false; m_mapped_subresource := 0 |}.

(** A device on which every creation succeeds, and a context on which every
    map succeeds, to run the functions on. *)
Definition willing_device : ID3D11Device :=
  {| CreateTexture2D := λ _ _, Some 1%nat;
     CreateShaderResourceView := λ _ _, Some 2%nat;
     CreateRenderTargetView := λ _ _, Some 3%nat;
     CreateDepthStencilView := λ _ _, Some 4%nat |}.

Definition willing_context_Map (texture : option nat) (subresource map_type : Z)
    : option (Z * Z) :=
  Some (4096, 1024).

(** A dynamic texture of 256 by 256 pixels with one layer and one level. *)
Definition dynamic_texture_256 : D3D11Texture :=
  {| m_texture := Some 1%nat; m_srv := Some 2%nat; m_rtv_dsv := None;
     base := mkBase 256 256 1 1 1 1;
     m_dynamic := true; m_mapped_subresource := 0 |}.

(** [bool D3D11Texture::IsValid() const] *)
Definition IsValid (t : D3D11Texture) : bool :=
  match m_texture t with Some _ => true | None => false end.

(** The bind flags the switch of [Create] computes. *)
Definition bind_flags_of (type : TextureType) : Z :=
  match type with
  | RenderTarget =>
      Z.lor D3D11_BIND_RENDER_TARGET D3D11_BIND_SHADER_RESOURCE
  | DepthStencil => D3D11_BIND_DEPTH_STENCIL
  | Texture => D3D11_BIND_SHADER_RESOURCE
  | RWTexture =>
      Z.lor D3D11_BIND_UNORDERED_ACCESS D3D11_BIND_SHADER_RESOURCE
  | OtherType => 0
  end.

(** [flags & bit] as a condition. *)
Definition has_flag (flags bit : Z) : bool := negb (Z.land flags bit =? 0).

(** The lines [Create] prints, as their format strings. *)
Definition too_large_line : LogLine :=
  Log_ErrorPrint
    "Texture bounds (%ux%ux%u, %u mips, %u samples) are too large".
Definition create_texture_failed_line : LogLine :=
  Log_ErrorPrint
    "Create texture failed: 0x%08X (%ux%u levels:%u samples:%u format:%u bind_flags:%X initial_data:%p)".
Definition create_srv_failed_line : LogLine :=
  Log_ErrorPrint "Create SRV for texture failed: 0x%08X".
Definition create_rtv_failed_line : LogLine :=
  Log_ErrorPrint "Create RTV for texture failed: 0x%08X".
Definition create_dsv_failed_line : LogLine :=
  Log_ErrorPrint "Create DSV for texture failed: 0x%08X".

Section D3D11TextureObject.

Variable Format_Count : nat.

(** [GetDXGIFormat] reads [s_dxgi_mapping] without a check of the index, and
    [Create] does not check the format either. For a format outside the
    table, [Format::Count] for one, the value read is whatever lies behind
    the array; the program does not determine it, and it is a parameter. *)
Variable beyond_s_dxgi_mapping : nat → Z.

(** [bool D3D11Texture::Create(...)]: the value returned, the object after
    the call and the lines printed. [has_initial_data] is whether
    [initial_data] is not null; the arguments are [u32] values. *)
Definition Create (device : ID3D11Device)
    (width height layers levels samples : Z) (type : TextureType)
    (format : nat) (has_initial_data : bool) (dynamic : bool)
    (t : D3D11Texture) : bool * D3D11Texture * list LogLine :=
  if (D3D11_REQ_TEXTURE2D_U_OR_V_DIMENSION <? width) ||
     (D3D11_REQ_TEXTURE2D_U_OR_V_DIMENSION <? height) ||
     (D3D11_REQ_TEXTURE2D_ARRAY_AXIS_DIMENSION <? layers) ||
     ((1 <? layers) && (1 <? samples))
  then (false, t, [too_large_line])
  else
    let bind_flags := bind_flags_of type in
    let dxgi :=
      match GetDXGIFormat Format_Count format with
      | Some dxgi => dxgi
      | None => beyond_s_dxgi_mapping format
      end in
    let desc :=
      {| desc_Format := dxgi; desc_Width := width; desc_Height := height;
         desc_ArraySize := layers; desc_MipLevels := levels;
         desc_BindFlags := bind_flags;
         desc_Usage := if dynamic then D3D11_USAGE_DYNAMIC
                       else D3D11_USAGE_DEFAULT;
         desc_CPUAccessFlags := if dynamic then D3D11_CPU_ACCESS_WRITE
                                else 0;
         desc_SampleCount := samples |} in
    match CreateTexture2D device desc has_initial_data with
    | None => (false, t, [create_texture_failed_line])
    | Some texture =>
        let srv_result :=
          if has_flag bind_flags D3D11_BIND_SHADER_RESOURCE then
            let dimension :=
              if 1 <? desc_SampleCount desc then DIMENSION_TEXTURE2DMS
              else if 1 <? desc_ArraySize desc
                   then DIMENSION_TEXTURE2DARRAY
                   else DIMENSION_TEXTURE2D in
            match CreateShaderResourceView device texture
                    (mkViewDesc dimension (desc_Format desc)
                       (desc_MipLevels desc) (desc_ArraySize desc)) with
            | None => None
            | Some srv => Some (Some srv)
            end
          else Some None in
        match srv_result with
        | None => (false, t, [create_srv_failed_line])
        | Some srv =>
            let target_dimension :=
              if 1 <? desc_SampleCount desc then DIMENSION_TEXTURE2DMS
              else DIMENSION_TEXTURE2D in
            let target_desc :=
              mkViewDesc target_dimension (desc_Format desc) 0
                (desc_ArraySize desc) in
            let finish (rtv_dsv : option nat) :=
              (true,
               {| m_texture := Some texture;
                  m_srv := srv;
                  m_rtv_dsv := rtv_dsv;
                  base := {| m_width := to_u16 width;
                             m_height := to_u16 height;
                             m_layers := to_u8 layers;
                             m_levels := to_u8 levels;
                             m_samples := to_u8 samples;
                             m_format := format |};
                  m_dynamic := dynamic;
                  m_mapped_subresource := m_mapped_subresource t |},
               []) in
            if has_flag bind_flags D3D11_BIND_RENDER_TARGET then
              match CreateRenderTargetView device texture target_desc with
              | None => (false, t, [create_rtv_failed_line])
              | Some rtv => finish (Some rtv)
              end
            else if has_flag bind_flags D3D11_BIND_DEPTH_STENCIL then
              match CreateDepthStencilView device texture target_desc with
              | None => (false, t, [create_dsv_failed_line])
              | Some dsv => finish (Some dsv)
              end
            else finish None
        end
    end.

End D3D11TextureObject.

(** The calls made on [ID3D11DeviceContext], the copy into mapped memory
    and the error lines printed, in the order they are made. *)
Inductive ContextCall : Type :=
  | CallLog_ErrorPrintf (format : string)
  | CallMap (texture : option nat) (subresource map_type : Z) (succeeded : bool)
  | CallUnmap (texture : option nat) (subresource : Z)
  | CallUpdateSubresource (texture : option nat) (subresource : Z)
      (left top front right bottom back : Z) (pitch : Z)
  | CallStrideMemCpy (dst dst_stride src_stride copy_size count : Z).

Section D3D11TextureMapping.

(** [GetPixelSize()] is a member of [GPUTexture] defined with it; it depends
    on the format only. *)
Variable GetPixelSize : nat → Z.

(** What [ID3D11DeviceContext::Map] answers for a texture, a subresource and
    a map type: the [pData] and [RowPitch] of the mapped subresource, or
    [None] for a failed [HRESULT]. *)
Variable context_Map : option nat → Z → Z → option (Z * Z).

(** [void D3D11Texture::Unmap()] *)
Definition Unmap (t : D3D11Texture) (calls : list ContextCall)
    : D3D11Texture * list ContextCall :=
  ({| m_texture := m_texture t; m_srv := m_srv t; m_rtv_dsv := m_rtv_dsv t;
      base := base t; m_dynamic := m_dynamic t;
      m_mapped_subresource := 0 |},
   calls ++ [CallUnmap (m_texture t) (m_mapped_subresource t)]).

(** [bool D3D11Texture::Map(...)]: [Some (map, map_stride)] when it returns
    true, the object and the calls made afterwards. The arguments are [u32]
    values. *)
Definition Map (x y width height layer level : Z) (t : D3D11Texture)
    (calls : list ContextCall)
    : option (Z * Z) * D3D11Texture * list ContextCall :=
  if negb (m_dynamic t) ||
     (m_width (base t) <? to_u32 (x + width)) ||
     (m_height (base t) <? to_u32 (y + height)) ||
     (m_layers (base t) <? layer) || (m_levels (base t) <? level)
  then (None, t, calls)
  else
    let discard :=
      (width =? m_width (base t)) && (height =? m_height (base t)) in
    let srnum := D3D11CalcSubresource level layer (m_levels (base t)) in
    let map_type :=
      if discard then D3D11_MAP_WRITE_DISCARD else D3D11_MAP_WRITE in
    match context_Map (m_texture t) srnum map_type with
    | None =>
        (None, t,
         calls ++ [CallMap (m_texture t) srnum map_type false;
                   CallLog_ErrorPrintf "Map pixels texture failed: %08X"])
    | Some (pData, RowPitch) =>
        (Some (pData + to_u32 (y * RowPitch) +
               to_u32 (x * GetPixelSize (m_format (base t))),
               RowPitch),
         {| m_texture := m_texture t; m_srv := m_srv t;
            m_rtv_dsv := m_rtv_dsv t; base := base t;
            m_dynamic := m_dynamic t; m_mapped_subresource := srnum |},
         calls ++ [CallMap (m_texture t) srnum map_type true])
    end.

(** [bool D3D11Texture::Update(...)] *)
Definition Update (x y width height pitch layer level : Z) (t : D3D11Texture)
    (calls : list ContextCall) : bool * D3D11Texture * list ContextCall :=
  if m_dynamic t then
    match Map x y width height layer level t calls with
    | (None, t, calls) => (false, t, calls)
    | (Some (map, map_stride), t, calls) =>
        let calls :=
          calls ++
          [CallStrideMemCpy map map_stride pitch
             (to_u32 (GetPixelSize (m_format (base t)) * width)) height] in
        let '(t, calls) := Unmap t calls in
        (true, t, calls)
    end
  else
    let srnum := D3D11CalcSubresource level layer (m_levels (base t)) in
    (true, t,
     calls ++
     [CallUpdateSubresource (m_texture t) srnum
        (to_s32 x) (to_s32 y) 0 (to_s32 (to_u32 (x + width)))
        (to_s32 (to_u32 (y + height))) 1 pitch]).

End D3D11TextureMapping.

Section D3D11TextureDestroy.

(** [GPUTexture::ClearBaseProperties()] is defined with [GPUTexture]; it
    acts on the base members only. *)
Variable ClearBaseProperties : GPUTextureBase → GPUTextureBase.

(** [void D3D11Texture::Destroy()] *)
Definition Destroy (t : D3D11Texture) : D3D11Texture :=
  {| m_texture := None; m_srv := None; m_rtv_dsv := None;
     base := ClearBaseProperties (base t);
     m_dynamic := false;
     m_mapped_subresource := m_mapped_subresource t |}.

End D3D11TextureDestroy.

(* --------------------------------------------------------------------- *)
(** ** host.cpp: the callers of LookupTranslationString                   *)
(* --------------------------------------------------------------------- *)

(** The characters a [std::string_view(first, len)] into the cache
    designates. *)
Definition view_chars (cache : list ascii) (first len : Z) : list ascii :=
  take (Z.to_nat len) (drop (Z.to_nat first) cache).

Section Translate.

Variable GetTranslatedStringImpl : string → string → Z → Z * list ascii.

(** [const char* Host::TranslateToCString(context, msg)] *)
Definition TranslateToCString (context msg : string) (t : Translations)
    : Outcome (Z * Translations) :=
  '(mp, t) ← LookupTranslationString GetTranslatedStringImpl context msg t;
  ok (mp.1, t).

(** [std::string_view Host::TranslateToStringView(context, msg)]: the view
    is the pointer and the length. *)
Definition TranslateToStringView (context msg : string) (t : Translations)
    : Outcome ((Z * Z) * Translations) :=
  '(mp, t) ← LookupTranslationString GetTranslatedStringImpl context msg t;
  ok ((mp.1, mp.2), t).

(** [std::string Host::TranslateToString(context, msg)]: a copy of the
    characters of the view. *)
Definition TranslateToString (context msg : string) (t : Translations)
    : Outcome (list ascii * Translations) :=
  '(sv, t) ← TranslateToStringView context msg t;
  ok (view_chars (s_translation_string_cache t) sv.1 sv.2, t).

End Translate.

(** The globals as the first statements after [add_string] leave them: the
    cache sized on its first use. *)
Definition ensure_sized (t : Translations) : Translations :=
  match s_translation_string_cache t with
  | [] =>
      {| s_translation_string_map := s_translation_string_map t;
         s_translation_string_cache :=
           <[0%nat := NUL]>
             (replicate (Z.to_nat TRANSLATION_STRING_CACHE_SIZE) NUL);
         s_translation_string_cache_pos := 0 |}
  | _ => t
  end.

(** [ctx_it->second.emplace(msg, entry)]: an entry already there is kept. *)
Definition emplace (msg : string) (entry : Z * Z) (m : gmap string (Z * Z))
    : gmap string (Z * Z) :=
  match m !! msg with
  | Some _ => m
  | None => <[msg := entry]> m
  end.

(** The entry the map holds for a context and a message. *)
Definition cached (t : Translations) (context msg : string) : option (Z * Z) :=
  m ← s_translation_string_map t !! context; m !! msg.

(** The cache has not been sized yet, or has its full size. *)
Definition cache_unsized_or_full (t : Translations) : Prop :=
  s_translation_string_cache t = [] ∨
  Z.of_nat (length (s_translation_string_cache t)) =
  TRANSLATION_STRING_CACHE_SIZE.

(** What the functions keep of the globals: the position is within the size
    of the cache, a cache never sized goes with an empty map, and every
    entry of the map designates characters inside the cache. *)
Definition translations_consistent (t : Translations) : Prop :=
  0 ≤ s_translation_string_cache_pos t ≤ TRANSLATION_STRING_CACHE_SIZE ∧
  ((s_translation_string_cache t = [] ∧ s_translation_string_map t = ∅) ∨
   (Z.of_nat (length (s_translation_string_cache t)) =
      TRANSLATION_STRING_CACHE_SIZE ∧
    ∀ context msg first second,
      cached t context msg = Some (first, second) →
      0 ≤ first ∧ 0 ≤ second ∧
      first + second < TRANSLATION_STRING_CACHE_SIZE)).

(** The translator keeps to the space it is given: it answers a negative
    number, to refuse, or a length that is at most the space. *)
Definition answers_within_space
    (Impl : string → string → Z → Z * list ascii) : Prop :=
  ∀ context msg space, 0 ≤ space → (Impl context msg space).1 ≤ space.

(** A translator that answers a fixed word, if there is room for it. *)
Definition fixed_translator (word : list ascii) (context msg : string)
    (space : Z) : Z * list ascii :=
  if Z.of_nat (length word) <=? space then (Z.of_nat (length word), word)
  else (-1, []).

(** A cache of full size that holds no character yet, and globals in which
    two places are left before the last one, with an older entry at the
    start of the cache, to run the functions on. *)
Definition blank_cache : list ascii :=
  replicate (Z.to_nat TRANSLATION_STRING_CACHE_SIZE) NUL.

Definition nearly_full_translations : Translations :=
  {| s_translation_string_map := {[ "Menu" := {[ "Old" := (0, 3) ]} ]};
     s_translation_string_cache := blank_cache;
     s_translation_string_cache_pos := TRANSLATION_STRING_CACHE_SIZE - 3 |}.

Definition word_Hi : list ascii := ["H"; "i"]%char.
Definition word_Hello : list ascii := ["H"; "e"; "l"; "l"; "o"]%char.

(* --------------------------------------------------------------------- *)
(** ** gpu/d3d11_texture.cpp: wrapping an existing texture                *)
(* --------------------------------------------------------------------- *)

Definition adopt_srv_failed_line : LogLine :=
  Log_ErrorPrint "Create SRV for adopted texture failed: 0x%08X".
Definition adopt_rtv_failed_line : LogLine :=
  Log_ErrorPrint "Create RTV for adopted texture failed: 0x%08X".
Definition adopt_dsv_failed_line : LogLine :=
  Log_ErrorPrint "Create DSV for adopted texture failed: 0x%08X".

Section D3D11TextureAdopt.

Variable Format_Count : nat.
Variable Format_Unknown : nat.

(** [ID3D11Texture2D::GetDesc]: the description the platform reports for a
    texture. *)
Variable GetDesc : nat → TEXTURE2D_DESC.

(** [D3D11Texture::D3D11Texture(texture, srv, rtv)], for pointers that are
    not null; [mapped] is the value the member initialiser of
    [m_mapped_subresource] gives. *)
Definition D3D11Texture_from (texture : nat) (srv rtv : option nat)
    (mapped : Z) : D3D11Texture :=
  let desc := GetDesc texture in
  {| m_texture := Some texture; m_srv := srv; m_rtv_dsv := rtv;
     base := {| m_width := to_u16 (desc_Width desc);
                m_height := to_u16 (desc_Height desc);
                m_layers := to_u8 (desc_ArraySize desc);
                m_levels := to_u8 (desc_MipLevels desc);
                m_samples := to_u8 (desc_SampleCount desc);
                m_format :=
                  LookupBaseFormat Format_Count Format_Unknown
                    (desc_Format desc) |};
     m_dynamic := desc_Usage desc =? D3D11_USAGE_DYNAMIC;
     m_mapped_subresource := mapped |}.

(** [bool D3D11Texture::Adopt(device, texture)]: the value returned, the
    object after the call and the lines printed. *)
Definition Adopt (device : ID3D11Device) (texture : nat) (t : D3D11Texture)
    : bool * D3D11Texture * list LogLine :=
  let desc := GetDesc texture in
  let srv_result :=
    if has_flag (desc_BindFlags desc) D3D11_BIND_SHADER_RESOURCE then
      let dimension :=
        if 1 <? desc_SampleCount desc then DIMENSION_TEXTURE2DMS
        else DIMENSION_TEXTURE2D in
      match CreateShaderResourceView device texture
              (mkViewDesc dimension (desc_Format desc) (desc_MipLevels desc)
                 (desc_ArraySize desc)) with
      | None => None
      | Some srv => Some (Some srv)
      end
    else Some None in
  match srv_result with
  | None => (false, t, [adopt_srv_failed_line])
  | Some srv =>
      let target_dimension :=
        if 1 <? desc_SampleCount desc then DIMENSION_TEXTURE2DMS
        else DIMENSION_TEXTURE2D in
      let target_desc :=
        mkViewDesc target_dimension (desc_Format desc) 0
          (desc_ArraySize desc) in
      let finish (rtv_dsv : option nat) :=
        (true,
         {| m_texture := Some texture;
            m_srv := srv;
            m_rtv_dsv := rtv_dsv;
            base := {| m_width := to_u16 (desc_Width desc);
                       m_height := to_u16 (desc_Height desc);
                       m_layers := to_u8 (desc_ArraySize desc);
                       m_levels := to_u8 (desc_MipLevels desc);
                       m_samples := to_u8 (desc_SampleCount desc);
                       m_format := m_format (base t) |};
            m_dynamic := desc_Usage desc =? D3D11_USAGE_DYNAMIC;
            m_mapped_subresource := m_mapped_subresource t |},
         []) in
      if has_flag (desc_BindFlags desc) D3D11_BIND_RENDER_TARGET then
        match CreateRenderTargetView device texture target_desc with
        | None => (false, t, [adopt_rtv_failed_line])
        | Some rtv => finish (Some rtv)
        end
      else if has_flag (desc_BindFlags desc) D3D11_BIND_DEPTH_STENCIL then
        match CreateDepthStencilView device texture target_desc with
        | None => (false, t, [adopt_dsv_failed_line])
        | Some dsv => finish (Some dsv)
        end
      else finish None
  end.

End D3D11TextureAdopt.

(** The description of a dynamic BGRA texture of 320 by 240 pixels that can
    be bound as a shader resource. *)
Definition bgra_desc (texture : nat) : TEXTURE2D_DESC :=
  {| desc_Format := DXGI_FORMAT_B8G8R8A8_UNORM;
     desc_Width := 320; desc_Height := 240;
     desc_ArraySize := 1; desc_MipLevels := 1;
     desc_BindFlags := D3D11_BIND_SHADER_RESOURCE;
     desc_Usage := D3D11_USAGE_DYNAMIC;
     desc_CPUAccessFlags := D3D11_CPU_ACCESS_WRITE;
     desc_SampleCount := 1 |}.

(* ===================================================================== *)
(** * Part II. Properties                                                 *)
(* ===================================================================== *)

Lemma for_u32_S {S : Type} (n : nat) (body : nat → S → S) (s : S) :
  for_u32 (Datatypes.S n) body s = body n (for_u32 n body s).
Proof.
  unfold for_u32. rewrite seq_S, foldl_app. reflexivity.
Qed.

Lemma lut_load_store (lut : DitherLUT) (i j v i' j' v' : nat) (x : Z) :
  lut_load (lut_store lut i j v x) i' j' v' =
  if decide (i = i' ∧ j = j' ∧ v = v')
  then (λ _, x) <$> lut_load lut i' j' v'
  else lut_load lut i' j' v'.
Proof.
  unfold lut_load, lut_store.
  destruct (decide (i = i')) as [->|Hi].
  - rewrite list_lookup_alter_eq.
    destruct (lut !! i') as [row|] eqn:Hrow; simpl.
    + destruct (decide (j = j')) as [->|Hj].
      * rewrite list_lookup_alter_eq.
        destruct (row !! j') as [cell|] eqn:Hcell; simpl.
        -- destruct (decide (v = v')) as [->|Hv].
           ++ rewrite decide_True by done.
              destruct (cell !! v') eqn:Hc; simpl.
              ** rewrite list_lookup_insert_eq; [done|].
                 eapply lookup_lt_Some; eauto.
              ** rewrite list_insert_ge by (apply lookup_ge_None; done).
                 rewrite Hc. done.
           ++ rewrite decide_False by lia.
              rewrite list_lookup_insert_ne by done. done.
        -- case_decide; done.
      * rewrite list_lookup_alter_ne by done.
        rewrite decide_False by lia. done.
    + case_decide; done.
  - rewrite list_lookup_alter_ne by done.
    rewrite decide_False by lia. done.
Qed.

Section DitherTableFacts.

Variable N L : nat.
Variable M : list (list Z).

Local Abbreviation entry i j v := (dither_clamp (dithered_value M i j v)).

Local Ltac split_cases :=
  repeat case_decide; destruct_and?; subst; try lia; try done.

Lemma dither_fill_values (i j n : nat) (lut : DitherLUT) (i' j' v' : nat) :
  lut_load (for_u32 n (λ value, dither_lut_entry M i j value) lut) i' j' v' =
  if decide (i = i' ∧ j = j' ∧ (v' < n)%nat)
  then (λ _, entry i' j' v') <$> lut_load lut i' j' v'
  else lut_load lut i' j' v'.
Proof.
  induction n as [|n IH].
  - cbn. split_cases.
  - rewrite for_u32_S. unfold dither_lut_entry at 1.
    rewrite lut_load_store, IH. split_cases.
Qed.

Lemma dither_fill_columns (i n : nat) (lut : DitherLUT) (i' j' v' : nat) :
  lut_load
    (for_u32 n (λ j, for_u32 L (λ value, dither_lut_entry M i j value)) lut)
    i' j' v' =
  if decide (i = i' ∧ (j' < n)%nat ∧ (v' < L)%nat)
  then (λ _, entry i' j' v') <$> lut_load lut i' j' v'
  else lut_load lut i' j' v'.
Proof.
  induction n as [|n IH].
  - cbn. split_cases.
  - rewrite for_u32_S, dither_fill_values, IH. split_cases.
Qed.

Lemma dither_fill_rows (n : nat) (lut : DitherLUT) (i' j' v' : nat) :
  lut_load
    (for_u32 n (λ i,
       for_u32 N (λ j, for_u32 L (λ value, dither_lut_entry M i j value))) lut)
    i' j' v' =
  if decide ((i' < n)%nat ∧ (j' < N)%nat ∧ (v' < L)%nat)
  then (λ _, entry i' j' v') <$> lut_load lut i' j' v'
  else lut_load lut i' j' v'.
Proof.
  induction n as [|n IH].
  - cbn. split_cases.
  - rewrite for_u32_S, dither_fill_columns, IH. split_cases.
Qed.

Lemma dither_lut_zero_load (i j v : nat) :
  (i < N)%nat → (j < N)%nat → (v < L)%nat →
  lut_load (dither_lut_zero N L) i j v = Some 0.
Proof.
  intros Hi Hj Hv. unfold lut_load, dither_lut_zero.
  rewrite lookup_replicate_2 by done. cbn.
  rewrite lookup_replicate_2 by done. cbn.
  by rewrite lookup_replicate_2.
Qed.

(** Every in-range entry of the table is the clamped, shifted sum, as the
    source computes it (with its conversions). *)
Lemma g_dither_lut_load (i j v : nat) :
  (i < N)%nat → (j < N)%nat → (v < L)%nat →
  lut_load (g_dither_lut N L M) i j v = Some (entry i j v).
Proof.
  intros Hi Hj Hv. unfold g_dither_lut.
  rewrite dither_fill_rows, decide_True by done.
  by rewrite dither_lut_zero_load.
Qed.

Lemma dither_clamp_range (d : Z) : 0 ≤ dither_clamp d ≤ 31.
Proof.
  unfold dither_clamp, to_u8.
  destruct (Z.ltb_spec d 0); [rewrite Z.mod_small; lia|].
  destruct (d >? 31) eqn:E; [rewrite Z.mod_small; lia|].
  assert (d ≤ 31) by lia. rewrite Z.mod_small; lia.
Qed.

Lemma dither_clamp_mono (d d' : Z) : d ≤ d' → dither_clamp d ≤ dither_clamp d'.
Proof.
  intros Hd. unfold dither_clamp, to_u8.
  destruct (Z.ltb_spec d 0), (Z.ltb_spec d' 0); try lia;
    destruct (d >? 31) eqn:E, (d' >? 31) eqn:E';
    rewrite ?Z.mod_small by lia; lia.
Qed.

Lemma dither_lut_zero_inv (i j v : nat) (x : Z) :
  lut_load (dither_lut_zero N L) i j v = Some x →
  (i < N)%nat ∧ (j < N)%nat ∧ (v < L)%nat.
Proof.
  unfold lut_load, dither_lut_zero. intros H.
  destruct (replicate N (replicate N (replicate L 0)) !! i) as [row|] eqn:Hr;
    [|done].
  apply lookup_replicate in Hr as [-> Hi]. cbn in H.
  destruct (replicate N (replicate L 0) !! j) as [cell|] eqn:Hc; [|done].
  apply lookup_replicate in Hc as [-> Hj]. cbn in H.
  apply lookup_replicate in H as [_ Hv]. done.
Qed.

Lemma g_dither_lut_load_inv (i j v : nat) (e : Z) :
  lut_load (g_dither_lut N L M) i j v = Some e →
  (i < N)%nat ∧ (j < N)%nat ∧ (v < L)%nat.
Proof.
  unfold g_dither_lut. rewrite dither_fill_rows.
  case_decide; [done|]. apply dither_lut_zero_inv.
Qed.

Lemma dithered_value_exact (i j v : nat) :
  dither_sum_in_s32 N L M →
  (i < N)%nat → (j < N)%nat → (v < L)%nat →
  dithered_value M i j v = Z.shiftr (Z.of_nat v + dither_matrix_at M i j) 3.
Proof.
  intros [HL HM] Hi Hj Hv. destruct (HM i j Hi Hj) as [Hlo Hhi].
  unfold dithered_value, to_s32, to_u32.
  rewrite (Z.mod_small (Z.of_nat v)) by lia.
  replace ((Z.of_nat v + 2 ^ 31) mod 2 ^ 32 - 2 ^ 31) with (Z.of_nat v)
    by (rewrite Z.mod_small; lia).
  f_equal. rewrite Z.mod_small; lia.
Qed.

Lemma dither_clamp_saturate (d : Z) : dither_clamp d = saturate_5bit d.
Proof.
  unfold dither_clamp, saturate_5bit, to_u8.
  destruct (Z.ltb_spec d 0); [rewrite Z.mod_small; lia|].
  destruct (d >? 31) eqn:E; rewrite Z.mod_small; lia.
Qed.

End DitherTableFacts.

(** C3. For every dither-matrix position (i, j) and every input value v
    inside the table, the entry [g_dither_lut[i][j][v]] is
    [(v + DITHER_MATRIX[i][j]) >> 3] saturated to [[0, 31]]; and every entry
    the table holds lies in [[0, 31]]. The matrix and the two sizes come from
    gpu_sw_rasterizer.h and are parameters here; the sum is taken inside
    [s32], as a constant expression requires. *)
Theorem g_dither_lut_entry_spec (N L : nat) (M : list (list Z)) :
  dither_sum_in_s32 N L M →
  (∀ i j v, (i < N)%nat → (j < N)%nat → (v < L)%nat →
     lut_load (g_dither_lut N L M) i j v =
     Some (saturate_5bit (Z.shiftr (Z.of_nat v + dither_matrix_at M i j) 3)))
  ∧ (∀ i j v e, lut_load (g_dither_lut N L M) i j v = Some e → 0 ≤ e ≤ 31).
Proof.
  intros Hs32. split.
  - intros i j v Hi Hj Hv.
    rewrite g_dither_lut_load by done.
    rewrite dither_clamp_saturate, (dithered_value_exact N L) by done.
    reflexivity.
  - intros i j v e He.
    destruct (g_dither_lut_load_inv _ _ _ _ _ _ _ He) as (Hi & Hj & Hv).
    rewrite g_dither_lut_load in He by done.
    injection He as <-. apply dither_clamp_range.
Qed.

Lemma g_dither_lut_entry_spec_psx :
  lut_load (g_dither_lut 4 512 psx_dither_matrix) 1 2 200 = Some 25 ∧
  lut_load (g_dither_lut 4 512 psx_dither_matrix) 0 0 2 = Some 0 ∧
  lut_load (g_dither_lut 4 512 psx_dither_matrix) 3 0 255 = Some 31.
Proof.
  assert (Hs32 : dither_sum_in_s32 4 512 psx_dither_matrix).
  { split; [vm_compute; discriminate|].
    intros i j Hi Hj.
    destruct i as [|[|[|[|i]]]]; try lia;
      destruct j as [|[|[|[|j]]]]; try lia; vm_compute; split; discriminate. }
  destruct (g_dither_lut_entry_spec 4 512 psx_dither_matrix Hs32) as [Heq _].
  split; [|split].
  - apply (Heq 1%nat 2%nat 200%nat); lia.
  - apply (Heq 0%nat 0%nat 2%nat); lia.
  - apply (Heq 3%nat 0%nat 255%nat); lia.
Defined.

(** C4. For a fixed dither-matrix position (r, c) the table is monotonically
    non-decreasing in the input value. *)
Theorem g_dither_lut_monotone (N L : nat) (M : list (list Z))
    (r c v v' : nat) (e e' : Z) :
  dither_sum_in_s32 N L M →
  (v ≤ v')%nat →
  lut_load (g_dither_lut N L M) r c v = Some e →
  lut_load (g_dither_lut N L M) r c v' = Some e' →
  e ≤ e'.
Proof.
  intros Hs32 Hvv He He'.
  destruct (g_dither_lut_load_inv _ _ _ _ _ _ _ He) as (Hr & Hc & Hv).
  destruct (g_dither_lut_load_inv _ _ _ _ _ _ _ He') as (_ & _ & Hv').
  rewrite g_dither_lut_load in He, He' by done.
  injection He as <-. injection He' as <-.
  apply dither_clamp_mono.
  rewrite !(dithered_value_exact N L) by done.
  rewrite !Z.shiftr_div_pow2 by lia.
  apply Z.div_le_mono; lia.
Qed.

Lemma g_dither_lut_monotone_psx :
  lut_load (g_dither_lut 4 512 psx_dither_matrix) 2 1 7 = Some 1 ∧
  lut_load (g_dither_lut 4 512 psx_dither_matrix) 2 1 300 = Some 31 ∧
  1 ≤ 31.
Proof.
  assert (Hs32 : dither_sum_in_s32 4 512 psx_dither_matrix).
  { split; [vm_compute; discriminate|].
    intros i j Hi Hj.
    destruct i as [|[|[|[|i]]]]; try lia;
      destruct j as [|[|[|[|j]]]]; try lia; vm_compute; split; discriminate. }
  assert (H7 : lut_load (g_dither_lut 4 512 psx_dither_matrix) 2 1 7 = Some 1)
    by (rewrite g_dither_lut_load by lia; reflexivity).
  assert (H300 :
    lut_load (g_dither_lut 4 512 psx_dither_matrix) 2 1 300 = Some 31)
    by (rewrite g_dither_lut_load by lia; reflexivity).
  split; [exact H7|]. split; [exact H300|].
  apply (g_dither_lut_monotone 4 512 psx_dither_matrix 2 1 7 300 1 31 Hs32);
    [lia | exact H7 | exact H300].
Defined.

(* --------------------------------------------------------------------- *)
(** ** The DXGI format table                                              *)
(* --------------------------------------------------------------------- *)

Lemma LookupBaseFormat_from_app (l k : list Z) (i : nat) (d : Z) :
  LookupBaseFormat_from (l ++ k) i d =
  match LookupBaseFormat_from l i d with
  | Some r => Some r
  | None => LookupBaseFormat_from k (i + length l) d
  end.
Proof.
  revert i. induction l as [|x l IH]; intros i; cbn.
  - f_equal. lia.
  - destruct (x =? d); [done|]. rewrite IH. destruct LookupBaseFormat_from; [done|].
    f_equal. lia.
Qed.

(** The seven written entries are pairwise distinct. *)
Lemma s_dxgi_mapping_init_NoDup : NoDup s_dxgi_mapping_init.
Proof. apply (bool_decide_unpack _). vm_compute. exact I. Qed.

(** In a table without repetition the loop returns the index asked for. *)
Lemma LookupBaseFormat_from_NoDup (l : list Z) (i f : nat) (d : Z) :
  NoDup l → l !! f = Some d →
  LookupBaseFormat_from l i d = Some (i + f)%nat.
Proof.
  intros Hnd. revert i f.
  induction Hnd as [|x l Hx Hnd IH]; intros i f Hf; [done|].
  destruct f as [|f]; cbn in *.
  - injection Hf as ->. rewrite Z.eqb_refl. f_equal. lia.
  - destruct (Z.eqb_spec x d) as [->|_].
    + exfalso. apply Hx. eapply list_elem_of_lookup_2, Hf.
    + rewrite (IH _ f) by done. f_equal. lia.
Qed.

(** The round trip over the written entries, whatever the size of the
    array. *)
Lemma dxgi_roundtrip_written (Count Unknown f : nat) :
  (f < length s_dxgi_mapping_init)%nat →
  ∃ d, GetDXGIFormat Count f = Some d ∧ LookupBaseFormat Count Unknown d = f.
Proof.
  intros Hf. unfold GetDXGIFormat, LookupBaseFormat, s_dxgi_mapping.
  rewrite lookup_app_l by done.
  destruct (lookup_lt_is_Some_2 _ _ Hf) as [d Hd].
  exists d. split; [done|].
  rewrite LookupBaseFormat_from_app.
  by rewrite (LookupBaseFormat_from_NoDup _ 0 f d s_dxgi_mapping_init_NoDup Hd).
Qed.

(** C10. The DXGI format mapping round-trips: for every format f (a value
    below [Format::Count], which is the number of entries written in the
    table), [LookupBaseFormat (GetDXGIFormat f)] is f. *)
Theorem dxgi_format_roundtrip (Count Unknown f : nat) :
  Count = length s_dxgi_mapping_init →
  (f < Count)%nat →
  ∃ d, GetDXGIFormat Count f = Some d ∧ LookupBaseFormat Count Unknown d = f.
Proof.
  intros -> Hf. apply dxgi_roundtrip_written. exact Hf.
Qed.

Lemma dxgi_format_roundtrip_RGB565 :
  ∃ d, GetDXGIFormat 7 3 = Some d ∧ LookupBaseFormat 7 0 d = 3%nat.
Proof.
  apply (dxgi_format_roundtrip 7 0 3); [reflexivity | lia].
Defined.

(* --------------------------------------------------------------------- *)
(** ** Selection of the implementation                                    *)
(* --------------------------------------------------------------------- *)

Lemma ascii_tolower_not_NUL (c : ascii) :
  nat_of_ascii c ≠ 0%nat → nat_of_ascii (ascii_tolower c) ≠ 0%nat.
Proof.
  unfold ascii_tolower. intros Hc.
  destruct ((65 <=? nat_of_ascii c)%nat && (nat_of_ascii c <=? 90)%nat) eqn:E;
    [|done].
  apply andb_prop in E as [H1 H2].
  apply Nat.leb_le in H1, H2.
  rewrite nat_ascii_embedding by lia. lia.
Qed.

Lemma Strcasecmp_same (a b : string) :
  same_ignoring_case a b → Strcasecmp a b = 0.
Proof.
  unfold same_ignoring_case. revert b.
  induction a as [|c a IH]; intros [|d b]; cbn; try done.
  intros [= Hc Hab]. rewrite decide_True by done. by apply IH.
Qed.

Lemma Strcasecmp_zero (a b : string) :
  c_string a → c_string b → Strcasecmp a b = 0 → same_ignoring_case a b.
Proof.
  unfold same_ignoring_case. revert b.
  induction a as [|c a IH]; intros [|d b]; cbn; try done.
  - intros _ [Hd _] H. apply ascii_tolower_not_NUL in Hd. lia.
  - intros [Hc _] _ H. apply ascii_tolower_not_NUL in Hc. lia.
  - intros [Hc Ha] [Hd Hb]. case_decide as Hcd.
    + intros H. rewrite Hcd. f_equal. by apply IH.
    + intros H. exfalso. apply Hcd.
      rewrite <- (ascii_nat_embedding (ascii_tolower c)).
      rewrite <- (ascii_nat_embedding (ascii_tolower d)).
      f_equal. lia.
Qed.

Lemma isa_allowed_named (name : string) (isa : Implementation) :
  same_ignoring_case name (isa_name isa) →
  isa_allowed (Some name) (isa_name isa) = true.
Proof.
  intros H. cbn. rewrite (Strcasecmp_same _ _ H). reflexivity.
Qed.

Lemma isa_allowed_inv (name : string) (isa : Implementation) :
  c_string name → isa ≠ Default →
  isa_allowed (Some name) (isa_name isa) = true →
  names name isa.
Proof.
  intros Hn Hisa H. split; [done|]. cbn in H. apply Z.eqb_eq in H.
  apply Strcasecmp_zero; [done| |done].
  destruct isa; cbn; repeat split; done.
Qed.

Lemma SELECT_ALTERNATIVE_RASTERIZER_tables (isa : Implementation)
    (s : Rasterizer) :
  tables_of isa (SELECT_ALTERNATIVE_RASTERIZER isa s).
Proof. repeat split. Qed.

Lemma SelectImplementation_selected (p : Platform) (s : Rasterizer) :
  selected (SelectImplementation p s) = true.
Proof.
  unfold SelectImplementation.
  destruct (selected s) eqn:Hs; [done|].
  repeat (match goal with |- context [if ?b then _ else _] => destruct b end);
    reflexivity.
Qed.

(** Every path leaves the three pointers on one variant when they were on
    one variant before. *)
Lemma SelectImplementation_keeps_one_variant (p : Platform) (s : Rasterizer) :
  (∃ isa, tables_of isa s) → ∃ isa, tables_of isa (SelectImplementation p s).
Proof.
  intros [isa0 H0]. unfold SelectImplementation.
  destruct (selected s); [by exists isa0|].
  repeat (match goal with |- context [if ?b then _ else _] => destruct b end);
    first [ by exists isa0
          | by exists AVX2
          | by exists SSE4 ].
Qed.

Lemma names_SSE4_not_AVX2 (name : string) :
  c_string name → same_ignoring_case name "SSE4" →
  isa_allowed (Some name) "AVX2" = false.
Proof.
  intros Hc H4. cbn [isa_allowed]. apply Z.eqb_neq. intros H0.
  apply Strcasecmp_zero in H0; [|done|cbn; repeat split; done].
  unfold same_ignoring_case in *. rewrite H4 in H0. discriminate H0.
Qed.

(** C2, as stated, fails: with AVX2 unsupported, SSE4.1 supported and the
    override naming AVX2, the highest supported tier is SSE4 but the default
    tables stay selected. *)
Lemma override_unsupported_selects_default :
  let p := sse4_only_asked_avx2 in
  let s := SelectImplementation p initial_rasterizer in
  getenv_SW_USE_ISA p = Some "AVX2" ∧
  supported p AVX2 = false ∧
  best_available p = SSE4 ∧
  tables_of Default s ∧
  ¬ tables_of (best_available p) s.
Proof.
  cbn. repeat split; try done. intros (H & _ & _). discriminate H.
Qed.

(** C2, amended. With cpuinfo available in an SSE build: without an override
    the highest supported tier is selected; an override that names, in any
    letter case, an alternative the processor supports selects that
    alternative; an override that names no supported alternative (an
    unsupported or an unrecognised name) leaves the default tables
    selected. *)
Theorem SelectImplementation_override (p : Platform) :
  CPU_ARCH_SSE p = true →
  cpuinfo_initialize p = true →
  let s := SelectImplementation p initial_rasterizer in
  match getenv_SW_USE_ISA p with
  | None => tables_of (best_available p) s
  | Some name =>
      c_string name →
      (∀ isa, names name isa → supported p isa = true → tables_of isa s) ∧
      ((∀ isa, names name isa → supported p isa = false) →
       tables_of Default s)
  end.
Proof.
  intros Hsse Hinit. unfold SelectImplementation.
  change (selected initial_rasterizer) with false. cbv iota.
  rewrite Hsse, Hinit. change (negb true) with false. cbv iota zeta.
  destruct (getenv_SW_USE_ISA p) as [name|] eqn:Henv.
  - intros Hc. split.
    + intros isa [Hnd Hname] Hsup.
      pose proof (isa_allowed_named _ _ Hname) as Hall.
      destruct isa; [done| |]; cbn [supported isa_name] in Hsup, Hall.
      * rewrite Hsup, Hall. apply SELECT_ALTERNATIVE_RASTERIZER_tables.
      * rewrite (names_SSE4_not_AVX2 name Hc Hname), andb_false_r.
        rewrite Hsup, Hall. apply SELECT_ALTERNATIVE_RASTERIZER_tables.
    + intros Hnone.
      destruct (cpuinfo_has_x86_avx2 p && isa_allowed (Some name) "AVX2")
        eqn:Havx.
      { apply andb_prop in Havx as [Hsup Hall].
        apply (isa_allowed_inv name AVX2 Hc) in Hall; [|done].
        specialize (Hnone AVX2 Hall). cbn in Hnone. congruence. }
      destruct (cpuinfo_has_x86_sse4_1 p && isa_allowed (Some name) "SSE4")
        eqn:Hsse4; [|done].
      apply andb_prop in Hsse4 as [Hsup Hall].
      apply (isa_allowed_inv name SSE4 Hc) in Hall; [|done].
      specialize (Hnone SSE4 Hall). cbn in Hnone. congruence.
  - unfold best_available. cbn [isa_allowed]. rewrite !andb_true_r.
    destruct (cpuinfo_has_x86_avx2 p);
      [apply SELECT_ALTERNATIVE_RASTERIZER_tables|].
    destruct (cpuinfo_has_x86_sse4_1 p);
      [apply SELECT_ALTERNATIVE_RASTERIZER_tables|done].
Qed.

Lemma SelectImplementation_override_lowercase :
  tables_of SSE4
    (SelectImplementation avx2_asked_sse4_lowercase initial_rasterizer).
Proof.
  pose proof (SelectImplementation_override avx2_asked_sse4_lowercase
                eq_refl eq_refl) as H.
  cbn [getenv_SW_USE_ISA avx2_asked_sse4_lowercase] in H.
  destruct H as [Hnamed _].
  - cbn. repeat split; discriminate.
  - apply (Hnamed SSE4); [|reflexivity].
    split; [discriminate|reflexivity].
Defined.

(** C5. SelectImplementation is idempotent: once a call has completed, a
    further call, whatever the platform answers then, changes nothing: not
    the flag, not one of the three table pointers, not the log. *)
Theorem SelectImplementation_idempotent (p p' : Platform) (s : Rasterizer) :
  SelectImplementation p' (SelectImplementation p s) =
  SelectImplementation p s.
Proof.
  unfold SelectImplementation at 1.
  rewrite SelectImplementation_selected. reflexivity.
Qed.

(** C6. When [cpuinfo_initialize] fails, the call returns with the default
    tables still selected, having printed one error line and nothing
    else. *)
Theorem SelectImplementation_probe_failure (p : Platform) (s : Rasterizer) :
  CPU_ARCH_SSE p = true →
  cpuinfo_initialize p = false →
  selected s = false →
  tables_of Default s →
  let s' := SelectImplementation p s in
  tables_of Default s' ∧
  selected s' = true ∧
  log s' =
    log s ++
    [Log_ErrorPrint "cpuinfo_initialize() failed, using default implementation"].
Proof.
  intros Hsse Hinit Hsel Htab. unfold SelectImplementation.
  rewrite Hsel, Hsse, Hinit. cbn. done.
Qed.

Lemma SelectImplementation_probe_failure_initial :
  let s' := SelectImplementation cpuinfo_unavailable initial_rasterizer in
  tables_of Default s' ∧
  selected s' = true ∧
  log s' =
    [Log_ErrorPrint "cpuinfo_initialize() failed, using default implementation"].
Proof.
  apply (SelectImplementation_probe_failure cpuinfo_unavailable
           initial_rasterizer eq_refl eq_refl eq_refl).
  repeat split.
Defined.

(** C7, as stated, fails for a call that overlaps the first one: on a
    platform with AVX2, the first call has set [selected] and stored the
    rectangle pointer, and is about to store the triangle pointer, when a
    second call tests [selected], finds it set and returns. That caller has
    returned, and the rectangle pointer addresses the AVX2 table while the
    triangle and line pointers still address the default ones: the set of
    tables it observes is of no single variant. *)
Lemma overlapping_call_returns_on_mixed_tables :
  let start : Threads := ([AtCheck; AtCheck], initial_rasterizer) in
  let c := run_schedule avx2_no_override [0; 0; 0; 0; 0; 1]%nat start in
  c.1 = [AtTriangle AVX2; Returned] ∧
  SelectedDrawRectangleFunctions c.2 = AVX2 ∧
  SelectedDrawTriangleFunctions c.2 = Default ∧
  SelectedDrawLineFunctions c.2 = Default ∧
  ¬ ∃ isa, tables_of isa c.2.
Proof.
  cbn. repeat split. intros [isa (Hr & Ht & _)]. cbn in Hr, Ht. congruence.
Qed.

(** C7, amended. The three pointers are stored one after the other, with
    nothing that makes the stores one step for another thread. For calls
    that do not overlap, each returning before the next starts: after any
    sequence of calls from the initial state, on whatever platform answers,
    the rectangle, triangle and line pointers address the tables of one and
    the same variant. *)
Theorem SelectImplementation_one_variant (ps : list Platform) :
  ∃ isa,
    tables_of isa
      (foldl (λ s p, SelectImplementation p s) initial_rasterizer ps).
Proof.
  assert (H0 : ∃ isa, tables_of isa initial_rasterizer)
    by (exists Default; repeat split).
  revert H0. generalize initial_rasterizer as s.
  induction ps as [|p ps IH]; intros s Hs; cbn; [done|].
  apply IH, SelectImplementation_keeps_one_variant, Hs.
Qed.

(* --------------------------------------------------------------------- *)
(** ** Calls of SelectImplementation in flight together                   *)
(* --------------------------------------------------------------------- *)

(** Run on its own, a call goes through the statements of the function and
    leaves the globals as [SelectImplementation] does. *)
Lemma run_call_SelectImplementation (p : Platform) (s : Rasterizer) :
  run_call p call_length AtCheck s = (Returned, SelectImplementation p s).
Proof.
  unfold SelectImplementation, call_length.
  cbn [run_call call_step].
  destruct (selected s) eqn:Hs; [reflexivity|].
  cbn [run_call call_step].
  destruct (CPU_ARCH_SSE p); [|reflexivity].
  destruct (negb (cpuinfo_initialize p)); [reflexivity|].
  destruct (cpuinfo_has_x86_avx2 p && _); [reflexivity|].
  destruct (cpuinfo_has_x86_sse4_1 p && _); reflexivity.
Qed.

Lemma run_call_returned (p : Platform) (k : nat) (pt : Point) (s : Rasterizer) :
  call_step p pt s = None → run_call p k pt s = (pt, s).
Proof. intros H. destruct k; cbn; [done|]. by rewrite H. Qed.

Lemma run_schedule_app (p : Platform) (l k : list nat) (c : Threads) :
  run_schedule p (l ++ k) c = run_schedule p k (run_schedule p l c).
Proof. apply foldl_app. Qed.

(** A thread scheduled [k] times in a row runs [k] statements of its call
    and touches no other thread. *)
Lemma run_schedule_replicate (p : Platform) (k i : nat) (ts : list Point)
    (pt : Point) (s : Rasterizer) :
  ts !! i = Some pt →
  run_schedule p (replicate k i) (ts, s) =
  (<[i := (run_call p k pt s).1]> ts, (run_call p k pt s).2).
Proof.
  revert ts pt s. induction k as [|k IH]; intros ts pt s Hi.
  - cbn. by rewrite list_insert_id.
  - cbn [replicate]. unfold run_schedule. cbn [foldl].
    unfold thread_step at 2. cbn [fst snd]. rewrite Hi.
    destruct (call_step p pt s) as [[pt' s']|] eqn:Hstep.
    + fold (run_schedule p (replicate k i) (<[i:=pt']> ts, s')).
      rewrite (IH _ pt').
      * cbn [run_call]. rewrite Hstep. by rewrite list_insert_insert_eq.
      * apply list_lookup_insert_eq. by eapply lookup_lt_Some.
    + fold (run_schedule p (replicate k i) (ts, s)).
      rewrite (IH _ pt) by done.
      by rewrite !run_call_returned.
Qed.

(** Calls that follow one another: after the first [n] of [n + m] threads
    have run, they have returned, the others have not started, and the
    globals are those of [n] successive calls of the function. *)
Lemma run_one_after_another (p : Platform) (n m : nat) (s : Rasterizer) :
  run_schedule p (one_after_another n) (replicate (n + m) AtCheck, s) =
  (replicate n Returned ++ replicate m AtCheck,
   Nat.iter n (SelectImplementation p) s).
Proof.
  revert m. induction n as [|n IH]; intros m; [reflexivity|].
  unfold one_after_another. rewrite seq_S, flat_map_app.
  rewrite run_schedule_app. fold (one_after_another n).
  replace (S n + m)%nat with (n + S m)%nat by lia. rewrite IH.
  cbn [flat_map]. rewrite app_nil_r.
  assert (Hn : (replicate n Returned ++ replicate (S m) AtCheck) !! (0 + n)%nat
               = Some AtCheck).
  { rewrite lookup_app_r by (rewrite length_replicate; lia).
    rewrite length_replicate. by replace (0 + n - n)%nat with 0%nat by lia. }
  rewrite (run_schedule_replicate _ _ _ _ _ _ Hn).
  rewrite run_call_SelectImplementation. cbn [fst snd Nat.iter].
  f_equal.
  rewrite insert_app_r_alt by (rewrite length_replicate; lia).
  rewrite length_replicate. replace (0 + n - n)%nat with 0%nat by lia.
  cbn [replicate insert list_insert].
  change (replicate n Returned ++ Returned :: replicate m AtCheck =
          replicate (S n) Returned ++ replicate m AtCheck).
  rewrite replicate_S_end, <- app_assoc. reflexivity.
Qed.

Lemma SelectImplementation_iter (p : Platform) (n : nat) (s : Rasterizer) :
  Nat.iter (S n) (SelectImplementation p) s = SelectImplementation p s.
Proof.
  induction n as [|n IH]; [reflexivity|].
  change (Nat.iter (S (S n)) (SelectImplementation p) s)
    with (SelectImplementation p (Nat.iter (S n) (SelectImplementation p) s)).
  rewrite IH. unfold SelectImplementation at 1.
  rewrite SelectImplementation_selected. reflexivity.
Qed.

Lemma SelectImplementation_one_line (p : Platform) :
  selections_performed (SelectImplementation p initial_rasterizer) = 1%nat.
Proof.
  unfold SelectImplementation, selections_performed.
  change (selected initial_rasterizer) with false. cbv iota.
  repeat (match goal with |- context [if ?b then _ else _] => destruct b end);
    reflexivity.
Qed.

(** C8, as stated, fails: two calls started together can both pass the test
    of [selected] before either stores to it; both then perform the
    selection, and they store to the flag without any ordering between
    them. *)
Lemma simultaneous_calls_both_select :
  let start : Threads := ([AtCheck; AtCheck], initial_rasterizer) in
  let c := run_schedule avx2_no_override
             [0; 1; 0; 1; 0; 1; 0; 1; 0; 1; 0; 1; 0; 1]%nat start in
  c.1 = [Returned; Returned] ∧
  selections_performed c.2 = 2%nat ∧
  conflict_on_selected (run_schedule avx2_no_override [0; 1]%nat start).
Proof.
  cbn. split; [reflexivity|]. split; [reflexivity|].
  exists 0%nat, 1%nat, AtSetSelected, AtSetSelected. repeat split. lia.
Qed.

(** C8, amended. The guard is a plain flag, tested and then set with no
    synchronisation. For calls that do not overlap, each running to its
    return before the next starts, exactly one selection takes effect: all
    the calls return, the globals are those the first call alone leaves and
    one line has been printed. *)
Theorem SelectImplementation_calls_in_turn (p : Platform) (n : nat) :
  (1 ≤ n)%nat →
  let c := run_schedule p (one_after_another n)
             (replicate n AtCheck, initial_rasterizer) in
  c.1 = replicate n Returned ∧
  c.2 = SelectImplementation p initial_rasterizer ∧
  selections_performed c.2 = 1%nat.
Proof.
  intros Hn. cbv zeta.
  pose proof (run_one_after_another p n 0 initial_rasterizer) as H.
  rewrite Nat.add_0_r, app_nil_r in H. rewrite H. cbn [fst snd].
  destruct n as [|n]; [lia|].
  rewrite SelectImplementation_iter.
  split; [done|]. split; [done|]. apply SelectImplementation_one_line.
Qed.

Lemma SelectImplementation_calls_in_turn_three :
  let c := run_schedule avx2_no_override (one_after_another 3)
             (replicate 3 AtCheck, initial_rasterizer) in
  c.1 = replicate 3 Returned ∧
  c.2 = SelectImplementation avx2_no_override initial_rasterizer ∧
  selections_performed c.2 = 1%nat.
Proof.
  apply (SelectImplementation_calls_in_turn avx2_no_override 3). lia.
Defined.

(* --------------------------------------------------------------------- *)
(** ** The translation string cache                                       *)
(* --------------------------------------------------------------------- *)

Section TranslationCacheFacts.

Variable Impl : string → string → Z → Z * list ascii.

(** Once the cache has been sized, translating the empty string answers
    element 0 and the length 0 and changes none of the globals. *)
Lemma LookupTranslationString_empty_sized (context : string)
    (t : Translations) :
  s_translation_string_cache t ≠ [] →
  LookupTranslationString Impl context "" t = ok ((0, 0), t).
Proof.
  intros Hne. unfold LookupTranslationString, element_address.
  rewrite decide_True by done.
  destruct (s_translation_string_cache t) as [|c cache]; [done|].
  rewrite decide_True by (cbn [length]; lia). reflexivity.
Qed.

(** The cache stays unsized through empty lookups and through
    [ClearTranslationCache]: only the part after [add_string] sizes it. *)
Lemma ClearTranslationCache_unsized (t : Translations) :
  s_translation_string_cache t = [] →
  s_translation_string_cache (ClearTranslationCache t) = [].
Proof. done. Qed.

End TranslationCacheFacts.

(** C9, at the input on which the code departs from it: before any
    non-empty lookup has sized the cache, the vector has no element, and
    translating the empty string takes the address of its element 0, which
    is outside the vector. *)
Theorem LookupTranslationString_empty_unsized
    (Impl : string → string → Z → Z * list ascii) (context : string) :
  length (s_translation_string_cache initial_translations) = 0%nat ∧
  LookupTranslationString Impl context "" initial_translations =
  fault OutOfBounds.
Proof. split; reflexivity. Qed.

(* --------------------------------------------------------------------- *)
(** ** The primitive routines and the DrawingArea                         *)
(* --------------------------------------------------------------------- *)

Lemma for_each_S {S : Type} (n : nat) (body : nat → S → Outcome S) (s : S) :
  for_each (Datatypes.S n) body s = for_each n body s ≫= body n.
Proof. unfold for_each. rewrite seq_S, foldl_app. reflexivity. Qed.

(** A loop whose body keeps an invariant indexed by the iteration neither
    faults nor loses it. *)
Lemma for_each_invariant {S : Type} (I : nat → S → Prop) (n : nat)
    (body : nat → S → Outcome S) (s : S) :
  I 0%nat s →
  (∀ i s, (i < n)%nat → I i s → ∃ s', body i s = ok s' ∧ I (Datatypes.S i) s') →
  ∃ s', for_each n body s = ok s' ∧ I n s'.
Proof.
  intros H0 Hstep. induction n as [|n IH].
  - exists s. split; [reflexivity|done].
  - destruct IH as (s1 & Hs1 & HI1).
    { intros i s0 Hi. apply Hstep. lia. }
    rewrite for_each_S, Hs1. cbn. apply Hstep; [lia|done].
Qed.

Section PrimitiveFacts.

Variable sample : Flags → Z → Z → Z → option Z.
Variable blend : Z → Z → Z.
Variable dither : Z → Z → Z → Z.
Variable da : DrawingArea.

(** What the pixel pipeline does to the canvas, for a pixel of the
    framebuffer. *)
Lemma ShadePixel_effect (f : Flags) (x y c : Z) (cv : Canvas) :
  in_framebuffer (framebuffer cv) x y →
  ∃ cv', ShadePixel sample blend dither f x y c cv = ok cv' ∧
    fb_width (framebuffer cv') = fb_width (framebuffer cv) ∧
    fb_height (framebuffer cv') = fb_height (framebuffer cv) ∧
    (∀ q, q ≠ (x, y) →
       fb_pixels (framebuffer cv') !! q = fb_pixels (framebuffer cv) !! q) ∧
    written cv' =
      if accepted sample f (framebuffer cv) x y c
      then (x, y) :: written cv else written cv.
Proof.
  intros Hfb. unfold ShadePixel, accepted, read_pixel, write_pixel.
  destruct (if textured f then sample f x y c else Some c) as [src|];
    [|by exists cv].
  rewrite decide_True by done. cbn.
  destruct (mask_check f && mask_bit (pixel_at (framebuffer cv) x y));
    [by exists cv|].
  rewrite decide_True by done. cbn.
  eexists. split; [reflexivity|]. cbn. repeat split.
  intros q Hq. by rewrite lookup_insert_ne.
Qed.

(** The bounds of the framebuffer are those of its size. *)
Lemma in_framebuffer_same_size (fb fb' : Framebuffer) (x y : Z) :
  fb_width fb' = fb_width fb → fb_height fb' = fb_height fb →
  in_framebuffer fb' x y ↔ in_framebuffer fb x y.
Proof. unfold in_framebuffer. by intros -> ->. Qed.

Lemma drawn_exactly_ext (f : Flags) (c : Z) (cv0 cv : Canvas)
    (V V' : Z → Z → Prop) :
  (∀ x y, V x y ↔ V' x y) →
  drawn_exactly sample da f c cv0 V cv → drawn_exactly sample da f c cv0 V' cv.
Proof.
  intros HV (Hw & Hh & Hwr & Hpx). repeat split; try done.
  - intros H. apply Hwr in H as [H|(H1 & H2)]; [by left|].
    right. by rewrite <- HV.
  - intros [H|(H1 & H2)]; apply Hwr; [by left|].
    right. by rewrite HV.
  - intros x y Hn. apply Hpx. by rewrite HV.
Qed.

(** Going through one more pixel, not visited before. The clip keeps the
    pixel pipeline inside the framebuffer, so that it returns. *)
Lemma clip_and_shade_exactly (f : Flags) (c : Z) (cv0 cv : Canvas)
    (V : Z → Z → Prop) (x y : Z) :
  ¬ V x y →
  drawn_exactly sample da f c cv0 V cv →
  ∃ cv', clip_and_shade sample blend dither da f x y c cv = ok cv' ∧
    drawn_exactly sample da f c cv0
      (λ x' y', V x' y' ∨ (x' = x ∧ y' = y)) cv'.
Proof.
  intros Hnew (Hw & Hh & Hwr & Hpx). unfold clip_and_shade.
  pose proof (in_framebuffer_same_size (framebuffer cv0) (framebuffer cv)
                x y Hw Hh) as Hsame.
  destruct (decide (in_area da x y ∧ in_framebuffer (framebuffer cv) x y))
    as [[Hin Hfb]|Hout].
  - assert (Hfb0 : in_framebuffer (framebuffer cv0) x y) by by apply Hsame.
    destruct (ShadePixel_effect f x y c cv Hfb)
      as (cv' & Hcv' & Hw' & Hh' & Hpx' & Hwr').
    exists cv'. split; [done|].
    assert (Hacc : accepted sample f (framebuffer cv) x y c =
                   accepted sample f (framebuffer cv0) x y c).
    { unfold accepted, pixel_at. rewrite (Hpx x y); [done|tauto]. }
    rewrite Hacc in Hwr'.
    split; [congruence|]. split; [congruence|]. split.
    + intros x' y'. rewrite Hwr'.
      destruct (accepted sample f (framebuffer cv0) x y c) eqn:Ha.
      * rewrite elem_of_cons, Hwr. split.
        -- intros [[= -> ->]|[H|(H1 & H2)]]; [|by left|].
           ++ right. split; [by right|done].
           ++ right. split; [by left|done].
        -- intros [H|([H1|[-> ->]] & H2)].
           ++ right. by left.
           ++ right. right. done.
           ++ by left.
      * rewrite Hwr. split.
        -- intros [H|(H1 & H2)]; [by left|].
           right. split; [by left|done].
        -- intros [H|([H1|[-> ->]] & H2 & H3 & H4)]; [by left| |congruence].
           right. done.
    + intros x' y' Hn. rewrite Hpx'.
      * apply Hpx. tauto.
      * intros [= -> ->]. tauto.
  - exists cv. split; [done|]. repeat split; try done.
    + intros H. apply Hwr in H as [H|(H1 & H2)]; [by left|].
      right. split; [by left|done].
    + intros [H|([H1|[-> ->]] & H2 & H3 & H4)]; apply Hwr; [by left| |tauto].
      right. done.
    + intros x' y' Hn. apply Hpx. tauto.
Qed.

(** The rectangle: the pixels written are those of the rectangle that lie
    in the DrawingArea and in the framebuffer and that the pipeline accepts
    on the content the framebuffer had at the start. *)
Lemma DrawRectangle_exactly (f : Flags) (origin_x origin_y : Z)
    (width height : nat) (c : Z) (cv0 : Canvas) :
  ∃ cv', DrawRectangle sample blend dither da f origin_x origin_y
           width height c cv0 = ok cv' ∧
    drawn_exactly sample da f c cv0
      (in_rectangle origin_x origin_y width height) cv'.
Proof.
  unfold DrawRectangle.
  destruct (for_each_invariant
    (λ k, drawn_exactly sample da f c cv0
            (rectangle_visited origin_x origin_y width k 0))
    height
    (λ offset_y, for_each width (λ offset_x,
       clip_and_shade sample blend dither da f
         (origin_x + Z.of_nat offset_x) (origin_y + Z.of_nat offset_y) c))
    cv0) as (cv' & Hcv' & Hinv).
  - repeat split; try done.
    + intros H. by left.
    + intros [H|(H & _)]; [done|]. unfold rectangle_visited in H. lia.
  - intros k cv Hk Hrow.
    destruct (for_each_invariant
      (λ m, drawn_exactly sample da f c cv0
              (rectangle_visited origin_x origin_y width k m))
      width
      (λ offset_x, clip_and_shade sample blend dither da f
         (origin_x + Z.of_nat offset_x) (origin_y + Z.of_nat k) c)
      cv Hrow) as (cv1 & Hcv1 & Hinv1).
    + intros m cvm Hm Hcol.
      destruct (clip_and_shade_exactly f c cv0 cvm
                  (rectangle_visited origin_x origin_y width k m)
                  (origin_x + Z.of_nat m) (origin_y + Z.of_nat k))
        as (cv2 & Hcv2 & Hinv2); [|exact Hcol|].
      { unfold rectangle_visited. lia. }
      exists cv2. split; [done|].
      eapply drawn_exactly_ext; [|exact Hinv2].
      intros x y. unfold rectangle_visited. cbn. lia.
    + exists cv1. split; [done|].
      eapply drawn_exactly_ext; [|exact Hinv1].
      intros x y. unfold rectangle_visited. lia.
  - exists cv'. split; [done|].
    eapply drawn_exactly_ext; [|exact Hinv].
    intros x y. unfold rectangle_visited, in_rectangle. lia.
Qed.

Lemma drawn_inside_refl (cv0 : Canvas) : drawn_inside da cv0 cv0.
Proof. repeat split. intros x y H. by left. Qed.

(** Whatever the pixel, the clip lets the pipeline run only inside the
    DrawingArea and the framebuffer: the call returns, and what it wrote is
    inside both. *)
Lemma clip_and_shade_inside (f : Flags) (x y c : Z) (cv0 cv : Canvas) :
  drawn_inside da cv0 cv →
  ∃ cv', clip_and_shade sample blend dither da f x y c cv = ok cv' ∧
    drawn_inside da cv0 cv'.
Proof.
  intros (Hw & Hh & Hwr & Hpx). unfold clip_and_shade.
  pose proof (in_framebuffer_same_size (framebuffer cv0) (framebuffer cv)
                x y Hw Hh) as Hsame.
  destruct (decide (in_area da x y ∧ in_framebuffer (framebuffer cv) x y))
    as [[Hin Hfb]|Hout]; [|by exists cv].
  assert (Hfb0 : in_framebuffer (framebuffer cv0) x y) by by apply Hsame.
  destruct (ShadePixel_effect f x y c cv Hfb)
    as (cv' & Hcv' & Hw' & Hh' & Hpx' & Hwr').
  exists cv'. split; [done|].
  split; [congruence|]. split; [congruence|]. split.
  - intros x' y'. rewrite Hwr'.
    destruct (accepted sample f (framebuffer cv) x y c); [|apply Hwr].
    rewrite elem_of_cons. intros [[= -> ->]|H]; [|by apply Hwr].
    right. done.
  - intros x' y' Hn. rewrite Hpx'; [by apply Hpx|].
    intros [= -> ->]. tauto.
Qed.

Lemma DrawRectangle_inside (f : Flags) (origin_x origin_y : Z)
    (width height : nat) (c : Z) (cv0 : Canvas) :
  ∃ cv', DrawRectangle sample blend dither da f origin_x origin_y
           width height c cv0 = ok cv' ∧
    drawn_inside da cv0 cv'.
Proof.
  unfold DrawRectangle.
  apply (for_each_invariant (λ _, drawn_inside da cv0));
    [apply drawn_inside_refl|].
  intros j cv Hj Hinv.
  apply (for_each_invariant (λ _, drawn_inside da cv0)); [done|].
  intros i cvi Hi Hinvi. by apply clip_and_shade_inside.
Qed.

Variable on_edge : Vertex → Vertex → bool.
Variable interpolate : Z → Z → Z → Vertex → Vertex → Vertex → Z.
Variable MAX_PRIMITIVE_SIZE : Z.

(** A scan over a box of pixels, each going through the clip. *)
Lemma scan_inside (f : Flags) (x_lo x_hi y_lo y_hi : Z)
    (keep : Z → Z → bool) (c : Z → Z → Z) (cv0 : Canvas) :
  ∃ cv',
    for_each (Z.to_nat (y_hi - y_lo + 1)) (λ j,
      for_each (Z.to_nat (x_hi - x_lo + 1)) (λ i,
        if keep (x_lo + Z.of_nat i) (y_lo + Z.of_nat j)
        then clip_and_shade sample blend dither da f
               (x_lo + Z.of_nat i) (y_lo + Z.of_nat j)
               (c (x_lo + Z.of_nat i) (y_lo + Z.of_nat j))
        else ok)) cv0 = ok cv' ∧
    drawn_inside da cv0 cv'.
Proof.
  apply (for_each_invariant (λ _, drawn_inside da cv0));
    [apply drawn_inside_refl|].
  intros j cv Hj Hinv.
  apply (for_each_invariant (λ _, drawn_inside da cv0)); [done|].
  intros i cvi Hi Hinvi.
  destruct (keep _ _); [|by exists cvi].
  by apply clip_and_shade_inside.
Qed.

End PrimitiveFacts.

Section TriangleAndLineFacts.

Variable sample : Flags → Z → Z → Z → option Z.
Variable blend : Z → Z → Z.
Variable dither : Z → Z → Z → Z.
Variable da : DrawingArea.
Variable on_edge : Vertex → Vertex → bool.
Variable interpolate : Z → Z → Z → Vertex → Vertex → Vertex → Z.
Variable MAX_PRIMITIVE_SIZE : Z.

(** The triangle: a degenerate one draws nothing, and the pixels of the
    scan go through the clip. *)
Lemma DrawTriangle_inside (f : Flags) (v0 v1 v2 : Vertex) (cv0 : Canvas) :
  ∃ cv', DrawTriangle sample blend dither on_edge interpolate
           MAX_PRIMITIVE_SIZE da f v0 v1 v2 cv0 = ok cv' ∧
    drawn_inside da cv0 cv'.
Proof.
  unfold DrawTriangle.
  set (area := edge_function v0 v1 (vx v2) (vy v2)).
  destruct (_ || _); [exists cv0; split; [done|apply drawn_inside_refl]|].
  apply (scan_inside sample blend dither da f _ _ _ _
           (λ x y, inside_edge on_edge area v1 v2 x y &&
                   inside_edge on_edge area v2 v0 x y &&
                   inside_edge on_edge area v0 v1 x y)
           (λ x y, interpolate (edge_function v1 v2 x y)
                     (edge_function v2 v0 x y) (edge_function v0 v1 x y)
                     v0 v1 v2)
           cv0).
Qed.

(** The line: every pixel of the stepper goes through the clip. *)
Lemma line_steps_inside (f : Flags) (v0 v1 : Vertex) (steps : nat)
    (x y err : Z) (cv0 cv : Canvas) :
  drawn_inside da cv0 cv →
  ∃ cv', line_steps sample blend dither interpolate da f v0 v1 steps
           x y err cv = ok cv' ∧
    drawn_inside da cv0 cv'.
Proof.
  revert x y err cv.
  induction steps as [|steps IH]; intros x y err cv Hinv; cbn [line_steps].
  - by exists cv.
  - cbv zeta.
    destruct (clip_and_shade_inside sample blend dither da f x y
                (interpolate (x - vx v0) (y - vy v0) 0 v0 v1 v1) cv0 cv
                Hinv) as (cv1 & -> & Hinv1).
    cbn. destruct (_ && _); [by exists cv1|]. by apply IH.
Qed.

Lemma Draw_inside (f : Flags) (prim : Primitive) (cv0 : Canvas) :
  ∃ cv', Draw sample blend dither on_edge interpolate MAX_PRIMITIVE_SIZE
           da f prim cv0 = ok cv' ∧
    drawn_inside da cv0 cv'.
Proof.
  destruct prim; cbn [Draw].
  - apply DrawRectangle_inside.
  - apply DrawTriangle_inside.
  - unfold DrawLine. apply line_steps_inside, drawn_inside_refl.
Qed.

End TriangleAndLineFacts.

(** C1, as stated, fails on the rectangle: with the mask-bit check on, a
    pixel of the rectangle that lies in the DrawingArea and whose existing
    content is masked is not written. The rectangle of width 3 at (0, 0)
    exceeds the DrawingArea of columns 0 and 1; (0, 0) is in both, and only
    (1, 0) is written. *)
Lemma masked_pixel_not_written :
  in_rectangle 0 0 3 1 0 0 ∧
  in_area two_pixel_area 0 0 ∧
  written_by
    (DrawRectangle plain_sample plain_blend plain_dither two_pixel_area
       (flat_flags true) 0 0 3 1 31 (mkCanvas small_framebuffer [])) =
  Some [(1, 0)].
Proof.
  split; [unfold in_rectangle; lia|].
  split; [unfold in_area; cbn; lia|].
  vm_compute. reflexivity.
Qed.

(** C1, amended. Whatever the DrawingArea, the framebuffer and the
    primitive, a rectangle, triangle or line draw returns without a fault,
    every pixel it writes lies in the DrawingArea and in the framebuffer,
    and the content of the framebuffer outside their intersection is left
    as it was. For a rectangle the pixels written are exactly those of the
    rectangle that lie in the DrawingArea and in the framebuffer and that
    the pixel pipeline accepts (the colour key keeps the texel and, under
    the mask-bit check, the existing content is not masked); for an
    untextured rectangle without mask-bit check they are exactly the
    intersection of the rectangle, the DrawingArea and the framebuffer. *)
Theorem Draw_clipped_to_DrawingArea
    (sample : Flags → Z → Z → Z → option Z) (blend : Z → Z → Z)
    (dither : Z → Z → Z → Z) (on_edge : Vertex → Vertex → bool)
    (interpolate : Z → Z → Z → Vertex → Vertex → Vertex → Z)
    (MAX_PRIMITIVE_SIZE : Z)
    (da : DrawingArea) (f : Flags) (prim : Primitive) (fb : Framebuffer) :
  ∃ cv',
    Draw sample blend dither on_edge interpolate MAX_PRIMITIVE_SIZE
      da f prim (mkCanvas fb []) = ok cv' ∧
    (∀ x y, (x, y) ∈ written cv' → in_area da x y ∧ in_framebuffer fb x y) ∧
    (∀ x y, ¬ (in_area da x y ∧ in_framebuffer fb x y) →
            fb_pixels (framebuffer cv') !! (x, y) = fb_pixels fb !! (x, y)) ∧
    match prim with
    | Rectangle origin_x origin_y width height c =>
        (∀ x y, (x, y) ∈ written cv' ↔
                in_rectangle origin_x origin_y width height x y ∧
                in_area da x y ∧ in_framebuffer fb x y ∧
                accepted sample f fb x y c = true) ∧
        (textured f = false → mask_check f = false →
         ∀ x y, (x, y) ∈ written cv' ↔
                in_rectangle origin_x origin_y width height x y ∧
                in_area da x y ∧ in_framebuffer fb x y)
    | _ => True
    end.
Proof.
  assert (Hinside : ∀ cv',
    drawn_inside da (mkCanvas fb []) cv' →
    (∀ x y, (x, y) ∈ written cv' → in_area da x y ∧ in_framebuffer fb x y) ∧
    (∀ x y, ¬ (in_area da x y ∧ in_framebuffer fb x y) →
            fb_pixels (framebuffer cv') !! (x, y) = fb_pixels fb !! (x, y))).
  { intros cv' (_ & _ & H & Hpx). split; [|exact Hpx].
    intros x y Hxy.
    destruct (H x y Hxy) as [Hnil|Hin]; [|exact Hin].
    cbn in Hnil. by apply elem_of_nil in Hnil. }
  destruct (Draw_inside sample blend dither da on_edge interpolate
              MAX_PRIMITIVE_SIZE f prim (mkCanvas fb []))
    as (cv' & Hcv' & Hin).
  exists cv'. split; [exact Hcv'|].
  destruct (Hinside cv' Hin) as [Hwr Hpx].
  split; [exact Hwr|]. split; [exact Hpx|].
  destruct prim as [origin_x origin_y width height c|v0 v1 v2|v0 v1];
    [|done|done].
  destruct (DrawRectangle_exactly sample blend dither da f origin_x origin_y
              width height c (mkCanvas fb []))
    as (cv'' & Hcv'' & _ & _ & Hexact & _).
  cbn [Draw] in Hcv'. rewrite Hcv' in Hcv''. injection Hcv'' as <-.
  cbn [framebuffer written] in Hexact.
  assert (Hex : ∀ x y, (x, y) ∈ written cv' ↔
            in_rectangle origin_x origin_y width height x y ∧
            in_area da x y ∧ in_framebuffer fb x y ∧
            accepted sample f fb x y c = true).
  { intros x y. rewrite Hexact. split; [|by right].
    intros [Hnil|H]; [by apply elem_of_nil in Hnil|done]. }
  split; [exact Hex|].
  intros Htex Hmask x y. rewrite Hex.
  unfold accepted. rewrite Htex, Hmask. cbn. tauto.
Qed.

Lemma Draw_clipped_rectangle_overhanging :
  ∃ cv',
    Draw plain_sample plain_blend plain_dither plain_on_edge
      plain_interpolate 1023 overhanging_area (flat_flags false)
      (Rectangle 13 14 5 3 31) (mkCanvas small_framebuffer []) = ok cv' ∧
    (∀ x y, (x, y) ∈ written cv' →
            in_area overhanging_area x y ∧
            in_framebuffer small_framebuffer x y) ∧
    (∀ x y, ¬ (in_area overhanging_area x y ∧
               in_framebuffer small_framebuffer x y) →
            fb_pixels (framebuffer cv') !! (x, y) =
            fb_pixels small_framebuffer !! (x, y)) ∧
    (∀ x y, (x, y) ∈ written cv' ↔
            in_rectangle 13 14 5 3 x y ∧ in_area overhanging_area x y ∧
            in_framebuffer small_framebuffer x y ∧
            accepted plain_sample (flat_flags false) small_framebuffer
              x y 31 = true) ∧
    (textured (flat_flags false) = false →
     mask_check (flat_flags false) = false →
     ∀ x y, (x, y) ∈ written cv' ↔
            in_rectangle 13 14 5 3 x y ∧ in_area overhanging_area x y ∧
            in_framebuffer small_framebuffer x y).
Proof.
  apply (Draw_clipped_to_DrawingArea plain_sample plain_blend plain_dither
           plain_on_edge plain_interpolate 1023 overhanging_area
           (flat_flags false) (Rectangle 13 14 5 3 31) small_framebuffer).
Defined.

(** The scenarios of the specification, run on the routines: a rectangle of
    5 by 5 at (10, 10) inside the DrawingArea writes 25 pixels, and the line
    from (0, 0) to (3, 0) writes the four pixels of row 0. *)
Example DrawRectangle_scenario :
  length <$>
    written_by
      (DrawRectangle plain_sample plain_blend plain_dither
         (mkDrawingArea 0 0 100 100) (flat_flags false) 10 10 5 5 31
         (mkCanvas (mkFramebuffer 1024 512 ∅) [])) = Some 25%nat.
Proof. vm_compute. reflexivity. Qed.

Example DrawLine_scenario :
  written_by
    (DrawLine plain_sample plain_blend plain_dither plain_interpolate
       (mkDrawingArea 0 0 100 100) (flat_flags false)
       (mkVertex 0 0 1) (mkVertex 3 0 2)
       (mkCanvas (mkFramebuffer 1024 512 ∅) [])) =
  Some [(3, 0); (2, 0); (1, 0); (0, 0)].
Proof. vm_compute. reflexivity. Qed.

(* ===================================================================== *)
(** * Part III. Further properties of the embedded code                   *)
(* ===================================================================== *)

(* --------------------------------------------------------------------- *)
(** ** The dither table                                                   *)
(* --------------------------------------------------------------------- *)

Lemma shiftr3_bounds (a : Z) :
  8 * Z.shiftr a 3 ≤ a < 8 * Z.shiftr a 3 + 8.
Proof.
  rewrite Z.shiftr_div_pow2 by lia. change (2 ^ 3) with 8.
  pose proof (Z.mul_div_le a 8). pose proof (Z.mul_succ_div_gt a 8). lia.
Qed.

Lemma saturate_5bit_cases (d : Z) :
  (d < 0 ∧ saturate_5bit d = 0) ∨
  (0 ≤ d ≤ 31 ∧ saturate_5bit d = d) ∨
  (31 < d ∧ saturate_5bit d = 31).
Proof. unfold saturate_5bit. lia. Qed.

(** An entry of the table in terms of the exact sum. *)
Lemma g_dither_lut_load_exact (N L : nat) (M : list (list Z)) (i j v : nat) :
  dither_sum_in_s32 N L M →
  (i < N)%nat → (j < N)%nat → (v < L)%nat →
  lut_load (g_dither_lut N L M) i j v =
  Some (saturate_5bit (Z.shiftr (Z.of_nat v + dither_matrix_at M i j) 3)).
Proof.
  intros Hs Hi Hj Hv. rewrite g_dither_lut_load by done.
  by rewrite dither_clamp_saturate, (dithered_value_exact N L).
Qed.

(** X2. Eight input levels make one output level: raising the input by 8
    never lowers the entry and raises it by at most one, and by exactly one
    when the biased input is not negative and the entry is not yet
    saturated. *)
Theorem g_dither_lut_step_8 (N L : nat) (M : list (list Z)) (i j v : nat)
    (e : Z) :
  dither_sum_in_s32 N L M →
  (i < N)%nat → (j < N)%nat → (v + 8 < L)%nat →
  lut_load (g_dither_lut N L M) i j v = Some e →
  ∃ e', lut_load (g_dither_lut N L M) i j (v + 8) = Some e' ∧
    e ≤ e' ≤ e + 1 ∧
    (0 ≤ Z.of_nat v + dither_matrix_at M i j → e < 31 → e' = e + 1).
Proof.
  intros Hs Hi Hj Hv He.
  rewrite g_dither_lut_load_exact in He by (done || lia).
  injection He as <-.
  eexists. split; [apply g_dither_lut_load_exact; done|].
  replace (Z.of_nat (v + 8) + dither_matrix_at M i j)
    with (Z.of_nat v + dither_matrix_at M i j + 8) by lia.
  pose proof (shiftr3_bounds (Z.of_nat v + dither_matrix_at M i j)) as H1.
  pose proof (shiftr3_bounds (Z.of_nat v + dither_matrix_at M i j + 8)) as H2.
  unfold saturate_5bit. lia.
Qed.

Lemma g_dither_lut_step_8_psx :
  ∃ e', lut_load (g_dither_lut 4 512 psx_dither_matrix) 0 1 24 = Some e' ∧
    2 ≤ e' ≤ 2 + 1 ∧
    (0 ≤ Z.of_nat 16 + dither_matrix_at psx_dither_matrix 0 1 → 2 < 31 →
     e' = 2 + 1).
Proof.
  assert (Hs32 : dither_sum_in_s32 4 512 psx_dither_matrix).
  { split; [vm_compute; discriminate|].
    intros i j Hi Hj.
    destruct i as [|[|[|[|i]]]]; try lia;
      destruct j as [|[|[|[|j]]]]; try lia; vm_compute; split; discriminate. }
  apply (g_dither_lut_step_8 4 512 psx_dither_matrix 0 1 16 2 Hs32);
    [lia | lia | lia |].
  rewrite g_dither_lut_load by lia. reflexivity.
Defined.

(** X3. Where the table saturates: an entry is 0 exactly when the biased
    input is below 8, and 31 exactly when it is 248 or more. *)
Theorem g_dither_lut_saturation (N L : nat) (M : list (list Z)) (i j v : nat)
    (e : Z) :
  dither_sum_in_s32 N L M →
  lut_load (g_dither_lut N L M) i j v = Some e →
  (e = 0 ↔ Z.of_nat v + dither_matrix_at M i j < 8) ∧
  (e = 31 ↔ 248 ≤ Z.of_nat v + dither_matrix_at M i j).
Proof.
  intros Hs He.
  destruct (g_dither_lut_load_inv _ _ _ _ _ _ _ He) as (Hi & Hj & Hv).
  rewrite g_dither_lut_load_exact in He by done. injection He as <-.
  pose proof (shiftr3_bounds (Z.of_nat v + dither_matrix_at M i j)) as H1.
  unfold saturate_5bit. lia.
Qed.

Lemma g_dither_lut_saturation_psx :
  (31 = 0 ↔ Z.of_nat 250 + dither_matrix_at psx_dither_matrix 1 0 < 8) ∧
  (31 = 31 ↔ 248 ≤ Z.of_nat 250 + dither_matrix_at psx_dither_matrix 1 0).
Proof.
  assert (Hs32 : dither_sum_in_s32 4 512 psx_dither_matrix).
  { split; [vm_compute; discriminate|].
    intros i j Hi Hj.
    destruct i as [|[|[|[|i]]]]; try lia;
      destruct j as [|[|[|[|j]]]]; try lia; vm_compute; split; discriminate. }
  apply (g_dither_lut_saturation 4 512 psx_dither_matrix 1 0 250 31 Hs32).
  rewrite g_dither_lut_load by lia. reflexivity.
Defined.

(** X4. The dither moves an output by at most one level: at two positions
    whose matrix entries are not more than 8 apart, the entries of the table
    for the same input differ by at most one, the larger bias giving the
    larger entry. *)
Theorem g_dither_lut_positions (N L : nat) (M : list (list Z))
    (i j i' j' v : nat) (e e' : Z) :
  dither_sum_in_s32 N L M →
  dither_matrix_at M i j ≤ dither_matrix_at M i' j' ≤
    dither_matrix_at M i j + 8 →
  lut_load (g_dither_lut N L M) i j v = Some e →
  lut_load (g_dither_lut N L M) i' j' v = Some e' →
  e ≤ e' ≤ e + 1.
Proof.
  intros Hs Hm He He'.
  destruct (g_dither_lut_load_inv _ _ _ _ _ _ _ He) as (Hi & Hj & Hv).
  destruct (g_dither_lut_load_inv _ _ _ _ _ _ _ He') as (Hi' & Hj' & _).
  rewrite g_dither_lut_load_exact in He, He' by done.
  injection He as <-. injection He' as <-.
  pose proof (shiftr3_bounds (Z.of_nat v + dither_matrix_at M i j)) as H1.
  pose proof (shiftr3_bounds (Z.of_nat v + dither_matrix_at M i' j')) as H2.
  unfold saturate_5bit. lia.
Qed.

Lemma g_dither_lut_positions_psx : 12 ≤ 13 ≤ 12 + 1.
Proof.
  assert (Hs32 : dither_sum_in_s32 4 512 psx_dither_matrix).
  { split; [vm_compute; discriminate|].
    intros i j Hi Hj.
    destruct i as [|[|[|[|i]]]]; try lia;
      destruct j as [|[|[|[|j]]]]; try lia; vm_compute; split; discriminate. }
  apply (g_dither_lut_positions 4 512 psx_dither_matrix 0 0 1 2 101 12 13 Hs32).
  - vm_compute. split; discriminate.
  - rewrite g_dither_lut_load by lia. reflexivity.
  - rewrite g_dither_lut_load by lia. reflexivity.
Defined.

(* --------------------------------------------------------------------- *)
(** ** Selection of the implementation                                    *)
(* --------------------------------------------------------------------- *)

Lemma SelectImplementation_chosen (p : Platform) :
  SelectImplementation p initial_rasterizer =
  match chosen_variant p with
  | Default =>
      print (if CPU_ARCH_SSE p && negb (cpuinfo_initialize p)
             then Log_ErrorPrint
                    "cpuinfo_initialize() failed, using default implementation"
             else Log_InfoPrint
                    "* Using default software rasterizer implementation.")
        (set_selected true initial_rasterizer)
  | isa => SELECT_ALTERNATIVE_RASTERIZER isa
             (set_selected true initial_rasterizer)
  end.
Proof.
  unfold SelectImplementation, chosen_variant, log_default.
  change (selected initial_rasterizer) with false. cbv iota.
  destruct (CPU_ARCH_SSE p); [|reflexivity].
  destruct (cpuinfo_initialize p); [|reflexivity].
  cbn [andb negb].
  destruct (cpuinfo_has_x86_avx2 p && _); [reflexivity|].
  destruct (cpuinfo_has_x86_sse4_1 p && _); reflexivity.
Qed.

Lemma SelectImplementation_tables_chosen (p : Platform) :
  tables_of (chosen_variant p) (SelectImplementation p initial_rasterizer).
Proof.
  rewrite SelectImplementation_chosen.
  destruct (chosen_variant p); repeat split.
Qed.

Lemma tables_of_unique (isa isa' : Implementation) (s : Rasterizer) :
  tables_of isa s → tables_of isa' s → isa = isa'.
Proof. intros (H & _) (H' & _). congruence. Qed.

(** X5. An alternative is selected only when the build has the SSE
    architecture, cpuinfo could be initialised, the processor has the
    extension and the override, if set, names the alternative: the function
    never selects a variant the processor does not support. *)
Theorem SelectImplementation_only_supported (p : Platform)
    (isa : Implementation) :
  tables_of isa (SelectImplementation p initial_rasterizer) →
  isa ≠ Default →
  CPU_ARCH_SSE p = true ∧ cpuinfo_initialize p = true ∧
  supported p isa = true ∧
  isa_allowed (getenv_SW_USE_ISA p) (isa_name isa) = true.
Proof.
  intros Htab Hisa.
  pose proof (tables_of_unique _ _ _ Htab (SelectImplementation_tables_chosen p))
    as ->.
  revert Hisa. unfold chosen_variant.
  destruct (CPU_ARCH_SSE p); [|done].
  destruct (cpuinfo_initialize p); [|done]. cbn [andb].
  destruct (cpuinfo_has_x86_avx2 p) eqn:Havx;
    destruct (isa_allowed (getenv_SW_USE_ISA p) "AVX2") eqn:Hall;
    cbn [andb]; try done;
    destruct (cpuinfo_has_x86_sse4_1 p) eqn:Hsse;
    destruct (isa_allowed (getenv_SW_USE_ISA p) "SSE4") eqn:Hall4;
    cbn [andb]; done.
Qed.

Lemma SelectImplementation_only_supported_lowercase :
  CPU_ARCH_SSE avx2_asked_sse4_lowercase = true ∧
  cpuinfo_initialize avx2_asked_sse4_lowercase = true ∧
  supported avx2_asked_sse4_lowercase SSE4 = true ∧
  isa_allowed (getenv_SW_USE_ISA avx2_asked_sse4_lowercase) (isa_name SSE4) =
  true.
Proof.
  apply (SelectImplementation_only_supported avx2_asked_sse4_lowercase SSE4).
  - repeat split.
  - discriminate.
Defined.

(** A build without [CPU_ARCH_SSE] reads neither the environment nor
    cpuinfo: the first call keeps the default tables and prints the default
    line, whatever the platform would answer. *)
Theorem SelectImplementation_without_sse (p : Platform) :
  CPU_ARCH_SSE p = false →
  SelectImplementation p initial_rasterizer =
  {| selected := true;
     SelectedDrawRectangleFunctions := Default;
     SelectedDrawTriangleFunctions := Default;
     SelectedDrawLineFunctions := Default;
     log := [Log_InfoPrint
               "* Using default software rasterizer implementation."] |}.
Proof.
  intros Hsse. unfold SelectImplementation. rewrite Hsse. reflexivity.
Qed.

Lemma SelectImplementation_without_sse_witness :
  SelectImplementation
    {| CPU_ARCH_SSE := false; getenv_SW_USE_ISA := Some "AVX2";
       cpuinfo_initialize := true; cpuinfo_has_x86_avx2 := true;
       cpuinfo_has_x86_sse4_1 := true |} initial_rasterizer =
  {| selected := true;
     SelectedDrawRectangleFunctions := Default;
     SelectedDrawTriangleFunctions := Default;
     SelectedDrawLineFunctions := Default;
     log := [Log_InfoPrint
               "* Using default software rasterizer implementation."] |}.
Proof.
  apply (SelectImplementation_without_sse
           {| CPU_ARCH_SSE := false; getenv_SW_USE_ISA := Some "AVX2";
              cpuinfo_initialize := true; cpuinfo_has_x86_avx2 := true;
              cpuinfo_has_x86_sse4_1 := true |}).
  reflexivity.
Defined.

(** X6. The first call prints exactly one line and the line tells the
    truth: it names the variant the three pointers address afterwards, or,
    when cpuinfo failed, it is the error line and the pointers address the
    default tables. *)
Theorem SelectImplementation_log_names_selection (p : Platform) :
  ∃ isa,
    tables_of isa (SelectImplementation p initial_rasterizer) ∧
    (log (SelectImplementation p initial_rasterizer) =
       [Log_InfoPrint
          ("* Using " ++ isa_name isa ++
           " software rasterizer implementation.")] ∨
     (isa = Default ∧ CPU_ARCH_SSE p = true ∧ cpuinfo_initialize p = false ∧
      log (SelectImplementation p initial_rasterizer) =
        [Log_ErrorPrint
           "cpuinfo_initialize() failed, using default implementation"])).
Proof.
  exists (chosen_variant p).
  split; [apply SelectImplementation_tables_chosen|].
  rewrite SelectImplementation_chosen.
  destruct (chosen_variant p) eqn:Hc; [|by left..].
  destruct (CPU_ARCH_SSE p); [|by left].
  destruct (cpuinfo_initialize p); [by left|]. right. done.
Qed.

(** X7. The three pointers are stored one after the other: a call that
    selects an alternative passes, after its fifth statement, through a
    state in which the rectangle pointer addresses the alternative while the
    triangle and line pointers still address the default tables. *)
Theorem SelectImplementation_partial_update (p : Platform)
    (isa : Implementation) :
  tables_of isa (SelectImplementation p initial_rasterizer) →
  isa ≠ Default →
  ∃ s, run_call p 5 AtCheck initial_rasterizer = (AtTriangle isa, s) ∧
    SelectedDrawRectangleFunctions s = isa ∧
    SelectedDrawTriangleFunctions s = Default ∧
    SelectedDrawLineFunctions s = Default.
Proof.
  intros Htab Hisa.
  pose proof (tables_of_unique _ _ _ Htab (SelectImplementation_tables_chosen p))
    as ->.
  revert Hisa. unfold chosen_variant. cbn [run_call call_step].
  change (selected initial_rasterizer) with false. cbv iota.
  cbn [run_call call_step].
  destruct (CPU_ARCH_SSE p); [|done].
  destruct (cpuinfo_initialize p); [|done]. cbn [andb negb].
  destruct (cpuinfo_has_x86_avx2 p && _).
  { intros _. eexists. split; [reflexivity|]. done. }
  destruct (cpuinfo_has_x86_sse4_1 p && _); [|done].
  intros _. eexists. split; [reflexivity|]. done.
Qed.

Lemma SelectImplementation_partial_update_avx2 :
  ∃ s, run_call avx2_no_override 5 AtCheck initial_rasterizer =
       (AtTriangle AVX2, s) ∧
    SelectedDrawRectangleFunctions s = AVX2 ∧
    SelectedDrawTriangleFunctions s = Default ∧
    SelectedDrawLineFunctions s = Default.
Proof.
  apply (SelectImplementation_partial_update avx2_no_override AVX2).
  - repeat split.
  - discriminate.
Defined.

(** The probing statement leads into the macro for the chosen variant, or
    out of the function when the default variant is chosen. *)
Lemma call_step_AtProbe (p : Platform) (s : Rasterizer) :
  ∃ pt' s', call_step p AtProbe s = Some (pt', s') ∧
    selected s' = selected s ∧
    (∀ tb, table_pointer tb s' = table_pointer tb s) ∧
    ((chosen_variant p ≠ Default ∧ pt' = AtUsing (chosen_variant p)) ∨
     (chosen_variant p = Default ∧ (pt' = AtDefault ∨ pt' = Returned))).
Proof.
  unfold call_step, chosen_variant.
  destruct (CPU_ARCH_SSE p); cbn [andb];
    [|eexists _, _; split; [reflexivity|]; repeat split; try (by intros []);
      right; split; [done|by left]].
  destruct (cpuinfo_initialize p); cbn [negb andb];
    [|eexists _, _; split; [reflexivity|]; repeat split; try (by intros []);
      right; split; [done|by right]].
  destruct (cpuinfo_has_x86_avx2 p && _);
    [eexists _, _; split; [reflexivity|]; repeat split; try (by intros []);
     left; done|].
  destruct (cpuinfo_has_x86_sse4_1 p && _);
    eexists _, _; (split; [reflexivity|]); repeat split; try (by intros []).
  - left. done.
  - right. split; [done|by left].
Qed.

(** One statement of one thread keeps [calls_agree]. *)
Lemma thread_step_agree (p : Platform) (i : nat) (c : Threads) :
  calls_agree p c → calls_agree p (thread_step p i c).
Proof.
  destruct c as [ts s]. intros [Hpts Htabs]. cbn [fst snd] in *.
  unfold thread_step. cbn [fst snd].
  destruct (ts !! i) as [pt|] eqn:Hi; [|by split].
  assert (Hlt : (i < length ts)%nat) by (by eapply lookup_lt_Some).
  pose proof (Hpts i pt Hi) as Hpt.
  (* the points of the other threads are those they had *)
  assert (Hothers : ∀ pt' j q,
    <[i:=pt']> ts !! j = Some q → (j = i ∧ q = pt') ∨ (j ≠ i ∧ ts !! j = Some q)).
  { intros pt' j q Hj. destruct (decide (j = i)) as [->|Hne].
    - rewrite list_lookup_insert_eq in Hj by done. left. by injection Hj.
    - rewrite list_lookup_insert_ne in Hj by done. by right. }
  (* a store ahead of another thread stays ahead while the flag is kept *)
  assert (Hkeep : ∀ pt' s' tb,
    selected s' = selected s →
    (∃ j q, ts !! j = Some q ∧ store_ahead tb q (selected s) = true) →
    (store_ahead tb pt (selected s) = true →
     store_ahead tb pt' (selected s') = true) →
    ∃ j q, <[i:=pt']> ts !! j = Some q ∧
           store_ahead tb q (selected s') = true).
  { intros pt' s' tb Hsel (j & q & Hj & Hq) Hmine.
    destruct (decide (j = i)) as [->|Hne].
    - exists i, pt'. rewrite list_lookup_insert_eq by done.
      split; [done|]. apply Hmine. by replace pt with q by congruence.
    - exists j, q. rewrite list_lookup_insert_ne by done.
      by rewrite Hsel. }
  destruct pt.
  - (* the test of the flag *)
    cbn [call_step].
    unfold calls_agree; cbn [fst snd]. split.
    + intros j q Hj. destruct (Hothers _ _ _ Hj) as [[-> ->]|[_ Hq]];
        [by destruct (selected s)|by eapply Hpts].
    + intros tb. destruct (Htabs tb) as [H|[H Hex]]; [by left|].
      right. split; [done|]. apply Hkeep; [done|done|].
      cbn. by destruct (selected s).
  - (* the store to the flag *)
    cbn [call_step].
    unfold calls_agree; cbn [fst snd]. split.
    + intros j q Hj. destruct (Hothers _ _ _ Hj) as [[-> ->]|[_ Hq]];
        [done|by eapply Hpts].
    + intros tb. destruct (Htabs tb) as [H|[H Hex]];
        [left; by destruct tb|].
      right. split; [by destruct tb|].
      exists i, AtProbe. by rewrite list_lookup_insert_eq.
  - (* the probing *)
    destruct (call_step_AtProbe p s) as (pt' & s' & -> & Hsel & Htb & Hnext).
    unfold calls_agree; cbn [fst snd]. split.
    + intros j q Hj. destruct (Hothers _ _ _ Hj) as [[-> ->]|[_ Hq]];
        [|by eapply Hpts].
      destruct Hnext as [[Hv ->]|[Hv [->| ->]]]; done.
    + intros tb. rewrite Htb.
      destruct (Htabs tb) as [H|[H Hex]]; [by left|].
      destruct Hnext as [[Hv ->]|[Hv _]]; [|left; congruence].
      right. split; [done|]. by apply Hkeep.
  - (* the print of the macro *)
    cbn [call_step].
    unfold calls_agree; cbn [fst snd]. split.
    + intros j q Hj. destruct (Hothers _ _ _ Hj) as [[-> ->]|[_ Hq]];
        [done|by eapply Hpts].
    + intros tb. destruct (Htabs tb) as [H|[H Hex]];
        [left; by destruct tb|].
      right. split; [by destruct tb|]. by apply Hkeep.
  - (* the store to the rectangle pointer *)
    cbn [call_step].
    destruct Hpt as [-> Hv]. unfold calls_agree; cbn [fst snd]. split.
    + intros j q Hj. destruct (Hothers _ _ _ Hj) as [[-> ->]|[_ Hq]];
        [done|by eapply Hpts].
    + intros tb. destruct (Htabs tb) as [H|[H Hex]]; destruct tb;
        try (by left); right; (split; [exact H|]); by apply Hkeep.
  - (* the store to the triangle pointer *)
    cbn [call_step].
    destruct Hpt as [-> Hv]. unfold calls_agree; cbn [fst snd]. split.
    + intros j q Hj. destruct (Hothers _ _ _ Hj) as [[-> ->]|[_ Hq]];
        [done|by eapply Hpts].
    + intros tb. destruct (Htabs tb) as [H|[H Hex]]; destruct tb;
        try (by left); right; (split; [exact H|]); by apply Hkeep.
  - (* the store to the line pointer *)
    cbn [call_step].
    destruct Hpt as [-> Hv]. unfold calls_agree; cbn [fst snd]. split.
    + intros j q Hj. destruct (Hothers _ _ _ Hj) as [[-> ->]|[_ Hq]];
        [done|by eapply Hpts].
    + intros tb. destruct (Htabs tb) as [H|[H Hex]]; destruct tb;
        try (by left); right; (split; [exact H|]); by apply Hkeep.
  - (* the default line *)
    cbn [call_step].
    cbn in Hpt. unfold calls_agree; cbn [fst snd]. split.
    + intros j q Hj. destruct (Hothers _ _ _ Hj) as [[-> ->]|[_ Hq]];
        [done|by eapply Hpts].
    + intros tb. destruct (Htabs tb) as [H|[H Hex]];
        [left; by destruct tb|].
      left. rewrite Hpt. by destruct tb.
  - (* returned *)
    cbn [call_step].
    by split.
Qed.

Lemma run_schedule_agree (p : Platform) (schedule : list nat) (c : Threads) :
  calls_agree p c → calls_agree p (run_schedule p schedule c).
Proof.
  revert c. induction schedule as [|i schedule IH]; intros c Hc; [done|].
  apply IH, thread_step_agree, Hc.
Qed.

(** X8. However the statements of any number of simultaneous first calls
    interleave, once all the calls have returned the three pointers address
    the tables a single call selects on that platform. *)
Theorem SelectImplementation_interleavings_agree (p : Platform) (n : nat)
    (schedule : list nat) :
  (1 ≤ n)%nat →
  let c := run_schedule p schedule (replicate n AtCheck, initial_rasterizer) in
  (∀ i pt, c.1 !! i = Some pt → pt = Returned) →
  ∀ isa,
    tables_of isa (SelectImplementation p initial_rasterizer) →
    tables_of isa c.2.
Proof.
  intros Hn c Hret isa Hisa.
  pose proof (tables_of_unique _ _ _ Hisa (SelectImplementation_tables_chosen p))
    as ->.
  assert (Hagree : calls_agree p c).
  { apply run_schedule_agree. split.
    - intros i pt Hi. apply lookup_replicate in Hi as [-> _]. done.
    - intros tb. right. split; [by destruct tb|].
      exists 0%nat, AtCheck. split; [|done].
      apply lookup_replicate. split; [done|lia]. }
  destruct Hagree as [_ Htabs].
  assert (Hall : ∀ tb, table_pointer tb c.2 = chosen_variant p).
  { intros tb. destruct (Htabs tb) as [H|[_ (i & pt & Hi & Hahead)]]; [done|].
    rewrite (Hret i pt Hi) in Hahead. done. }
  split; [exact (Hall RectangleTable)|].
  split; [exact (Hall TriangleTable)|exact (Hall LineTable)].
Qed.

Lemma SelectImplementation_interleavings_agree_two :
  tables_of AVX2
    (run_schedule avx2_no_override
       [0; 1; 0; 1; 0; 1; 0; 1; 0; 1; 0; 1; 0; 1]%nat
       (replicate 2 AtCheck, initial_rasterizer)).2.
Proof.
  apply (SelectImplementation_interleavings_agree avx2_no_override 2
           [0; 1; 0; 1; 0; 1; 0; 1; 0; 1; 0; 1; 0; 1]%nat).
  - lia.
  - intros i pt. vm_compute.
    destruct i as [|[|i]]; intros H; try discriminate H; by injection H.
  - repeat split.
Defined.

(* --------------------------------------------------------------------- *)
(** ** The DXGI format table and the texture object                       *)
(* --------------------------------------------------------------------- *)

Lemma LookupBaseFormat_from_None (l : list Z) (i : nat) (d : Z) :
  LookupBaseFormat_from l i d = None ↔ d ∉ l.
Proof.
  revert i. induction l as [|x l IH]; intros i; cbn.
  - split; [intros _; apply not_elem_of_nil|done].
  - rewrite not_elem_of_cons. destruct (Z.eqb_spec x d) as [->|Hne].
    + split; [done|]. intros [H _]. done.
    + rewrite IH. split; [intros H; split; [congruence|done]|by intros [_ H]].
Qed.

Lemma LookupBaseFormat_from_Some (l : list Z) (i r : nat) (d : Z) :
  LookupBaseFormat_from l i d = Some r →
  (i ≤ r)%nat ∧ l !! (r - i)%nat = Some d.
Proof.
  revert i. induction l as [|x l IH]; intros i; cbn; [done|].
  destruct (Z.eqb_spec x d) as [->|Hne].
  - intros [= ->]. split; [lia|]. by rewrite Nat.sub_diag.
  - intros H. apply IH in H as [Hle Hl]. split; [lia|].
    replace (r - i)%nat with (S (r - S i)) by lia. done.
Qed.

(** X9. A DXGI format that is not in the table is answered by
    [Format::Unknown]. *)
Theorem LookupBaseFormat_not_in_table (Count Unknown : nat) (dformat : Z) :
  dformat ∉ s_dxgi_mapping Count →
  LookupBaseFormat Count Unknown dformat = Unknown.
Proof.
  intros Hd. unfold LookupBaseFormat.
  apply LookupBaseFormat_from_None with (i := 0%nat) in Hd. by rewrite Hd.
Qed.

Lemma LookupBaseFormat_not_in_table_R16 :
  LookupBaseFormat 7 0 56 = 0%nat.
Proof.
  apply (LookupBaseFormat_not_in_table 7 0 56).
  apply (bool_decide_unpack _). vm_compute. exact I.
Defined.

(** X10. The other round trip: a DXGI format that is in the table is
    answered by a format below [Count] whose DXGI format it is. *)
Theorem LookupBaseFormat_in_table (Count Unknown : nat) (dformat : Z) :
  dformat ∈ s_dxgi_mapping Count →
  (LookupBaseFormat Count Unknown dformat < length (s_dxgi_mapping Count))%nat ∧
  GetDXGIFormat Count (LookupBaseFormat Count Unknown dformat) = Some dformat.
Proof.
  intros Hd. unfold LookupBaseFormat, GetDXGIFormat.
  destruct (LookupBaseFormat_from (s_dxgi_mapping Count) 0 dformat) as [r|]
    eqn:Hr.
  - apply LookupBaseFormat_from_Some in Hr as [_ Hr].
    rewrite Nat.sub_0_r in Hr. split; [by eapply lookup_lt_Some|done].
  - apply LookupBaseFormat_from_None in Hr. done.
Qed.

Lemma LookupBaseFormat_in_table_D16 :
  (LookupBaseFormat 7 0 DXGI_FORMAT_D16_UNORM < length (s_dxgi_mapping 7))%nat ∧
  GetDXGIFormat 7 (LookupBaseFormat 7 0 DXGI_FORMAT_D16_UNORM) =
  Some DXGI_FORMAT_D16_UNORM.
Proof.
  apply (LookupBaseFormat_in_table 7 0 DXGI_FORMAT_D16_UNORM).
  apply (bool_decide_unpack _). vm_compute. exact I.
Defined.

Local Ltac Create_cases H :=
  unfold Create in H; cbv zeta in H;
  repeat match type of H with
         | context [if ?b then _ else _] => destruct b eqn:?
         | context [match ?o with Some _ => _ | None => _ end] =>
             destruct o eqn:?
         end;
  simplify_eq.

(** X11. When [Create] returns false it has changed nothing of the object,
    and it has printed one error line. *)
Theorem Create_failure_keeps_object (Count : nat) (beyond : nat → Z)
    (device : ID3D11Device)
    (width height layers levels samples : Z) (type : TextureType)
    (format : nat) (has_initial_data dynamic : bool) (t t' : D3D11Texture)
    (lines : list LogLine) :
  Create Count beyond device width height layers levels samples type format
    has_initial_data dynamic t = (false, t', lines) →
  t' = t ∧ ∃ msg, lines = [Log_ErrorPrint msg].
Proof.
  intros H.
  Create_cases H; (split; [reflexivity|eexists; reflexivity]).
Qed.

Lemma Create_failure_keeps_object_oversize :
  no_texture = no_texture ∧
  ∃ msg, [too_large_line] = [Log_ErrorPrint msg].
Proof.
  apply (Create_failure_keeps_object 7 (λ _, 0) willing_device 20000 16 1 1 1
           Texture 1 false false no_texture no_texture [too_large_line]).
  reflexivity.
Defined.

Lemma has_flag_SHADER_RESOURCE (type : TextureType) :
  has_flag (bind_flags_of type) D3D11_BIND_SHADER_RESOURCE =
  match type with
  | RenderTarget | Texture | RWTexture => true
  | _ => false
  end.
Proof. by destruct type. Qed.

Lemma has_flag_RENDER_TARGET (type : TextureType) :
  has_flag (bind_flags_of type) D3D11_BIND_RENDER_TARGET =
  match type with RenderTarget => true | _ => false end.
Proof. by destruct type. Qed.

Lemma has_flag_DEPTH_STENCIL (type : TextureType) :
  has_flag (bind_flags_of type) D3D11_BIND_DEPTH_STENCIL =
  match type with DepthStencil => true | _ => false end.
Proof. by destruct type. Qed.

(** X12. When [Create] returns true the object holds a texture, its width
    and height are the ones asked for (the limits refused before the
    conversion to [u16] are below 65536), its format and its dynamic flag
    are the ones asked for and nothing was printed. The format is stored as
    it was given, whether or not it is one of the table: nothing checks it.
    The number of layers is the one asked for only below 256: the limit on
    it is 2048 and the member is a [u8]. *)
Theorem Create_success_properties (Count : nat) (beyond : nat → Z)
    (device : ID3D11Device)
    (width height layers levels samples : Z) (type : TextureType)
    (format : nat) (has_initial_data dynamic : bool) (t t' : D3D11Texture)
    (lines : list LogLine) :
  0 ≤ width → 0 ≤ height → 0 ≤ layers →
  Create Count beyond device width height layers levels samples type format
    has_initial_data dynamic t = (true, t', lines) →
  IsValid t' = true ∧
  m_width (base t') = width ∧ width ≤ 16384 ∧
  m_height (base t') = height ∧ height ≤ 16384 ∧
  m_layers (base t') = layers mod 256 ∧ layers ≤ 2048 ∧
  (layers < 256 → m_layers (base t') = layers) ∧
  (layers ≤ 1 ∨ samples ≤ 1) ∧
  m_format (base t') = format ∧
  m_dynamic t' = dynamic ∧
  lines = [].
Proof.
  intros Hw Hh Hl H.
  assert (Hfacts : width ≤ 16384 ∧ height ≤ 16384 ∧ layers ≤ 2048 ∧
                   (layers ≤ 1 ∨ samples ≤ 1)).
  { unfold Create in H.
    destruct (_ || _) eqn:Hb in H; [discriminate H|].
    unfold D3D11_REQ_TEXTURE2D_U_OR_V_DIMENSION,
      D3D11_REQ_TEXTURE2D_ARRAY_AXIS_DIMENSION in Hb.
    apply orb_false_elim in Hb as [Hb Hms].
    apply orb_false_elim in Hb as [Hb Hlay].
    apply orb_false_elim in Hb as [Hwd Hhg].
    apply Z.ltb_ge in Hwd, Hhg, Hlay.
    assert (Hnot : ¬ (1 < layers ∧ 1 < samples)).
    { intros [Hx Hy]. apply Z.ltb_lt in Hx, Hy.
      rewrite Hx, Hy in Hms. discriminate Hms. }
    repeat split; lia. }
  destruct Hfacts as (Hw' & Hh' & Hl' & Hls).
  assert (Hobj : IsValid t' = true ∧
                 base t' = {| m_width := to_u16 width;
                              m_height := to_u16 height;
                              m_layers := to_u8 layers;
                              m_levels := to_u8 levels;
                              m_samples := to_u8 samples;
                              m_format := format |} ∧
                 m_dynamic t' = dynamic ∧ lines = []).
  { Create_cases H; done. }
  destruct Hobj as (Hv & Hb & Hd & Hlines). rewrite Hb. cbn.
  unfold to_u16, to_u8.
  rewrite !Z.mod_small by lia.
  repeat split; try done. intros Hlt. rewrite Z.mod_small; lia.
Qed.

Lemma Create_success_properties_dynamic :
  ∃ t',
    Create 7 (λ _, 0) willing_device 640 480 1 1 1 Texture 1 false true
      no_texture = (true, t', []) ∧
    IsValid t' = true ∧
    m_width (base t') = 640 ∧ m_height (base t') = 480 ∧
    m_format (base t') = 1%nat ∧
    m_dynamic t' = true.
Proof.
  eexists. split; [reflexivity|].
  pose proof (Create_success_properties 7 (λ _, 0) willing_device 640 480 1 1
                1 Texture 1 false true no_texture _ [] ltac:(lia) ltac:(lia)
                ltac:(lia) eq_refl) as H.
  destruct H as (H1 & H2 & _ & H3 & _ & _ & _ & _ & _ & H5 & H4 & _).
  done.
Defined.

(** X13. The views a created texture holds follow from its type: a shader
    resource view for every type but the depth-stencil one, a target view
    for render targets and depth-stencil textures only. *)
Theorem Create_views (Count : nat) (beyond : nat → Z)
    (device : ID3D11Device)
    (width height layers levels samples : Z) (type : TextureType)
    (format : nat) (has_initial_data dynamic : bool) (t t' : D3D11Texture)
    (lines : list LogLine) :
  Create Count beyond device width height layers levels samples type format
    has_initial_data dynamic t = (true, t', lines) →
  (is_Some (m_srv t') ↔
   type = RenderTarget ∨ type = Texture ∨ type = RWTexture) ∧
  (is_Some (m_rtv_dsv t') ↔ type = RenderTarget ∨ type = DepthStencil).
Proof.
  intros H. unfold Create in H. cbv zeta in H.
  rewrite has_flag_SHADER_RESOURCE, has_flag_RENDER_TARGET,
    has_flag_DEPTH_STENCIL in H.
  destruct (_ || _) in H; [discriminate H|].
  destruct (CreateTexture2D _ _ _) in H; [|discriminate H].
  destruct type; cbv iota in H;
    try (destruct (CreateShaderResourceView _ _ _) in H);
    try (destruct (CreateRenderTargetView _ _ _) in H);
    try (destruct (CreateDepthStencilView _ _ _) in H);
    simplify_eq; cbn; split; split;
    try (intros [? ?]; discriminate);
    try (intros [?|[?|?]]; discriminate);
    try (intros [?|?]; discriminate);
    try (intros _; by eexists);
    try (intros _; tauto).
Qed.

Lemma Create_views_depth_stencil :
  ∃ t',
    Create 7 (λ _, 0) willing_device 640 480 1 1 1 DepthStencil 6 false false
      no_texture = (true, t', []) ∧
    ¬ is_Some (m_srv t') ∧ is_Some (m_rtv_dsv t').
Proof.
  eexists. split; [reflexivity|].
  destruct (Create_views 7 (λ _, 0) willing_device 640 480 1 1 1 DepthStencil
              6 false false no_texture _ [] eq_refl) as [Hsrv Hdsv].
  split.
  - intros H. apply Hsrv in H as [H|[H|H]]; discriminate H.
  - apply Hdsv. by right.
Defined.

Section MappingFacts.

Variable GetPixelSize : nat → Z.
Variable context_Map : option nat → Z → Z → option (Z * Z).

(** What a successful [Map] has checked and done. *)
Lemma Map_success (x y width height layer level : Z) (t t' : D3D11Texture)
    (calls calls' : list ContextCall) (r : Z * Z) :
  Map GetPixelSize context_Map x y width height layer level t calls =
    (Some r, t', calls') →
  m_dynamic t = true ∧
  to_u32 (x + width) ≤ m_width (base t) ∧
  to_u32 (y + height) ≤ m_height (base t) ∧
  layer ≤ m_layers (base t) ∧ level ≤ m_levels (base t) ∧
  ∃ map_type,
    map_type =
      (if (width =? m_width (base t)) && (height =? m_height (base t))
       then D3D11_MAP_WRITE_DISCARD else D3D11_MAP_WRITE) ∧
    calls' =
      calls ++
      [CallMap (m_texture t)
         (D3D11CalcSubresource level layer (m_levels (base t)))
         map_type true] ∧
    t' = {| m_texture := m_texture t; m_srv := m_srv t;
            m_rtv_dsv := m_rtv_dsv t; base := base t;
            m_dynamic := m_dynamic t;
            m_mapped_subresource :=
              D3D11CalcSubresource level layer (m_levels (base t)) |}.
Proof.
  unfold Map. intros H.
  destruct (_ || _) eqn:Hb in H; [discriminate H|].
  apply orb_false_elim in Hb as [Hb Hlev].
  apply orb_false_elim in Hb as [Hb Hlay].
  apply orb_false_elim in Hb as [Hb Hh].
  apply orb_false_elim in Hb as [Hdyn Hw].
  apply Z.ltb_ge in Hw, Hh, Hlay, Hlev.
  apply negb_false_iff in Hdyn.
  cbv zeta in H.
  destruct (context_Map _ _ _) as [[pData RowPitch]|] in H; [|discriminate H].
  injection H as <- <- <-.
  repeat split; try done. eexists. repeat split.
Qed.

End MappingFacts.

(** X14. A map that succeeds lies inside the texture: the texture is
    dynamic and, for a region whose sums do not leave [u32], the region ends
    within the width and the height; the layer and the level are at most
    [m_layers] and [m_levels]. *)
Theorem Map_region_inside (GetPixelSize : nat → Z)
    (context_Map : option nat → Z → Z → option (Z * Z))
    (x y width height layer level : Z) (t t' : D3D11Texture)
    (calls calls' : list ContextCall) (r : Z * Z) :
  0 ≤ x → 0 ≤ width → x + width < 2 ^ 32 →
  0 ≤ y → 0 ≤ height → y + height < 2 ^ 32 →
  Map GetPixelSize context_Map x y width height layer level t calls =
    (Some r, t', calls') →
  m_dynamic t = true ∧
  x + width ≤ m_width (base t) ∧ y + height ≤ m_height (base t) ∧
  layer ≤ m_layers (base t) ∧ level ≤ m_levels (base t).
Proof.
  intros Hx Hw Hxw Hy Hh Hyh H.
  apply Map_success in H as (Hd & Hw' & Hh' & Hlay & Hlev & _).
  unfold to_u32 in Hw', Hh'. rewrite Z.mod_small in Hw', Hh' by lia.
  done.
Qed.

Lemma Map_region_inside_witness :
  m_dynamic dynamic_texture_256 = true ∧
  16 + 32 ≤ m_width (base dynamic_texture_256) ∧
  8 + 64 ≤ m_height (base dynamic_texture_256) ∧
  0 ≤ m_layers (base dynamic_texture_256) ∧
  0 ≤ m_levels (base dynamic_texture_256).
Proof.
  eapply (Map_region_inside (λ _, 4) willing_context_Map 16 8 32 64 0 0
            dynamic_texture_256 _ [] _ _); try lia.
  reflexivity.
Defined.

(** X15. A map that discards the previous content covers the whole texture
    from its origin: when the context was asked for [WRITE_DISCARD], the
    region, if its sums do not leave [u32], starts at (0, 0) and has the
    width and the height of the texture. *)
Theorem Map_discard_whole_texture (GetPixelSize : nat → Z)
    (context_Map : option nat → Z → Z → option (Z * Z))
    (x y width height layer level : Z) (t t' : D3D11Texture)
    (calls calls' : list ContextCall) (r : Z * Z) (texture : option nat)
    (subresource : Z) :
  0 ≤ x → 0 ≤ width → x + width < 2 ^ 32 →
  0 ≤ y → 0 ≤ height → y + height < 2 ^ 32 →
  Map GetPixelSize context_Map x y width height layer level t calls =
    (Some r, t', calls') →
  last calls' = Some (CallMap texture subresource D3D11_MAP_WRITE_DISCARD true) →
  x = 0 ∧ y = 0 ∧ width = m_width (base t) ∧ height = m_height (base t).
Proof.
  intros Hx Hw Hxw Hy Hh Hyh H Hlast.
  apply Map_success in H
    as (Hd & Hw' & Hh' & Hlay & Hlev & ty & Hty & -> & _).
  unfold to_u32 in Hw', Hh'. rewrite Z.mod_small in Hw', Hh' by lia.
  rewrite last_snoc in Hlast. injection Hlast as _ _ Hdisc.
  rewrite Hdisc in Hty.
  destruct ((width =? _) && (height =? _)) eqn:Hb; [|discriminate Hty].
  apply andb_prop in Hb as [Hwe Hhe]. apply Z.eqb_eq in Hwe, Hhe. lia.
Qed.

Lemma Map_discard_whole_texture_witness :
  0 = 0 ∧ 0 = 0 ∧ 256 = m_width (base dynamic_texture_256) ∧
  256 = m_height (base dynamic_texture_256).
Proof.
  eapply (Map_discard_whole_texture (λ _, 4) willing_context_Map 0 0 256 256
            0 0 dynamic_texture_256 _ [] _ _ _ _); try lia.
  - reflexivity.
  - reflexivity.
Defined.

(** X16. A texture created without the dynamic flag cannot be mapped: every
    [Map] on it returns false, changes nothing and calls nothing. *)
Theorem Create_static_never_maps (Count : nat) (beyond : nat → Z)
    (device : ID3D11Device)
    (width height layers levels samples : Z) (type : TextureType)
    (format : nat) (has_initial_data : bool) (t t' : D3D11Texture)
    (lines : list LogLine) (GetPixelSize : nat → Z)
    (context_Map : option nat → Z → Z → option (Z * Z))
    (x y w h layer level : Z) (calls : list ContextCall) :
  Create Count beyond device width height layers levels samples type format
    has_initial_data false t = (true, t', lines) →
  Map GetPixelSize context_Map x y w h layer level t' calls =
  (None, t', calls).
Proof.
  intros H.
  assert (Hd : m_dynamic t' = false) by (Create_cases H; done).
  unfold Map. by rewrite Hd.
Qed.

Lemma Create_static_never_maps_witness :
  ∃ t',
    Create 7 (λ _, 0) willing_device 640 480 1 1 1 Texture 1 false false
      no_texture = (true, t', []) ∧
    Map (λ _, 4) willing_context_Map 0 0 640 480 0 0 t' [] = (None, t', []).
Proof.
  eexists. split; [reflexivity|].
  apply (Create_static_never_maps 7 (λ _, 0) willing_device 640 480 1 1 1
           Texture 1 false no_texture _ [] (λ _, 4) willing_context_Map 0 0
           640 480 0 0 []).
  reflexivity.
Defined.

(** X17. [Update] never leaves a texture mapped. On a dynamic texture an
    update that returns true has mapped one subresource, copied the rows and
    unmapped the same subresource, and [m_mapped_subresource] is 0 again; an
    update that returns false has left the object as it was. *)
Theorem Update_dynamic_balanced (GetPixelSize : nat → Z)
    (context_Map : option nat → Z → Z → option (Z * Z))
    (x y width height pitch layer level : Z) (t t' : D3D11Texture)
    (calls calls' : list ContextCall) (b : bool) :
  m_dynamic t = true →
  Update GetPixelSize context_Map x y width height pitch layer level t calls =
    (b, t', calls') →
  if b then
    ∃ subresource map_type map map_stride,
      calls' =
        calls ++
        [CallMap (m_texture t) subresource map_type true;
         CallStrideMemCpy map map_stride pitch
           (to_u32 (GetPixelSize (m_format (base t)) * width)) height;
         CallUnmap (m_texture t) subresource] ∧
      m_mapped_subresource t' = 0 ∧
      m_texture t' = m_texture t ∧ base t' = base t ∧ m_dynamic t' = true
  else t' = t.
Proof.
  intros Hd H. unfold Update in H. rewrite Hd in H.
  destruct (Map _ _ _ _ _ _ _ _ _ _) as [[[[map stride]|] t1] calls1] eqn:HMap.
  - apply Map_success in HMap
      as (_ & _ & _ & _ & _ & ty & _ & -> & ->).
    cbn in H. injection H as <- <- <-.
    eexists _, ty, map, stride. cbn.
    split; [by rewrite <- !app_assoc|]. done.
  - injection H as <- <- <-.
    unfold Map in HMap.
    destruct (_ || _) in HMap; [by injection HMap|].
    cbv zeta in HMap.
    destruct (context_Map _ _ _) as [[pData RowPitch]|] in HMap;
      [discriminate HMap|by injection HMap].
Qed.

Lemma Update_dynamic_balanced_witness :
  ∃ t' calls',
    Update (λ _, 4) willing_context_Map 16 8 32 64 128 0 0
      dynamic_texture_256 [] = (true, t', calls') ∧
    length calls' = 3%nat ∧ m_mapped_subresource t' = 0.
Proof.
  eexists _, _. split; [reflexivity|].
  pose proof (Update_dynamic_balanced (λ _, 4) willing_context_Map
                16 8 32 64 128 0 0 dynamic_texture_256 _ [] _ true
                eq_refl eq_refl) as (sr & ty & map & stride & Hc & Hm & _).
  split; [by rewrite Hc|exact Hm].
Defined.

(** X18. [Update] checks the region on dynamic textures only. For a region
    that ends beyond the width of the texture, a dynamic texture refuses the
    update without calling the context, while a texture that is not dynamic
    returns true and hands the region to [UpdateSubresource] as it is. *)
Theorem Update_region_checked_when_dynamic (GetPixelSize : nat → Z)
    (context_Map : option nat → Z → Z → option (Z * Z))
    (x y width height pitch layer level : Z) (t : D3D11Texture)
    (calls : list ContextCall) :
  0 ≤ x → 0 ≤ width →
  m_width (base t) < x + width < 2 ^ 32 →
  Update GetPixelSize context_Map x y width height pitch layer level t calls =
  if m_dynamic t then (false, t, calls)
  else
    (true, t,
     calls ++
     [CallUpdateSubresource (m_texture t)
        (D3D11CalcSubresource level layer (m_levels (base t)))
        (to_s32 x) (to_s32 y) 0 (to_s32 (x + width))
        (to_s32 (to_u32 (y + height))) 1 pitch]).
Proof.
  intros Hx Hw Hxw. unfold Update, Map.
  assert (Hu : to_u32 (x + width) = x + width)
    by (unfold to_u32; rewrite Z.mod_small; lia).
  rewrite Hu.
  destruct (m_dynamic t); [|reflexivity].
  cbn [negb orb].
  replace (m_width (base t) <? x + width) with true
    by (symmetry; apply Z.ltb_lt; lia).
  reflexivity.
Qed.

Lemma Update_region_checked_when_dynamic_witness :
  Update (λ _, 4) willing_context_Map 200 0 100 16 400 0 0
    dynamic_texture_256 [] = (false, dynamic_texture_256, []).
Proof.
  apply (Update_region_checked_when_dynamic (λ _, 4) willing_context_Map
           200 0 100 16 400 0 0 dynamic_texture_256 []); cbn; lia.
Defined.

Lemma Destroy_releases (ClearBaseProperties : GPUTextureBase → GPUTextureBase)
    (t : D3D11Texture) :
  IsValid (Destroy ClearBaseProperties t) = false ∧
  m_dynamic (Destroy ClearBaseProperties t) = false.
Proof. by split. Qed.

(* --------------------------------------------------------------------- *)
(** ** The translation string cache and its callers                       *)
(* --------------------------------------------------------------------- *)

Lemma TRANSLATION_STRING_CACHE_SIZE_value :
  TRANSLATION_STRING_CACHE_SIZE = 4194304.
Proof. reflexivity. Qed.


Lemma element_address_ok (v : list ascii) (i : Z) :
  0 ≤ i < Z.of_nat (length v) → element_address v i = ok i.
Proof. intros H. unfold element_address. by rewrite decide_True. Qed.


Lemma element_store_ok (v : list ascii) (i : Z) (c : ascii) :
  0 ≤ i < Z.of_nat (length v) →
  element_store v i c = ok (<[Z.to_nat i := c]> v).
Proof. intros H. unfold element_store. by rewrite decide_True. Qed.

Lemma ensure_sized_map (t : Translations) :
  s_translation_string_map (ensure_sized t) = s_translation_string_map t.
Proof. unfold ensure_sized. by destruct (s_translation_string_cache t). Qed.

Lemma ensure_sized_length (t : Translations) :
  cache_unsized_or_full t →
  Z.of_nat (length (s_translation_string_cache (ensure_sized t))) =
  TRANSLATION_STRING_CACHE_SIZE.
Proof.
  intros [He|Hf]; unfold ensure_sized.
  - rewrite He. cbn [s_translation_string_cache].
    rewrite length_insert, length_replicate.
    rewrite Z2Nat.id; [done|]. rewrite TRANSLATION_STRING_CACHE_SIZE_value. lia.
  - destruct (s_translation_string_cache t) eqn:E; [|by rewrite <- E in *].
    cbn in Hf. rewrite TRANSLATION_STRING_CACHE_SIZE_value in Hf. lia.
Qed.

Lemma ensure_sized_sized (t : Translations) :
  s_translation_string_cache t ≠ [] → ensure_sized t = t.
Proof. unfold ensure_sized. by destruct (s_translation_string_cache t). Qed.

Section TranslationCacheMore.

Variable Impl : string → string → Z → Z * list ascii.

#[local] Opaque TRANSLATION_STRING_CACHE_SIZE.


Lemma translate_into_cache_ok (context msg : string) (t : Translations) :
  0 ≤ s_translation_string_cache_pos t <
    Z.of_nat (length (s_translation_string_cache t)) →
  translate_into_cache Impl context msg t =
  ok ((Impl context msg
         (to_u32 (TRANSLATION_STRING_CACHE_SIZE - 1 -
                  s_translation_string_cache_pos t))).1,
      {| s_translation_string_map := s_translation_string_map t;
         s_translation_string_cache :=
           list_inserts (Z.to_nat (s_translation_string_cache_pos t))
             (Impl context msg
                (to_u32 (TRANSLATION_STRING_CACHE_SIZE - 1 -
                         s_translation_string_cache_pos t))).2
             (s_translation_string_cache t);
         s_translation_string_cache_pos :=
           s_translation_string_cache_pos t |}).
Proof.
  intros Hpos. unfold translate_into_cache.
  rewrite element_address_ok by done.
  by destruct (Impl _ _ _) as [len0 chars].
Qed.

(** The part after [add_string], started from the sized globals. *)
Lemma add_string_unfold (context msg : string) (t : Translations) :
  add_string Impl context msg t =
  ('(len, t1) ← translate_into_cache Impl context msg (ensure_sized t);
   '(len, t2) ←
     (if len <? 0 then
        '(len', t') ←
          translate_into_cache Impl context msg
            {| s_translation_string_map := s_translation_string_map t1;
               s_translation_string_cache := s_translation_string_cache t1;
               s_translation_string_cache_pos := 0 |};
        if len' <? 0 then fault Panicked else ok (len', t')
      else ok (len, t1));
   cache ← element_store (s_translation_string_cache t2)
              (to_u32 (s_translation_string_cache_pos t2 + to_u32 len)) NUL;
   first ← element_address cache (s_translation_string_cache_pos t2);
   ok ((first, to_u32 len),
       {| s_translation_string_map :=
            <[context :=
                emplace msg (s_translation_string_cache_pos t2, to_u32 len)
                  (default ∅ (s_translation_string_map t2 !! context))]>
              (s_translation_string_map t2);
          s_translation_string_cache := cache;
          s_translation_string_cache_pos :=
            to_u32 (to_u32 (s_translation_string_cache_pos t2 + to_u32 len)
                    + 1) |})).
Proof. reflexivity. Qed.


Lemma LookupTranslationString_miss (context msg : string)
    (t : Translations) :
  msg ≠ EmptyString → cached t context msg = None →
  LookupTranslationString Impl context msg t = add_string Impl context msg t.
Proof.
  intros Hmsg Hc. unfold LookupTranslationString, cached in *.
  rewrite decide_False by done.
  destruct (s_translation_string_map t !! context) as [m|]; [|done].
  cbn in Hc. by rewrite Hc.
Qed.

Lemma LookupTranslationString_hit (context msg : string) (t : Translations)
    (first second : Z) :
  msg ≠ EmptyString → cached t context msg = Some (first, second) →
  LookupTranslationString Impl context msg t =
  (a ← element_address (s_translation_string_cache t) first;
   ok ((a, second), t)).
Proof.
  intros Hmsg Hc. unfold LookupTranslationString, cached in *.
  rewrite decide_False by done.
  destruct (s_translation_string_map t !! context) as [m|]; [|done].
  cbn in Hc. by rewrite Hc.
Qed.

(** The entries of the map after the part that follows [add_string]. *)
Lemma cached_after_add (context msg context' msg' : string)
    (t : Translations) (entry : Z * Z) (cache : list ascii) (pos : Z) :
  cached t context msg = None →
  cached
    {| s_translation_string_map :=
         <[context :=
             emplace msg entry
               (default ∅ (s_translation_string_map t !! context))]>
           (s_translation_string_map t);
       s_translation_string_cache := cache;
       s_translation_string_cache_pos := pos |} context' msg' =
  if decide (context' = context ∧ msg' = msg) then Some entry
  else cached t context' msg'.
Proof.
  intros Hmiss. unfold cached in *. cbn [s_translation_string_map].
  assert (Hnone : default ∅ (s_translation_string_map t !! context) !! msg
                  = None).
  { destruct (s_translation_string_map t !! context) as [m|]; [exact Hmiss|].
    apply lookup_empty. }
  unfold emplace. rewrite Hnone.
  destruct (decide (context' = context)) as [->|Hctx].
  - rewrite lookup_insert_eq. cbn.
    destruct (decide (msg' = msg)) as [->|Hmsg].
    + rewrite decide_True by done. apply lookup_insert_eq.
    + rewrite decide_False by (intros [_ ?]; done).
      rewrite lookup_insert_ne by done.
      destruct (s_translation_string_map t !! context) as [m|]; [done|].
      cbn. apply lookup_empty.
  - rewrite lookup_insert_ne by done.
    rewrite decide_False by (intros [? _]; done). done.
Qed.

Lemma consistent_unsized_or_full (t : Translations) :
  translations_consistent t → cache_unsized_or_full t.
Proof. intros [_ [[H _]|[H _]]]; [by left|by right]. Qed.

Lemma consistent_entries (t : Translations) (context msg : string)
    (first second : Z) :
  translations_consistent t →
  cached t context msg = Some (first, second) →
  Z.of_nat (length (s_translation_string_cache t)) =
    TRANSLATION_STRING_CACHE_SIZE ∧
  0 ≤ first ∧ 0 ≤ second ∧ first + second < TRANSLATION_STRING_CACHE_SIZE.
Proof.
  intros [_ [[_ Hm]|[Hlen He]]] Hc.
  - unfold cached in Hc. rewrite Hm, lookup_empty in Hc. discriminate Hc.
  - split; [done|]. by eapply He.
Qed.

End TranslationCacheMore.


Section TranslationCacheForward.

Variable Impl : string → string → Z → Z * list ascii.

#[local] Opaque TRANSLATION_STRING_CACHE_SIZE.

(** The part after [add_string] when the translation fits at the
    position. *)
Lemma add_string_fits (context msg : string) (t : Translations) (len : Z)
    (chars : list ascii) :
  cache_unsized_or_full t →
  0 ≤ s_translation_string_cache_pos (ensure_sized t) →
  Impl context msg
    (to_u32 (TRANSLATION_STRING_CACHE_SIZE - 1 -
             s_translation_string_cache_pos (ensure_sized t))) =
    (len, chars) →
  0 ≤ len →
  s_translation_string_cache_pos (ensure_sized t) + len <
    TRANSLATION_STRING_CACHE_SIZE →
  add_string Impl context msg t =
  ok ((s_translation_string_cache_pos (ensure_sized t), len),
      {| s_translation_string_map :=
           <[context :=
               emplace msg (s_translation_string_cache_pos (ensure_sized t),
                            len)
                 (default ∅ (s_translation_string_map t !! context))]>
             (s_translation_string_map t);
         s_translation_string_cache :=
           <[Z.to_nat (s_translation_string_cache_pos (ensure_sized t) + len)
             := NUL]>
             (list_inserts
                (Z.to_nat (s_translation_string_cache_pos (ensure_sized t)))
                chars (s_translation_string_cache (ensure_sized t)));
         s_translation_string_cache_pos :=
           s_translation_string_cache_pos (ensure_sized t) + len + 1 |}).
Proof.
  intros Hfull Hp HImpl Hlen Hfit.
  pose proof TRANSLATION_STRING_CACHE_SIZE_value as HSZ.
  pose proof (ensure_sized_length t Hfull) as Hsize.
  rewrite add_string_unfold.
  rewrite translate_into_cache_ok by lia.
  rewrite HImpl. cbn [mbind Outcome_bind bind_outcome ok fst snd].
  replace (len <? 0) with false by (symmetry; apply Z.ltb_ge; lia).
  cbn [mbind Outcome_bind bind_outcome ok
       s_translation_string_cache s_translation_string_cache_pos
       s_translation_string_map].
  assert (Hu : to_u32 len = len) by (unfold to_u32; rewrite Z.mod_small; lia).
  rewrite Hu.
  assert (Hu2 : to_u32 (s_translation_string_cache_pos (ensure_sized t) + len)
                = s_translation_string_cache_pos (ensure_sized t) + len)
    by (unfold to_u32; rewrite Z.mod_small; lia).
  rewrite Hu2.
  assert (Hu3 :
    to_u32 (s_translation_string_cache_pos (ensure_sized t) + len + 1)
    = s_translation_string_cache_pos (ensure_sized t) + len + 1)
    by (unfold to_u32; rewrite Z.mod_small; lia).
  rewrite Hu3.
  rewrite element_store_ok by (rewrite length_inserts; lia).
  cbn [mbind Outcome_bind bind_outcome ok].
  rewrite element_address_ok
    by (rewrite length_insert, length_inserts; lia).
  cbn [mbind Outcome_bind bind_outcome ok].
  by rewrite ensure_sized_map.
Qed.

(** The part after [add_string] when the translation does not fit at the
    position and fits at the start of the cache. *)
Lemma add_string_wraps (context msg : string) (t : Translations)
    (refused len : Z) (chars chars' : list ascii) :
  cache_unsized_or_full t →
  0 ≤ s_translation_string_cache_pos (ensure_sized t) <
    TRANSLATION_STRING_CACHE_SIZE →
  Impl context msg
    (to_u32 (TRANSLATION_STRING_CACHE_SIZE - 1 -
             s_translation_string_cache_pos (ensure_sized t))) =
    (refused, chars') →
  refused < 0 →
  Impl context msg (to_u32 (TRANSLATION_STRING_CACHE_SIZE - 1 - 0)) =
    (len, chars) →
  0 ≤ len < TRANSLATION_STRING_CACHE_SIZE →
  add_string Impl context msg t =
  ok ((0, len),
      {| s_translation_string_map :=
           <[context :=
               emplace msg (0, len)
                 (default ∅ (s_translation_string_map t !! context))]>
             (s_translation_string_map t);
         s_translation_string_cache :=
           <[Z.to_nat (0 + len) := NUL]>
             (list_inserts (Z.to_nat 0) chars
                (list_inserts
                   (Z.to_nat (s_translation_string_cache_pos (ensure_sized t)))
                   chars' (s_translation_string_cache (ensure_sized t))));
         s_translation_string_cache_pos := 0 + len + 1 |}).
Proof.
  intros Hfull Hp HImpl Href HImpl0 Hlen.
  pose proof TRANSLATION_STRING_CACHE_SIZE_value as HSZ.
  pose proof (ensure_sized_length t Hfull) as Hsize.
  rewrite add_string_unfold.
  rewrite translate_into_cache_ok by lia.
  rewrite HImpl. cbn [mbind Outcome_bind bind_outcome ok fst snd].
  replace (refused <? 0) with true by (symmetry; apply Z.ltb_lt; lia).
  rewrite translate_into_cache_ok
    by (cbn [s_translation_string_cache s_translation_string_cache_pos];
        rewrite length_inserts; lia).
  cbn [s_translation_string_cache s_translation_string_cache_pos
       s_translation_string_map].
  rewrite HImpl0. cbn [mbind Outcome_bind bind_outcome ok fst snd].
  replace (len <? 0) with false by (symmetry; apply Z.ltb_ge; lia).
  cbn [mbind Outcome_bind bind_outcome ok
       s_translation_string_cache s_translation_string_cache_pos
       s_translation_string_map].
  assert (Hu : to_u32 len = len) by (unfold to_u32; rewrite Z.mod_small; lia).
  rewrite Hu.
  assert (Hu2 : to_u32 (0 + len) = 0 + len)
    by (unfold to_u32; rewrite Z.mod_small; lia).
  rewrite Hu2.
  assert (Hu3 : to_u32 (0 + len + 1) = 0 + len + 1)
    by (unfold to_u32; rewrite Z.mod_small; lia).
  rewrite Hu3.
  rewrite element_store_ok by (rewrite !length_inserts; lia).
  cbn [mbind Outcome_bind bind_outcome ok].
  rewrite element_address_ok
    by (rewrite length_insert, !length_inserts; lia).
  cbn [mbind Outcome_bind bind_outcome ok].
  by rewrite ensure_sized_map.
Qed.

(** The part after [add_string] when the translator refuses at the
    position and again at the start of the cache. *)
Lemma add_string_panics (context msg : string) (t : Translations)
    (refused refused' : Z) (chars chars' : list ascii) :
  cache_unsized_or_full t →
  0 ≤ s_translation_string_cache_pos (ensure_sized t) <
    TRANSLATION_STRING_CACHE_SIZE →
  Impl context msg
    (to_u32 (TRANSLATION_STRING_CACHE_SIZE - 1 -
             s_translation_string_cache_pos (ensure_sized t))) =
    (refused, chars') →
  refused < 0 →
  Impl context msg (to_u32 (TRANSLATION_STRING_CACHE_SIZE - 1 - 0)) =
    (refused', chars) →
  refused' < 0 →
  add_string Impl context msg t = fault Panicked.
Proof.
  intros Hfull Hp HImpl Href HImpl0 Href'.
  pose proof TRANSLATION_STRING_CACHE_SIZE_value as HSZ.
  pose proof (ensure_sized_length t Hfull) as Hsize.
  rewrite add_string_unfold.
  rewrite translate_into_cache_ok by lia.
  rewrite HImpl. cbn [mbind Outcome_bind bind_outcome ok fst snd].
  replace (refused <? 0) with true by (symmetry; apply Z.ltb_lt; lia).
  rewrite translate_into_cache_ok
    by (cbn [s_translation_string_cache s_translation_string_cache_pos];
        rewrite length_inserts; lia).
  cbn [s_translation_string_cache s_translation_string_cache_pos
       s_translation_string_map].
  rewrite HImpl0. cbn [mbind Outcome_bind bind_outcome ok fst snd].
  replace (refused' <? 0) with true by (symmetry; apply Z.ltb_lt; lia).
  reflexivity.
Qed.

(** The globals after a translation of [len] characters was stored at [p],
    inside the cache. *)
Lemma consistent_after_add (context msg : string) (t : Translations)
    (p len : Z) (cache : list ascii) :
  translations_consistent t →
  cached t context msg = None →
  Z.of_nat (length cache) = TRANSLATION_STRING_CACHE_SIZE →
  0 ≤ p → 0 ≤ len → p + len < TRANSLATION_STRING_CACHE_SIZE →
  translations_consistent
    {| s_translation_string_map :=
         <[context :=
             emplace msg (p, len)
               (default ∅ (s_translation_string_map t !! context))]>
           (s_translation_string_map t);
       s_translation_string_cache := cache;
       s_translation_string_cache_pos := p + len + 1 |}.
Proof.
  intros Hcons Hc Hlen Hp Hl Hfit.
  split; [cbn [s_translation_string_cache_pos]; lia|].
  right. cbn [s_translation_string_cache]. split; [done|].
  intros context' msg' f s. rewrite (cached_after_add _ _ _ _ _ _ _ _ Hc).
  case_decide.
  - intros [= <- <-]. lia.
  - intros Hold.
    destruct (consistent_entries _ _ _ _ _ Hcons Hold) as (_ & ? & ? & ?).
    done.
Qed.

End TranslationCacheForward.

(** X19. The lookup indexes the cache only inside it, under the two
    conditions that the code relies on: the position is below the size of
    the cache, and the translator answers no more than the space it is
    given. On consistent globals, and for the empty message once the cache
    has been sized, the call then returns, leaves the globals consistent,
    and the pointer and the length it returns designate characters of the
    cache; the one other end is the [Panic] after the translator has
    refused at the position and again at the start of the cache. *)
Theorem LookupTranslationString_inside_cache
    (Impl : string → string → Z → Z * list ascii) (context msg : string)
    (t : Translations) :
  answers_within_space Impl →
  translations_consistent t →
  s_translation_string_cache_pos t < TRANSLATION_STRING_CACHE_SIZE →
  (msg = EmptyString → s_translation_string_cache t ≠ []) →
  (∃ first second t',
     LookupTranslationString Impl context msg t = ok ((first, second), t') ∧
     translations_consistent t' ∧
     0 ≤ first ∧ 0 ≤ second ∧
     first + second < Z.of_nat (length (s_translation_string_cache t'))) ∨
  (LookupTranslationString Impl context msg t = fault Panicked ∧
   (Impl context msg
      (to_u32 (TRANSLATION_STRING_CACHE_SIZE - 1 -
               s_translation_string_cache_pos (ensure_sized t)))).1 < 0 ∧
   (Impl context msg (to_u32 (TRANSLATION_STRING_CACHE_SIZE - 1 - 0))).1 < 0).
Proof.
  intros Hspace Hcons Hpos Hempty.
  pose proof TRANSLATION_STRING_CACHE_SIZE_value as HSZ.
  destruct (decide (msg = EmptyString)) as [->|Hmsg].
  { left. exists 0, 0, t.
    destruct Hcons as [Hp [[Hnil _]|[Hlen He]]]; [by destruct Hempty|].
    unfold LookupTranslationString. rewrite decide_True by done.
    rewrite element_address_ok by lia.
    split; [done|]. split; [|lia]. split; [done|]. by right. }
  destruct (cached t context msg) as [[f s]|] eqn:Hc.
  { left. exists f, s, t.
    destruct (consistent_entries _ _ _ _ _ Hcons Hc) as (Hl & ? & ? & ?).
    rewrite (LookupTranslationString_hit _ _ _ _ _ _ Hmsg Hc).
    rewrite element_address_ok by lia.
    split; [done|]. split; [done|lia]. }
  rewrite (LookupTranslationString_miss _ _ _ _ Hmsg Hc).
  pose proof (consistent_unsized_or_full t Hcons) as Hfull.
  pose proof (ensure_sized_length t Hfull) as Hsize.
  assert (Hp : 0 ≤ s_translation_string_cache_pos (ensure_sized t) <
               TRANSLATION_STRING_CACHE_SIZE).
  { destruct Hcons as [Hp _]. unfold ensure_sized.
    destruct (s_translation_string_cache t); cbn; lia. }
  assert (Hu : ∀ q, 0 ≤ q < TRANSLATION_STRING_CACHE_SIZE →
               to_u32 (TRANSLATION_STRING_CACHE_SIZE - 1 - q) =
               TRANSLATION_STRING_CACHE_SIZE - 1 - q).
  { intros q Hq. unfold to_u32. rewrite Z.mod_small; lia. }
  destruct (Impl context msg
              (to_u32 (TRANSLATION_STRING_CACHE_SIZE - 1 -
                       s_translation_string_cache_pos (ensure_sized t))))
    as [len chars] eqn:HImpl.
  pose proof (Hspace context msg
                (to_u32 (TRANSLATION_STRING_CACHE_SIZE - 1 -
                         s_translation_string_cache_pos (ensure_sized t))))
    as Hle.
  rewrite HImpl, Hu in Hle by done. cbn [fst] in Hle.
  destruct (decide (0 ≤ len)) as [Hlen|Hneg].
  - left.
    rewrite (add_string_fits Impl context msg t len chars Hfull
               ltac:(lia) HImpl Hlen ltac:(lia)).
    eexists _, _, _. split; [reflexivity|].
    cbn [s_translation_string_cache].
    rewrite length_insert, length_inserts.
    split; [|lia].
    apply consistent_after_add; try done; try lia.
    by rewrite length_insert, length_inserts.
  - destruct (Impl context msg (to_u32 (TRANSLATION_STRING_CACHE_SIZE - 1 - 0)))
      as [len' chars'] eqn:HImpl0.
    pose proof (Hspace context msg
                  (to_u32 (TRANSLATION_STRING_CACHE_SIZE - 1 - 0))) as Hle0.
    rewrite HImpl0, Hu in Hle0 by lia. cbn [fst] in Hle0.
    destruct (decide (0 ≤ len')) as [Hlen'|Hneg'].
    + left.
      rewrite (add_string_wraps Impl context msg t len len' chars' chars
                 Hfull Hp HImpl ltac:(lia) HImpl0 ltac:(lia)).
      eexists _, _, _. split; [reflexivity|].
      cbn [s_translation_string_cache].
      rewrite length_insert, !length_inserts.
      split; [|lia].
      apply consistent_after_add; try done; try lia.
      by rewrite length_insert, !length_inserts.
    + right. split; [|split; cbn [fst]; lia].
      apply (add_string_panics Impl context msg t len len' chars' chars
               Hfull Hp HImpl ltac:(lia) HImpl0 ltac:(lia)).
Qed.

(** The characters of a view onto a string just stored. *)
Lemma view_chars_stored (cache chars : list ascii) (p : nat) :
  (p + length chars < length cache)%nat →
  view_chars
    (<[(p + length chars)%nat := NUL]> (list_inserts p chars cache))
    (Z.of_nat p) (Z.of_nat (length chars)) = chars.
Proof.
  intros Hfit. unfold view_chars. rewrite !Nat2Z.id.
  apply list_eq. intros i.
  destruct (decide (i < length chars)%nat) as [Hi|Hi].
  - rewrite lookup_take_lt by done. rewrite lookup_drop.
    rewrite list_lookup_insert_ne by lia.
    rewrite list_lookup_inserts by lia.
    f_equal. lia.
  - rewrite lookup_take_ge by lia. symmetry. apply lookup_ge_None. lia.
Qed.

Lemma blank_cache_length :
  Z.of_nat (length blank_cache) = TRANSLATION_STRING_CACHE_SIZE.
Proof.
  unfold blank_cache. rewrite length_replicate.
  apply Z2Nat.id. rewrite TRANSLATION_STRING_CACHE_SIZE_value. lia.
Qed.

Lemma blank_cache_not_nil : blank_cache ≠ [].
Proof.
  intros H. pose proof blank_cache_length as Hl. rewrite H in Hl.
  rewrite TRANSLATION_STRING_CACHE_SIZE_value in Hl. discriminate Hl.
Qed.

#[local] Opaque TRANSLATION_STRING_CACHE_SIZE.

Lemma initial_translations_consistent :
  translations_consistent initial_translations.
Proof.
  split; [|by left]. cbn. rewrite TRANSLATION_STRING_CACHE_SIZE_value. lia.
Qed.

Lemma fixed_translator_within_space (word : list ascii) :
  answers_within_space (fixed_translator word).
Proof.
  intros context msg space Hs. unfold fixed_translator.
  destruct (_ <=? _) eqn:H; cbn; lia.
Defined.

Lemma fixed_translator_room (word : list ascii) (context msg : string)
    (space : Z) :
  Z.of_nat (length word) ≤ space →
  fixed_translator word context msg space = (Z.of_nat (length word), word).
Proof.
  intros H. unfold fixed_translator.
  by replace (_ <=? _) with true by (symmetry; apply Z.leb_le; lia).
Qed.

Lemma fixed_translator_no_room (word : list ascii) (context msg : string)
    (space : Z) :
  space < Z.of_nat (length word) →
  fixed_translator word context msg space = (-1, []).
Proof.
  intros H. unfold fixed_translator.
  by replace (_ <=? _) with false by (symmetry; apply Z.leb_gt; lia).
Qed.


Lemma LookupTranslationString_inside_cache_witness :
  (∃ first second t',
     LookupTranslationString (fixed_translator word_Hi) "Menu" "Hello"
       initial_translations = ok ((first, second), t') ∧
     translations_consistent t' ∧
     0 ≤ first ∧ 0 ≤ second ∧
     first + second < Z.of_nat (length (s_translation_string_cache t'))) ∨
  (LookupTranslationString (fixed_translator word_Hi) "Menu" "Hello"
     initial_translations = fault Panicked ∧
   (fixed_translator word_Hi "Menu" "Hello"
      (to_u32 (TRANSLATION_STRING_CACHE_SIZE - 1 -
               s_translation_string_cache_pos
                 (ensure_sized initial_translations)))).1 < 0 ∧
   (fixed_translator word_Hi "Menu" "Hello"
      (to_u32 (TRANSLATION_STRING_CACHE_SIZE - 1 - 0))).1 < 0).
Proof.
  apply (LookupTranslationString_inside_cache (fixed_translator word_Hi)
           "Menu" "Hello" initial_translations).
  - apply fixed_translator_within_space.
  - exact initial_translations_consistent.
  - cbn [initial_translations s_translation_string_cache_pos].
    rewrite TRANSLATION_STRING_CACHE_SIZE_value. lia.
  - discriminate.
Defined.


Lemma translate_into_cache_outside
    (Impl : string → string → Z → Z * list ascii) (context msg : string)
    (t : Translations) :
  ¬ (0 ≤ s_translation_string_cache_pos t <
     Z.of_nat (length (s_translation_string_cache t))) →
  translate_into_cache Impl context msg t = fault OutOfBounds.
Proof.
  intros H. unfold translate_into_cache, element_address.
  by rewrite decide_False.
Qed.

(** X21. A translation comes back as the translator gave it. For a message
    that is not cached and whose translation fits at the position,
    [TranslateToString] returns the characters of the translator, and
    returns them again on a second call, for which the translator is not
    consulted. *)
Theorem TranslateToString_round_trip
    (Impl Impl' : string → string → Z → Z * list ascii)
    (context msg : string) (t : Translations) (chars : list ascii) :
  cache_unsized_or_full t →
  msg ≠ EmptyString →
  cached t context msg = None →
  0 ≤ s_translation_string_cache_pos (ensure_sized t) →
  Impl context msg
    (to_u32 (TRANSLATION_STRING_CACHE_SIZE - 1 -
             s_translation_string_cache_pos (ensure_sized t))) =
    (Z.of_nat (length chars), chars) →
  s_translation_string_cache_pos (ensure_sized t) + Z.of_nat (length chars) <
    TRANSLATION_STRING_CACHE_SIZE →
  ∃ t',
    TranslateToString Impl context msg t = ok (chars, t') ∧
    TranslateToString Impl' context msg t' = ok (chars, t').
Proof.
  intros Hfull Hmsg Hmiss Hp HImpl Hfit.
  pose proof TRANSLATION_STRING_CACHE_SIZE_value as HSZ.
  pose proof (ensure_sized_length t Hfull) as Hsize.
  pose proof (add_string_fits Impl context msg t _ _ Hfull Hp HImpl
                ltac:(lia) Hfit) as Hadd.
  set (p := s_translation_string_cache_pos (ensure_sized t)) in *.
  assert (Hview :
    view_chars
      (<[Z.to_nat (p + Z.of_nat (length chars)) := NUL]>
         (list_inserts (Z.to_nat p) chars
            (s_translation_string_cache (ensure_sized t))))
      p (Z.of_nat (length chars)) = chars).
  { clearbody p. destruct (Z_of_nat_complete p Hp) as [pn ->].
    rewrite <- Nat2Z.inj_add, !Nat2Z.id.
    apply view_chars_stored. lia. }
  eexists. split.
  - unfold TranslateToString, TranslateToStringView.
    rewrite (LookupTranslationString_miss _ _ _ _ Hmsg Hmiss), Hadd.
    cbn [mbind Outcome_bind bind_outcome ok fst snd
         s_translation_string_cache].
    rewrite Hview. reflexivity.
  - unfold TranslateToString, TranslateToStringView.
    erewrite LookupTranslationString_hit; [|done|].
    2:{ rewrite (cached_after_add _ _ _ _ _ _ _ _ Hmiss).
        by rewrite decide_True. }
    cbn [s_translation_string_cache].
    rewrite element_address_ok
      by (rewrite length_insert, length_inserts; lia).
    cbn [mbind Outcome_bind bind_outcome ok fst snd
         s_translation_string_cache].
    rewrite Hview. reflexivity.
Qed.

Lemma TranslateToString_round_trip_witness :
  ∃ t',
    TranslateToString (fixed_translator word_Hi) "Menu" "Hello"
      initial_translations = ok (word_Hi, t') ∧
    TranslateToString (fixed_translator word_Hello) "Menu" "Hello" t' =
    ok (word_Hi, t').
Proof.
  apply (TranslateToString_round_trip (fixed_translator word_Hi)
           (fixed_translator word_Hello) "Menu" "Hello" initial_translations
           word_Hi).
  - by left.
  - done.
  - done.
  - done.
  - apply fixed_translator_room.
    cbn [ensure_sized initial_translations s_translation_string_cache
         s_translation_string_cache_pos].
    rewrite TRANSLATION_STRING_CACHE_SIZE_value. by vm_compute.
  - cbn [ensure_sized initial_translations s_translation_string_cache
         s_translation_string_cache_pos].
    rewrite TRANSLATION_STRING_CACHE_SIZE_value. by vm_compute.
Defined.

(** X22. A translation that fills the cache to its last place leaves the
    position equal to the size of the cache. The space the next call would
    compute from it is [u32] of -1, and the next message that is not cached
    stops at the address of [cache[size]], which is outside the vector. *)
Theorem LookupTranslationString_exact_fill
    (Impl Impl' : string → string → Z → Z * list ascii)
    (context msg context' msg' : string) (t : Translations)
    (chars : list ascii) :
  Z.of_nat (length (s_translation_string_cache t)) =
    TRANSLATION_STRING_CACHE_SIZE →
  0 ≤ s_translation_string_cache_pos t < TRANSLATION_STRING_CACHE_SIZE →
  msg ≠ EmptyString →
  cached t context msg = None →
  Impl context msg
    (to_u32 (TRANSLATION_STRING_CACHE_SIZE - 1 -
             s_translation_string_cache_pos t)) =
    (TRANSLATION_STRING_CACHE_SIZE - 1 - s_translation_string_cache_pos t,
     chars) →
  ∃ t',
    LookupTranslationString Impl context msg t =
      ok ((s_translation_string_cache_pos t,
           TRANSLATION_STRING_CACHE_SIZE - 1 -
           s_translation_string_cache_pos t), t') ∧
    s_translation_string_cache_pos t' = TRANSLATION_STRING_CACHE_SIZE ∧
    to_u32 (TRANSLATION_STRING_CACHE_SIZE - 1 -
            s_translation_string_cache_pos t') = 2 ^ 32 - 1 ∧
    (msg' ≠ EmptyString → cached t' context' msg' = None →
     LookupTranslationString Impl' context' msg' t' = fault OutOfBounds).
Proof.
  intros Hsize Hpos Hmsg Hmiss HImpl.
  pose proof TRANSLATION_STRING_CACHE_SIZE_value as HSZ.
  assert (Hne : s_translation_string_cache t ≠ []).
  { intros He. rewrite He in Hsize. cbn in Hsize. lia. }
  pose proof (ensure_sized_sized t Hne) as Hsized.
  pose proof (add_string_fits Impl context msg t
                (TRANSLATION_STRING_CACHE_SIZE - 1 -
                 s_translation_string_cache_pos t) chars
                (or_intror Hsize)) as Hadd.
  rewrite Hsized in Hadd.
  specialize (Hadd ltac:(lia) HImpl ltac:(lia) ltac:(lia)).
  eexists. split; [|split; [|split]].
  - rewrite (LookupTranslationString_miss _ _ _ _ Hmsg Hmiss). exact Hadd.
  - cbn [s_translation_string_cache_pos]. lia.
  - cbn [s_translation_string_cache_pos].
    replace (TRANSLATION_STRING_CACHE_SIZE - 1 -
             (s_translation_string_cache_pos t +
              (TRANSLATION_STRING_CACHE_SIZE - 1 -
               s_translation_string_cache_pos t) + 1)) with (-1) by lia.
    reflexivity.
  - intros Hmsg' Hmiss'.
    rewrite (LookupTranslationString_miss _ _ _ _ Hmsg' Hmiss').
    rewrite add_string_unfold.
    rewrite ensure_sized_sized.
    2:{ cbn [s_translation_string_cache]. intros He.
        apply (f_equal length) in He.
        rewrite length_insert, length_inserts in He. cbn in He. lia. }
    rewrite translate_into_cache_outside; [reflexivity|].
    cbn [s_translation_string_cache s_translation_string_cache_pos].
    rewrite length_insert, length_inserts. lia.
Qed.

Lemma nearly_full_miss :
  cached nearly_full_translations "Menu" "Hello" = None.
Proof.
  unfold cached, nearly_full_translations. cbn [s_translation_string_map].
  vm_compute. reflexivity.
Defined.

Lemma nearly_full_old_entry :
  cached nearly_full_translations "Menu" "Old" = Some (0, 3).
Proof.
  unfold cached, nearly_full_translations. cbn [s_translation_string_map].
  vm_compute. reflexivity.
Defined.

Lemma LookupTranslationString_exact_fill_witness :
  ∃ t',
    LookupTranslationString (fixed_translator word_Hi) "Menu" "Hello"
      nearly_full_translations =
      ok ((s_translation_string_cache_pos nearly_full_translations,
           TRANSLATION_STRING_CACHE_SIZE - 1 -
           s_translation_string_cache_pos nearly_full_translations), t') ∧
    s_translation_string_cache_pos t' = TRANSLATION_STRING_CACHE_SIZE ∧
    to_u32 (TRANSLATION_STRING_CACHE_SIZE - 1 -
            s_translation_string_cache_pos t') = 2 ^ 32 - 1 ∧
    (("Bye" : string) ≠ EmptyString → cached t' "Menu" "Bye" = None →
     LookupTranslationString (fixed_translator word_Hi) "Menu" "Bye" t' =
     fault OutOfBounds).
Proof.
  apply (LookupTranslationString_exact_fill (fixed_translator word_Hi)
           (fixed_translator word_Hi) "Menu" "Hello" "Menu" "Bye"
           nearly_full_translations word_Hi).
  - exact blank_cache_length.
  - cbn [nearly_full_translations s_translation_string_cache_pos].
    rewrite TRANSLATION_STRING_CACHE_SIZE_value. lia.
  - done.
  - exact nearly_full_miss.
  - cbn [nearly_full_translations s_translation_string_cache_pos].
    rewrite TRANSLATION_STRING_CACHE_SIZE_value. by vm_compute.
Defined.

(** X23. Element 0 of the cache is where the first translation goes.
    Whenever the position is 0 (on the first use, and after
    [ClearTranslationCache]) a translation that is not cached is stored from
    element 0 on, so that afterwards the pointer returned for the empty
    message is the pointer of that translation, and element 0 holds its
    first character. *)
Theorem LookupTranslationString_first_at_element_0
    (Impl Impl' : string → string → Z → Z * list ascii)
    (context msg context' : string) (t : Translations) (c : ascii)
    (rest : list ascii) :
  cache_unsized_or_full t →
  s_translation_string_cache_pos (ensure_sized t) = 0 →
  msg ≠ EmptyString →
  cached t context msg = None →
  Impl context msg (to_u32 (TRANSLATION_STRING_CACHE_SIZE - 1 - 0)) =
    (Z.of_nat (length (c :: rest)), c :: rest) →
  Z.of_nat (length (c :: rest)) < TRANSLATION_STRING_CACHE_SIZE →
  ∃ t',
    TranslateToCString Impl context msg t = ok (0, t') ∧
    s_translation_string_cache t' !! 0%nat = Some c ∧
    TranslateToCString Impl' context' "" t' = ok (0, t').
Proof.
  intros Hfull Hp0 Hmsg Hmiss HImpl Hfit.
  pose proof TRANSLATION_STRING_CACHE_SIZE_value as HSZ.
  pose proof (ensure_sized_length t Hfull) as Hsize.
  pose proof (add_string_fits Impl context msg t
                (Z.of_nat (length (c :: rest))) (c :: rest) Hfull) as Hadd.
  rewrite Hp0 in Hadd.
  specialize (Hadd ltac:(lia) HImpl ltac:(lia) ltac:(lia)).
  eexists. split; [|split].
  - unfold TranslateToCString.
    rewrite (LookupTranslationString_miss _ _ _ _ Hmsg Hmiss), Hadd.
    reflexivity.
  - cbn [s_translation_string_cache].
    rewrite list_lookup_insert_ne by (cbn [length]; lia).
    rewrite list_lookup_inserts by (cbn [length]; lia).
    reflexivity.
  - unfold TranslateToCString.
    rewrite LookupTranslationString_empty_sized; [reflexivity|].
    cbn [s_translation_string_cache]. intros He.
    apply (f_equal length) in He.
    rewrite length_insert, length_inserts in He. cbn [length] in He. lia.
Qed.

Lemma LookupTranslationString_first_at_element_0_witness :
  ∃ t',
    TranslateToCString (fixed_translator word_Hi) "Menu" "Hello"
      (ClearTranslationCache initial_translations) = ok (0, t') ∧
    s_translation_string_cache t' !! 0%nat = Some "H"%char ∧
    TranslateToCString (fixed_translator word_Hi) "Menu" "" t' = ok (0, t').
Proof.
  apply (LookupTranslationString_first_at_element_0
           (fixed_translator word_Hi) (fixed_translator word_Hi)
           "Menu" "Hello" "Menu" (ClearTranslationCache initial_translations)
           "H"%char ["i"%char]).
  - by left.
  - done.
  - done.
  - done.
  - apply (fixed_translator_room word_Hi).
    rewrite TRANSLATION_STRING_CACHE_SIZE_value. by vm_compute.
  - rewrite TRANSLATION_STRING_CACHE_SIZE_value. by vm_compute.
Defined.

(** X24. When a translation does not fit at the position, the position goes
    back to 0 and the translation is stored from element 0 on, but the map
    keeps the entries it had: an older entry is still answered with its old
    position and length, while the characters from element 0 on are now
    those of the new translation. *)
Theorem LookupTranslationString_wrap_keeps_entries
    (Impl : string → string → Z → Z * list ascii)
    (context msg context0 msg0 : string) (t : Translations)
    (refused : Z) (chars chars' : list ascii) (entry0 : Z * Z) :
  Z.of_nat (length (s_translation_string_cache t)) =
    TRANSLATION_STRING_CACHE_SIZE →
  0 ≤ s_translation_string_cache_pos t < TRANSLATION_STRING_CACHE_SIZE →
  msg ≠ EmptyString →
  cached t context msg = None →
  cached t context0 msg0 = Some entry0 →
  Impl context msg
    (to_u32 (TRANSLATION_STRING_CACHE_SIZE - 1 -
             s_translation_string_cache_pos t)) = (refused, chars') →
  refused < 0 →
  Impl context msg (to_u32 (TRANSLATION_STRING_CACHE_SIZE - 1 - 0)) =
    (Z.of_nat (length chars), chars) →
  Z.of_nat (length chars) < TRANSLATION_STRING_CACHE_SIZE →
  ∃ t',
    LookupTranslationString Impl context msg t =
      ok ((0, Z.of_nat (length chars)), t') ∧
    s_translation_string_cache_pos t' = Z.of_nat (length chars) + 1 ∧
    cached t' context0 msg0 = Some entry0 ∧
    ∀ i, (i < length chars)%nat →
      s_translation_string_cache t' !! i = chars !! i.
Proof.
  intros Hsize Hpos Hmsg Hmiss Hold HImpl Href HImpl0 Hfit.
  pose proof TRANSLATION_STRING_CACHE_SIZE_value as HSZ.
  assert (Hne : s_translation_string_cache t ≠ []).
  { intros He. rewrite He in Hsize. cbn in Hsize. lia. }
  pose proof (ensure_sized_sized t Hne) as Hsized.
  pose proof (add_string_wraps Impl context msg t refused
                (Z.of_nat (length chars)) chars chars' (or_intror Hsize))
    as Hadd.
  rewrite Hsized in Hadd.
  specialize (Hadd Hpos HImpl Href HImpl0 ltac:(lia)).
  eexists. split; [|split; [|split]].
  - rewrite (LookupTranslationString_miss _ _ _ _ Hmsg Hmiss). exact Hadd.
  - cbn [s_translation_string_cache_pos]. lia.
  - rewrite (cached_after_add _ _ _ _ _ _ _ _ Hmiss).
    rewrite decide_False; [done|].
    intros [-> ->]. rewrite Hmiss in Hold. discriminate Hold.
  - intros i Hi. cbn [s_translation_string_cache].
    rewrite list_lookup_insert_ne by lia.
    rewrite list_lookup_inserts by (rewrite ?length_inserts; lia).
    f_equal. lia.
Qed.

Lemma LookupTranslationString_wrap_keeps_entries_witness :
  ∃ t',
    LookupTranslationString (fixed_translator word_Hello) "Menu" "Hello"
      nearly_full_translations =
      ok ((0, Z.of_nat (length word_Hello)), t') ∧
    s_translation_string_cache_pos t' = Z.of_nat (length word_Hello) + 1 ∧
    cached t' "Menu" "Old" = Some (0, 3) ∧
    ∀ i, (i < length word_Hello)%nat →
      s_translation_string_cache t' !! i = word_Hello !! i.
Proof.
  apply (LookupTranslationString_wrap_keeps_entries
           (fixed_translator word_Hello) "Menu" "Hello" "Menu" "Old"
           nearly_full_translations (-1) word_Hello [] (0, 3)).
  - exact blank_cache_length.
  - cbn [nearly_full_translations s_translation_string_cache_pos].
    rewrite TRANSLATION_STRING_CACHE_SIZE_value. lia.
  - done.
  - exact nearly_full_miss.
  - exact nearly_full_old_entry.
  - apply fixed_translator_no_room.
    cbn [nearly_full_translations s_translation_string_cache_pos].
    rewrite TRANSLATION_STRING_CACHE_SIZE_value. by vm_compute.
  - lia.
  - apply (fixed_translator_room word_Hello).
    rewrite TRANSLATION_STRING_CACHE_SIZE_value. by vm_compute.
  - rewrite TRANSLATION_STRING_CACHE_SIZE_value. by vm_compute.
Defined.

(* --------------------------------------------------------------------- *)
(** ** Wrapping an existing texture                                       *)
(* --------------------------------------------------------------------- *)

(** X25. [Adopt] either fails and leaves the object as it was, or takes the
    texture, its dimensions and its dynamic flag from the description of the
    adopted texture; unlike the constructor, which sets the format from
    [LookupBaseFormat] of the description, it leaves [m_format] as it was,
    whatever the format of the adopted texture is. *)
Theorem Adopt_keeps_format (Count Unknown : nat)
    (GetDesc : nat → TEXTURE2D_DESC) (device : ID3D11Device) (texture : nat)
    (srv rtv : option nat) (mapped : Z) (t t' : D3D11Texture) (b : bool)
    (lines : list LogLine) :
  Adopt GetDesc device texture t = (b, t', lines) →
  if b then
    m_texture t' = Some texture ∧
    m_width (base t') = m_width
      (base (D3D11Texture_from Count Unknown GetDesc texture srv rtv mapped)) ∧
    m_height (base t') = m_height
      (base (D3D11Texture_from Count Unknown GetDesc texture srv rtv mapped)) ∧
    m_layers (base t') = m_layers
      (base (D3D11Texture_from Count Unknown GetDesc texture srv rtv mapped)) ∧
    m_levels (base t') = m_levels
      (base (D3D11Texture_from Count Unknown GetDesc texture srv rtv mapped)) ∧
    m_samples (base t') = m_samples
      (base (D3D11Texture_from Count Unknown GetDesc texture srv rtv mapped)) ∧
    m_dynamic t' =
      m_dynamic
        (D3D11Texture_from Count Unknown GetDesc texture srv rtv mapped) ∧
    m_format (base t') = m_format (base t) ∧
    m_format
      (base (D3D11Texture_from Count Unknown GetDesc texture srv rtv mapped)) =
      LookupBaseFormat Count Unknown (desc_Format (GetDesc texture)) ∧
    lines = []
  else t' = t ∧ ∃ msg, lines = [Log_ErrorPrint msg].
Proof.
  intros H. unfold Adopt in H. cbv zeta in H.
  repeat match type of H with
         | context [if ?c then _ else _] => destruct c eqn:?
         | context [match ?o with Some _ => _ | None => _ end] =>
             destruct o eqn:?
         end;
    simplify_eq; first [by repeat split | split; [done|by eexists]].
Qed.

Lemma Adopt_keeps_format_witness :
  ∃ t',
    Adopt bgra_desc willing_device 9 no_texture = (true, t', []) ∧
    m_width (base t') = 320 ∧
    m_dynamic t' = true ∧
    m_format (base t') = 0%nat ∧
    m_format (base (D3D11Texture_from 7 0 bgra_desc 9 None None 0)) = 2%nat.
Proof.
  eexists. split; [reflexivity|].
  pose proof (Adopt_keeps_format 7 0 bgra_desc willing_device 9 None None 0
                no_texture _ true [] eq_refl)
    as (_ & Hw & _ & _ & _ & _ & Hd & Hf & Hc & _).
  split; [exact Hw|]. split; [exact Hd|]. split; [exact Hf|exact Hc].
Defined.
